(** * DonorWare: the public donation inventory

    A shallow embedding of the schema registry (inventory.py), the
    persistence gateway and the account directory (managers.py) and the
    transaction ledger and cross-category query engine
    (transaction_manager.py), with the properties stated about them.

    Conventions.
    - A Python [str] is a [string]; each [ascii] stands for one character.
    - A Python [int] is a [Z].
    - A Python list or tuple is a [list]; a [dict] whose iteration order
      matters is an association list in insertion order.
    - SQLite is modelled at the level of the statements the program issues:
      tables are lists of rows in rowid order, and each statement has its
      relational meaning.  The driver binds an integer only if it fits 64
      bits; other resource limits of SQLite and of the driver (the length
      of a LIKE pattern) are outside the model. *)

From Stdlib Require Import String Ascii List ZArith Bool Arith Lia DecimalString
  Permutation.
Import ListNotations.
Open Scope string_scope.
Open Scope list_scope.

(** ** Python text helpers *)

(** [sep.join(l)]. *)
Definition join (sep : string) (l : list string) : string := String.concat sep l.

(** An f-string: the concatenation of its literal and interpolated parts. *)
Definition fstr (parts : list string) : string := String.concat "" parts.

(** The line feed of a Python string literal. *)
Definition nl : string := String (ascii_of_nat 10) "".

(** [x in l] for a list of strings. *)
Definition mem (x : string) (l : list string) : bool :=
  existsb (String.eqb x) l.

(** [l.index(x)], with [len(l)] where Python raises ValueError. *)
Fixpoint index (x : string) (l : list string) : nat :=
  match l with
  | [] => 0
  | y :: t => if String.eqb x y then 0 else S (index x t)
  end.

(** [d.values()] of a dict kept in insertion order. *)
Definition values {K V : Type} (d : list (K * V)) : list V := map snd d.

(** ** ordered_set.OrderedSet

    [OrderedSet(iterable)] adds the elements one by one; [add] appends a key
    only when it is not there yet. *)
Module OrderedSet.

Definition add (s : list string) (key : string) : list string :=
  if mem key s then s else s ++ [key].

Definition make (iterable : list string) : list string :=
  fold_left add iterable [].

End OrderedSet.

(** ** inventory.py: the item type registry *)

(** An item class: its [cls_item_type] and the [fields] its constructor sets. *)
Record Inventory : Type := {
  cls_item_type : string;
  fields : list string
}.

Definition Book : Inventory :=
  {| cls_item_type := "book";
     fields := ["name"; "author"; "genre"; "date"] |}.

Definition Magazine : Inventory :=
  {| cls_item_type := "magazine";
     fields := ["name"; "publisher"; "genre"; "date"] |}.

Definition Journal : Inventory :=
  {| cls_item_type := "journal";
     fields := ["name"; "author"; "journal_name"; "volume"; "issue"; "format"] |}.

Definition Manga : Inventory :=
  {| cls_item_type := "manga";
     fields := ["name"; "author"; "publisher"; "format"] |}.

Definition WesternComic : Inventory :=
  {| cls_item_type := "western_comic";
     fields := ["name"; "author"; "publisher"; "format"] |}.

Definition ResearchPaper : Inventory :=
  {| cls_item_type := "research_paper";
     fields := ["name"; "author"; "journal_name"; "abstract"; "keywords"; "date"] |}.

(** main.py: the global [item_types] dict. *)
Definition item_types : list (string * Inventory) :=
  [("1", Book); ("2", Magazine); ("3", Journal);
   ("4", Manga); ("5", WesternComic); ("6", ResearchPaper)].

(** ** The unified column set

    Each of the three listings below starts with the same four lines:
<<
    common_columns = []
    for item_cls in self.item_types.values():
        common_columns.extend(item_cls().fields)
    common_columns = list(OrderedSet(common_columns))
>>
    They are transcribed once per method, as in the source. *)

(** transaction_manager.py, lines 115-118. *)
Definition search_for_every_item_type_columns
    (item_types : list (string * Inventory)) : list string :=
  let common_columns :=
    fold_left (fun acc item_cls => acc ++ fields item_cls) (values item_types) [] in
  OrderedSet.make common_columns.

(** transaction_manager.py, lines 179-182. *)
Definition get_items_added_by_user_columns
    (item_types : list (string * Inventory)) : list string :=
  let common_columns :=
    fold_left (fun acc item_cls => acc ++ fields item_cls) (values item_types) [] in
  OrderedSet.make common_columns.

(** transaction_manager.py, lines 219-222. *)
Definition get_transaction_history_columns
    (item_types : list (string * Inventory)) : list string :=
  let common_columns :=
    fold_left (fun acc item_cls => acc ++ fields item_cls) (values item_types) [] in
  OrderedSet.make common_columns.

(** The column headers each listing returns next to its rows. *)
Definition search_for_every_item_type_header
    (item_types : list (string * Inventory)) : list string :=
  ["Category"; "id"] ++ search_for_every_item_type_columns item_types.

Definition get_items_added_by_user_header
    (item_types : list (string * Inventory)) : list string :=
  ["Category"] ++ get_items_added_by_user_columns item_types ++ ["user_name"].

Definition extra_columns : list string :=
  ["borrow_date"; "due_date"; "return_date"; "status"].

Definition get_transaction_history_header
    (item_types : list (string * Inventory)) : list string :=
  ["Category"; "TransactionId"] ++ get_transaction_history_columns item_types
    ++ extra_columns ++ ["user_name"].

(** ** SQLite values and Python exceptions *)

(** A value bound to a [?] placeholder or found in a result row:
    [None], an [int], a [str] or [bytes]. *)
Inductive value : Type :=
| VNull
| VInt (n : Z)
| VText (s : string)
| VBlob (b : string).

(** A result row is a tuple of column values. *)
Definition row : Type := list value.

(** The exceptions that reach this code.  The first three are subclasses of
    [sqlite3.Error]; the others are builtins and are not. *)
Inductive exn : Type :=
| IntegrityError (msg : string)
| OperationalError (msg : string)
| ProgrammingError (msg : string)
| OverflowError (msg : string)
| TypeError (msg : string)
| IndexError (msg : string).

(** [isinstance(e, sqlite3.Error)]. *)
Definition is_sqlite3_Error (e : exn) : bool :=
  match e with
  | IntegrityError _ | OperationalError _ | ProgrammingError _ => true
  | OverflowError _ | TypeError _ | IndexError _ => false
  end.

(** [isinstance(e, Exception)]. *)
Definition is_Exception (e : exn) : bool := true.

(** [str(e)]. *)
Definition str_exn (e : exn) : string :=
  match e with
  | IntegrityError msg | OperationalError msg | ProgrammingError msg
  | OverflowError msg | TypeError msg | IndexError msg => msg
  end.

(** ** The world a method runs in

    The store behind the connection, the lines written to the console, and
    the clock: [clock k] is what the k-th call of [datetime.now()] reads,
    as the ordinal of its calendar day (the time of day is never used). *)
Record World (Store : Type) : Type := {
  db : Store;
  console : list string;
  clock : nat -> Z;
  ticks : nat
}.
Arguments db {Store}.
Arguments console {Store}.
Arguments clock {Store}.
Arguments ticks {Store}.

(** A method either returns a value or raises. *)
Inductive outcome (A : Type) : Type :=
| Return (a : A)
| Raise (e : exn).
Arguments Return {A}.
Arguments Raise {A}.

Definition M (Store A : Type) : Type := World Store -> outcome A * World Store.

Section Effects.
Context {Store : Type}.

(** The world after a line was written to the console. *)
Definition say (line : string) (w : World Store) : World Store :=
  {| db := db w; console := console w ++ [line];
     clock := clock w; ticks := ticks w |}.

(** The world after the clock was read once. *)
Definition tick (w : World Store) : World Store :=
  {| db := db w; console := console w;
     clock := clock w; ticks := S (ticks w) |}.

(** The world with another store. *)
Definition with_db (s : Store) (w : World Store) : World Store :=
  {| db := s; console := console w;
     clock := clock w; ticks := ticks w |}.

Definition ret {A} (a : A) : M Store A := fun w => (Return a, w).

Definition bind {A B} (m : M Store A) (k : A -> M Store B) : M Store B :=
  fun w =>
    match m w with
    | (Return a, w') => k a w'
    | (Raise e, w') => (Raise e, w')
    end.

Definition raise {A} (e : exn) : M Store A := fun w => (Raise e, w).

(** [try: body / except cls as e: handler]. *)
Definition try_except {A} (body : M Store A) (cls : exn -> bool)
    (handler : exn -> M Store A) : M Store A :=
  fun w =>
    match body w with
    | (Return a, w') => (Return a, w')
    | (Raise e, w') => if cls e then handler e w' else (Raise e, w')
    end.

(** [print(line)] on the console. *)
Definition print (line : string) : M Store unit :=
  fun w => (Return tt, say line w).

(** [datetime.now()]. *)
Definition now : M Store Z :=
  fun w => (Return (clock w (ticks w)), tick w).

(** One statement run on the connection's cursor: the store changes only
    when the statement succeeds. *)
Definition on_cursor {A} (run : Store -> exn + (Store * A)) : M Store A :=
  fun w =>
    match run (db w) with
    | inr (db', a) => (Return a, with_db db' w)
    | inl e => (Raise e, w)
    end.

End Effects.

Declare Scope py_scope.
Delimit Scope py_scope with py.
Notation "x <- m ;; k" := (bind m (fun x => k))
  (at level 61, m at next level, right associativity) : py_scope.
Notation "m ;; k" := (bind m (fun _ => k))
  (at level 61, right associativity) : py_scope.
Open Scope py_scope.

(** ** utils.py *)
Module Utils.

Definition colors_get (tag : string) : string :=
  if String.eqb tag "success" then "green"
  else if String.eqb tag "error" then "red"
  else if String.eqb tag "info" then "cyan"
  else if String.eqb tag "prompt" then "yellow"
  else "cyan".

(** The markup handed to [console.print]. *)
Definition markup (message tag : string) : string :=
  let color := colors_get tag in
  fstr ["["; color; "]"; message; "[/"; color; "]"].

Definition rich_print {Store} (message tag : string) : M Store unit :=
  print (markup message tag).

End Utils.

(** rich reads [[tag]] in the text it prints as markup, and a closing tag
    that closes nothing makes [console.print] raise MarkupError, which the
    model of [rich_print] leaves out.  A text without a square bracket is
    printed as it stands; the theorems ask for that wherever a text typed
    by the user is printed.  (The other texts printed are those of the
    program and the messages of SQLite about its statements, which hold
    no square bracket.) *)
Definition rich_plain (s : string) : bool :=
  negb (existsb (Ascii.eqb "[") (list_ascii_of_string s)).

(** ** managers.py: DBManager

    The gateway is written over any cursor: [cursor_execute query params]
    is what [self.cursor.execute(query, params)] followed by reading the
    cursor does to the store. *)
Section DBManager.
Variables Store sql : Type.
Variable cursor_execute : sql -> list value -> Store -> exn + (Store * list row).

(** [self.connection.commit()]: with one connection, what the cursor has
    done is already what later statements see. *)
Definition commit : M Store unit := ret tt.

Definition execute (query : sql) (params : list value) : M Store unit :=
  try_except
    (_ <- on_cursor (cursor_execute query params) ;;
     commit)
    is_sqlite3_Error
    (fun e =>
       Utils.rich_print (fstr ["Error executing query: "; str_exn e]) "error" ;;
       raise e).

Definition fetchall (query : sql) (params : list value) : M Store (list row) :=
  try_except
    (on_cursor (cursor_execute query params))
    is_sqlite3_Error
    (fun e =>
       Utils.rich_print (fstr ["Error fetching data: "; str_exn e]) "error" ;;
       ret []).

End DBManager.
Arguments commit {Store}.
Arguments execute {Store sql}.
Arguments fetchall {Store sql}.


(** ** Python numbers and dates *)

(** [str(n)] for an [int]. *)
Definition str_int (n : Z) : string := NilZero.string_of_int (Z.to_int n).

(** [s.zfill(width)] for the digits of a number that is not negative. *)
Fixpoint zeros (n : nat) : string :=
  match n with
  | O => ""
  | S k => String "0" (zeros k)
  end.

Definition zfill (width : nat) (s : string) : string :=
  (zeros (width - String.length s) ++ s)%string.

(** A [datetime] is kept as the proleptic Gregorian ordinal of its day
    ([date.toordinal()]: 1 is 0001-01-01); [timedelta(days=n)] moves it by
    whole days, so the time of day plays no part. *)
Definition MINORDINAL : Z := 1.        (* 0001-01-01 *)
Definition MAXORDINAL : Z := 3652059.  (* 9999-12-31 *)

(** Year, month and day of an ordinal. *)
Definition ymd_of_ordinal (ordinal : Z) : Z * Z * Z :=
  let z := (ordinal + 305)%Z in        (* days since 0000-03-01 *)
  let era := (z / 146097)%Z in
  let doe := (z - era * 146097)%Z in
  let yoe := ((doe - doe / 1460 + doe / 36524 - doe / 146096) / 365)%Z in
  let doy := (doe - (365 * yoe + yoe / 4 - yoe / 100))%Z in
  let mp := ((5 * doy + 2) / 153)%Z in
  let d := (doy - (153 * mp + 2) / 5 + 1)%Z in
  let m := if (mp <? 10)%Z then (mp + 3)%Z else (mp - 9)%Z in
  let y := (yoe + era * 400 + (if (m <=? 2)%Z then 1 else 0))%Z in
  (y, m, d).

(** [date(y, m, d).toordinal()]. *)
Definition ordinal_of_ymd (y m d : Z) : Z :=
  let y' := if (m <=? 2)%Z then (y - 1)%Z else y in
  let era := (y' / 400)%Z in
  let yoe := (y' - era * 400)%Z in
  let mp := if (m <=? 2)%Z then (m + 9)%Z else (m - 3)%Z in
  let doy := ((153 * mp + 2) / 5 + d - 1)%Z in
  let doe := (yoe * 365 + yoe / 4 - yoe / 100 + doy)%Z in
  (era * 146097 + doe - 305)%Z.

(** [dt.strftime("%Y-%m-%d")], as the C library of Linux writes it: month
    and day with two digits, the year with the digits it has (928-11-02 for
    a day of the year 928; from the year 1000 on the text has ten
    characters on every platform). *)
Definition strftime_Ymd (ordinal : Z) : string :=
  let '(y, m, d) := ymd_of_ordinal ordinal in
  fstr [str_int y; "-"; zfill 2 (str_int m); "-"; zfill 2 (str_int d)].

(** [d.isoformat()], which is also [str(d)]: the year with four digits. *)
Definition isoformat (ordinal : Z) : string :=
  let '(y, m, d) := ymd_of_ordinal ordinal in
  fstr [zfill 4 (str_int y); "-"; zfill 2 (str_int m); "-"; zfill 2 (str_int d)].

(** [dt + timedelta(days=days)]: both the delta and the resulting date have
    a bounded range, and leaving it raises OverflowError. *)
Definition add_timedelta_days (dt days : Z) : exn + Z :=
  if ((days <? -999999999) || (999999999 <? days))%Z then
    inl (OverflowError
           (fstr ["days="; str_int days; "; must have magnitude <= 999999999"]))
  else if ((MINORDINAL <=? dt + days) && (dt + days <=? MAXORDINAL))%Z then
    inr (dt + days)%Z
  else
    inl (OverflowError "date value out of range").

(** ** SQLite: LIKE

    [text LIKE pattern] with SQLite's defaults: [%] stands for any run of
    characters, [_] for any one character, no escape character, and letters
    compare without regard to case for the ASCII letters only. *)

(** SQLite folds the upper-case ASCII letters only. *)
Definition tolower (c : ascii) : ascii :=
  let n := nat_of_ascii c in
  if ((65 <=? n) && (n <=? 90))%nat then ascii_of_nat (n + 32) else c.

Definition nocase_eqb (c d : ascii) : bool := Ascii.eqb (tolower c) (tolower d).

Fixpoint like (pattern : string) : string -> bool :=
  match pattern with
  | EmptyString =>
      fun s => match s with EmptyString => true | String _ _ => false end
  | String c p =>
      if Ascii.eqb c "%" then
        fix any (s : string) : bool :=
          like p s ||
          match s with EmptyString => false | String _ s' => any s' end
      else if Ascii.eqb c "_" then
        fun s => match s with EmptyString => false | String _ s' => like p s' end
      else
        fun s =>
          match s with
          | EmptyString => false
          | String d s' => nocase_eqb c d && like p s'
          end
  end.

(** The text SQLite compares for a value; NULL has none. *)
Definition text_of (v : value) : option string :=
  match v with
  | VNull => None
  | VInt n => Some (str_int n)
  | VText s => Some s
  | VBlob b => Some b
  end.

(** [v LIKE pattern] used as a condition: NULL on either side is not true. *)
Definition like_value (pattern v : value) : bool :=
  match text_of pattern, text_of v with
  | Some p, Some s => like p s
  | _, _ => false
  end.

(** ** The store *)

Inductive Status : Type := borrowed | returned.

Definition status_text (s : Status) : string :=
  match s with
  | borrowed => "borrowed"
  | returned => "returned"
  end.

Definition is_borrowed (s : Status) : bool :=
  match s with
  | borrowed => true
  | returned => false
  end.

(** A row of [transactions], as [setup_transactions_table] lays it out. *)
Module Transaction.
Record t : Type := {
  id : Z;
  user_name : string;
  item_type : string;
  item_id : Z;
  borrow_date : string;
  due_date : string;
  return_date : option string;
  status : Status
}.
End Transaction.

(** A row of an item table: its [id] and the values of the TEXT columns. *)
Record ItemRow : Type := {
  row_id : Z;
  cells : list value
}.

(** An item table: the names of its TEXT columns (after [id]) and its rows,
    in the order of their ids, in which a scan of the table reads them. *)
Record Table : Type := {
  columns : list string;
  rows : list ItemRow
}.

(** [users] holds (user_name, password) rows, [user_name] being the primary
    key; [tables] holds the item tables by name. *)
Record Store : Type := {
  users : list (string * string);
  transactions : list Transaction.t;
  tables : list (string * Table)
}.

Definition empty_store : Store :=
  {| users := []; transactions := []; tables := [] |}.

Fixpoint lookup {V : Type} (k : string) (d : list (string * V)) : option V :=
  match d with
  | [] => None
  | (k', v) :: rest => if String.eqb k k' then Some v else lookup k rest
  end.

(** Equality of values and of rows, as UNION compares them. *)
Definition value_eqb (a b : value) : bool :=
  match a, b with
  | VNull, VNull => true
  | VInt m, VInt n => Z.eqb m n
  | VText s, VText u => String.eqb s u
  | VBlob s, VBlob u => String.eqb s u
  | _, _ => false
  end.

Fixpoint row_eqb (r1 r2 : row) : bool :=
  match r1, r2 with
  | [], [] => true
  | a :: r1', b :: r2' => value_eqb a b && row_eqb r1' r2'
  | _, _ => false
  end.

(** The distinct rows of a list, each where it first appears. *)
Fixpoint distinct (rs : list row) : list row :=
  match rs with
  | [] => []
  | r :: rest => r :: filter (fun r' => negb (row_eqb r r')) (distinct rest)
  end.

(** The order in which SQLite hands out the rows of a UNION: it keeps them
    in an index over all their columns, so they come sorted column by
    column, NULL before integers before texts before blobs, integers by
    value and texts and blobs byte by byte (which for UTF-8 is character
    by character). *)
Fixpoint string_leb (s u : string) : bool :=
  match s, u with
  | EmptyString, _ => true
  | String _ _, EmptyString => false
  | String a s', String b u' =>
      if (nat_of_ascii a <? nat_of_ascii b)%nat then true
      else if (nat_of_ascii b <? nat_of_ascii a)%nat then false
      else string_leb s' u'
  end.

Definition storage_class (v : value) : nat :=
  match v with
  | VNull => 0
  | VInt _ => 1
  | VText _ => 2
  | VBlob _ => 3
  end.

Definition value_leb (a b : value) : bool :=
  match a, b with
  | VInt m, VInt n => (m <=? n)%Z
  | VText s, VText u => string_leb s u
  | VBlob s, VBlob u => string_leb s u
  | _, _ => (storage_class a <=? storage_class b)%nat
  end.

Fixpoint row_leb (r1 r2 : row) : bool :=
  match r1, r2 with
  | [], _ => true
  | _ :: _, [] => false
  | a :: r1', b :: r2' =>
      if value_eqb a b then row_leb r1' r2' else value_leb a b
  end.

Fixpoint union_insert (r : row) (sorted : list row) : list row :=
  match sorted with
  | [] => [r]
  | x :: rest => if row_leb r x then r :: x :: rest else x :: union_insert r rest
  end.

Definition union_sort (rs : list row) : list row := fold_right union_insert [] rs.

(** The rows of a UNION: each distinct row once, in SQLite's order. *)
Definition sql_union (rs : list row) : list row := union_sort (distinct rs).

(** The rows of a compound statement.  A statement of one SELECT has no
    UNION in it: its rows come as the table has them. *)
Definition compound_result {A : Type} (sub_queries : list A) (rs : list row)
    : list row :=
  match sub_queries with
  | [_] => rs
  | _ => sql_union rs
  end.

(** The id an AUTOINCREMENT key gives the next row: one more than the
    largest id so far (no row is ever deleted). *)
Definition next_rowid (ids : list Z) : Z := (fold_right Z.max 0 ids + 1)%Z.

Definition transaction_row (t : Transaction.t) : row :=
  [VInt (Transaction.id t); VText (Transaction.user_name t);
   VText (Transaction.item_type t); VInt (Transaction.item_id t);
   VText (Transaction.borrow_date t); VText (Transaction.due_date t);
   match Transaction.return_date t with Some d => VText d | None => VNull end;
   VText (status_text (Transaction.status t))].

(** [item_id = ? AND item_type = ? AND status = 'borrowed'] *)
Definition active_borrow (item_id : Z) (item_type : string) (t : Transaction.t) : bool :=
  Z.eqb (Transaction.item_id t) item_id
  && String.eqb (Transaction.item_type t) item_type
  && is_borrowed (Transaction.status t).

(** [id = ? AND user_name = ? AND status = 'borrowed'] *)
Definition own_borrow (id : Z) (user_name : string) (t : Transaction.t) : bool :=
  Z.eqb (Transaction.id t) id
  && String.eqb (Transaction.user_name t) user_name
  && is_borrowed (Transaction.status t).

(** [SET return_date = ?, status = 'returned'] on one row. *)
Definition close (return_date : string) (t : Transaction.t) : Transaction.t :=
  {| Transaction.id := Transaction.id t;
     Transaction.user_name := Transaction.user_name t;
     Transaction.item_type := Transaction.item_type t;
     Transaction.item_id := Transaction.item_id t;
     Transaction.borrow_date := Transaction.borrow_date t;
     Transaction.due_date := Transaction.due_date t;
     Transaction.return_date := Some return_date;
     Transaction.status := returned |}.

(** The row [INSERT INTO transactions ... VALUES (?, ?, ?, ?, ?, 'borrowed')]
    adds: a fresh id, no return date. *)
Definition new_borrow (ledger : list Transaction.t)
    (user_name item_type : string) (item_id : Z) (borrow_date due_date : string)
    : Transaction.t :=
  {| Transaction.id := next_rowid (map Transaction.id ledger);
     Transaction.user_name := user_name;
     Transaction.item_type := item_type;
     Transaction.item_id := item_id;
     Transaction.borrow_date := borrow_date;
     Transaction.due_date := due_date;
     Transaction.return_date := None;
     Transaction.status := borrowed |}.

Definition has_column (tbl : Table) (f : string) : bool :=
  String.eqb f "id" || mem f (columns tbl).

Definition column_value (tbl : Table) (r : ItemRow) (f : string) : value :=
  if String.eqb f "id" then VInt (row_id r)
  else nth (index f (columns tbl)) (cells r) VNull.

(** [f1 LIKE ? OR f2 LIKE ? OR ...] on one row, the k-th [?] bound to the
    k-th pattern. *)
Definition like_any (tbl : Table) (fs : list string) (patterns : list value)
    (r : ItemRow) : bool :=
  existsb (fun fp => like_value (snd fp) (column_value tbl r (fst fp)))
          (combine fs patterns).

(** ** The statements the program issues

    A statement is kept in parsed form; [sql_text] is the text handed to
    [cursor.execute], and [sqlite] is what running it does.  Table and
    column names are taken to be plain identifiers, as those of the
    registry are. *)

(** One result column of a cross-category SELECT: [f AS f] or [NULL AS f]. *)
Inductive Projection : Type :=
| PCol (field : string)
| PNull (field : string).

(** [SELECT 'table' as Category, id, <columns> FROM table WHERE <f LIKE ? OR ...>] *)
Record SubQuery : Type := {
  sq_table : string;
  sq_columns : list Projection;
  sq_like : list string
}.

Inductive sql : Type :=
| CreateTable (table_name : string) (declared : list string) (add_user_name : bool)
| InsertUser
| SelectPassword
| SelectActiveBorrow
| InsertTransaction
| SelectOwnBorrow
| UpdateReturn
| SearchOne (table_name : string) (like_fields : list string)
| SearchUnion (sub_queries : list SubQuery).

Definition like_clauses (fs : list string) : string :=
  join " OR " (map (fun field => fstr [field; " LIKE ?"]) fs).

Definition projection_text (p : Projection) : string :=
  match p with
  | PCol field => fstr [field; " AS "; field]
  | PNull field => fstr ["NULL AS "; field]
  end.

Definition sub_query_text (sq : SubQuery) : string :=
  fstr ["SELECT '"; sq_table sq; "' as Category, id, ";
        join ", " (map projection_text (sq_columns sq));
        " FROM "; sq_table sq; " WHERE "; like_clauses (sq_like sq)].

Definition sql_text (q : sql) : string :=
  match q with
  | CreateTable table_name declared add_user_name =>
      let columns_str :=
        ("id INTEGER PRIMARY KEY AUTOINCREMENT, "
         ++ join ", " (map (fun col => fstr [col; " TEXT"]) declared)
         ++ (if add_user_name then ", user_name TEXT" else ""))%string in
      fstr ["CREATE TABLE IF NOT EXISTS "; table_name; " ("; columns_str; ")"]
  | InsertUser => "INSERT INTO users (user_name, password) VALUES (?, ?)"
  | SelectPassword => "SELECT password FROM users WHERE user_name = ?"
  | SelectActiveBorrow =>
      "SELECT * FROM transactions WHERE item_id = ? AND item_type = ? AND status = 'borrowed'"
  | InsertTransaction =>
      fstr ["INSERT INTO transactions (user_name, item_type, item_id, borrow_date, due_date, status) ";
            nl; "                       VALUES (?, ?, ?, ?, ?, 'borrowed')"]
  | SelectOwnBorrow =>
      "SELECT * FROM transactions WHERE id = ? AND user_name = ? AND status = 'borrowed'"
  | UpdateReturn =>
      "UPDATE transactions SET return_date = ?, status = 'returned' WHERE id = ?"
  | SearchOne table_name like_fields =>
      fstr ["SELECT '"; table_name; "' as Category, * FROM "; table_name;
            " WHERE "; like_clauses like_fields]
  | SearchUnion sub_queries =>
      join (nl ++ " UNION " ++ nl)%string (map sub_query_text sub_queries)
  end.

(** The driver's complaint about a tuple of bindings that does not fit the
    statement.  Only the tuples the program binds are given a meaning. *)
Definition bad_bindings {A : Type} : exn + A :=
  inl (ProgrammingError "Incorrect number of bindings supplied.").

(** The driver binds an [int] as a 64-bit integer and raises OverflowError,
    which is no [sqlite3.Error], for one that does not fit.  It does so
    after the statement was compiled and the number of bindings checked. *)
Definition fits_int64 (n : Z) : bool :=
  ((- 9223372036854775808 <=? n) && (n <=? 9223372036854775807))%Z.

Definition bindable (v : value) : bool :=
  match v with
  | VInt n => fits_int64 n
  | _ => true
  end.

Definition int_too_large : exn :=
  OverflowError "Python int too large to convert to SQLite INTEGER".

Definition too_large {A : Type} : exn + A := inl int_too_large.

Definition no_such_table {A : Type} (table_name : string) : exn + A :=
  inl (OperationalError (fstr ["no such table: "; table_name])).

Definition no_such_column {A : Type} : exn + A :=
  inl (OperationalError "no such column").

Definition syntax_error {A : Type} : exn + A :=
  inl (OperationalError "syntax error").

Fixpoint has_duplicate (l : list string) : bool :=
  match l with
  | [] => false
  | x :: t => mem x t || has_duplicate t
  end.

(** A SELECT of the cross-category search compiles when its WHERE clause is
    not empty and every column it names is a column of its table. *)
Definition projection_ok (tbl : Table) (p : Projection) : bool :=
  match p with
  | PCol field => has_column tbl field
  | PNull _ => true
  end.

Definition sub_query_row (sq : SubQuery) (tbl : Table) (r : ItemRow) : row :=
  VText (sq_table sq) :: VInt (row_id r)
    :: map (fun p => match p with
                     | PCol field => column_value tbl r field
                     | PNull _ => VNull
                     end) (sq_columns sq).

(** The rows of the SELECTs of a compound statement, in order; the [?] of
    the whole statement are numbered from left to right, so each SELECT
    takes as many bindings as it has LIKE clauses. *)
Fixpoint compound_rows (tables : list (string * Table)) (sub_queries : list SubQuery)
    (params : list value) : exn + list row :=
  match sub_queries with
  | [] => inr []
  | sq :: rest =>
      match sq_like sq with
      | [] => syntax_error
      | _ :: _ =>
          match lookup (sq_table sq) tables with
          | None => no_such_table (sq_table sq)
          | Some tbl =>
              if forallb (has_column tbl) (sq_like sq)
                 && forallb (projection_ok tbl) (sq_columns sq) then
                let n := length (sq_like sq) in
                match compound_rows tables rest (skipn n params) with
                | inl e => inl e
                | inr more =>
                    inr (map (sub_query_row sq tbl)
                             (filter (like_any tbl (sq_like sq) (firstn n params))
                                     (rows tbl))
                         ++ more)
                end
              else no_such_column
          end
      end
  end.

(** Every SELECT of a UNION must have as many result columns as the first. *)
Definition same_width (sub_queries : list SubQuery) : bool :=
  match sub_queries with
  | [] => true
  | sq :: rest =>
      forallb (fun sq' => (length (sq_columns sq') =? length (sq_columns sq))%nat) rest
  end.

Definition set_users (s : Store) (us : list (string * string)) : Store :=
  {| users := us; transactions := transactions s; tables := tables s |}.

Definition set_transactions (s : Store) (ts : list Transaction.t) : Store :=
  {| users := users s; transactions := ts; tables := tables s |}.

Definition set_tables (s : Store) (tbls : list (string * Table)) : Store :=
  {| users := users s; transactions := transactions s; tables := tbls |}.

(** What [cursor.execute(query, params)] does, and the rows the cursor then
    holds.  The statement is prepared first, then the bindings are counted,
    then bound, and the driver raises OverflowError for an integer beyond
    64 bits.  The names of tables and columns are those the program writes
    into its statements: identifiers in lower case that are no keywords of
    SQL; how SQLite reads other names is outside the model. *)
Definition sqlite (q : sql) (params : list value) (s : Store)
    : exn + (Store * list row) :=
  match q with
  | CreateTable table_name declared add_user_name =>
      match params with
      | [] =>
          match declared with
          | [] => syntax_error
          | _ :: _ =>
              match lookup table_name (tables s) with
              | Some _ => inr (s, [])
              | None =>
                  let cols := declared ++ (if add_user_name then ["user_name"] else []) in
                  if has_duplicate ("id" :: cols) then
                    inl (OperationalError "duplicate column name")
                  else
                    inr (set_tables s
                           (tables s ++ [(table_name, {| columns := cols; rows := [] |})]),
                         [])
              end
          end
      | _ :: _ => bad_bindings
      end
  | InsertUser =>
      match params with
      | [VText user_name; VBlob password] =>
          if existsb (fun u => String.eqb (fst u) user_name) (users s) then
            inl (IntegrityError "UNIQUE constraint failed: users.user_name")
          else
            inr (set_users s (users s ++ [(user_name, password)]), [])
      | _ => bad_bindings
      end
  | SelectPassword =>
      match params with
      | [VText user_name] =>
          inr (s, map (fun u => [VBlob (snd u)])
                      (filter (fun u => String.eqb (fst u) user_name) (users s)))
      | _ => bad_bindings
      end
  | SelectActiveBorrow =>
      match params with
      | [VInt item_id; VText item_type] =>
          if fits_int64 item_id then
            inr (s, map transaction_row
                        (filter (active_borrow item_id item_type) (transactions s)))
          else too_large
      | _ => bad_bindings
      end
  | InsertTransaction =>
      match params with
      | [VText user_name; VText item_type; VInt item_id;
         VText borrow_date; VText due_date] =>
          if fits_int64 item_id then
            let t :=
              new_borrow (transactions s) user_name item_type item_id
                         borrow_date due_date in
            inr (set_transactions s (transactions s ++ [t]), [])
          else too_large
      | _ => bad_bindings
      end
  | SelectOwnBorrow =>
      match params with
      | [VInt id; VText user_name] =>
          if fits_int64 id then
            inr (s, map transaction_row
                        (filter (own_borrow id user_name) (transactions s)))
          else too_large
      | _ => bad_bindings
      end
  | UpdateReturn =>
      match params with
      | [VText return_date; VInt id] =>
          if fits_int64 id then
            inr (set_transactions s
                   (map (fun t =>
                           if Z.eqb (Transaction.id t) id then close return_date t else t)
                        (transactions s)),
                 [])
          else too_large
      | _ => bad_bindings
      end
  | SearchOne table_name like_fields =>
      match like_fields with
      | [] => syntax_error
      | _ :: _ =>
          match lookup table_name (tables s) with
          | None => no_such_table table_name
          | Some tbl =>
              if forallb (has_column tbl) like_fields then
                if (length params =? length like_fields)%nat then
                  if forallb bindable params then
                    inr (s, map (fun r => VText table_name :: VInt (row_id r) :: cells r)
                                (filter (like_any tbl like_fields params) (rows tbl)))
                  else too_large
                else bad_bindings
              else no_such_column
          end
      end
  | SearchUnion sub_queries =>
      match compound_rows (tables s) sub_queries params with
      | inl e => inl e
      | inr rs =>
          if same_width sub_queries then
            if (length params =? length (flat_map sq_like sub_queries))%nat then
              if forallb bindable params then inr (s, compound_result sub_queries rs)
              else too_large
            else bad_bindings
          else
            inl (OperationalError
                   "SELECTs to the left and right of UNION do not have the same number of result columns")
      end
  end.

(** ** managers.py: the gateway on SQLite *)

(** [DBManager.create_table]. *)
Definition create_table (table_name : string) (columns : list string) : M Store unit :=
  try_except
    (let has_user_column := mem "user_name" columns in
     let query :=
       CreateTable table_name
         (filter (fun col => negb (String.eqb col "id")) columns)
         (negb has_user_column) in
     _ <- on_cursor (sqlite query []) ;;
     commit)
    is_sqlite3_Error
    (fun e =>
       Utils.rich_print
         (fstr ["Error creating table "; table_name; ": "; str_exn e]) "error").

(** [Inventory.create_inventory_layout_sqlite]. *)
Definition create_inventory_layout_sqlite (item_type : Inventory) : M Store unit :=
  create_table (cls_item_type item_type) (fields item_type).

(** [for x in xs: body(x)]. *)
Fixpoint for_each {A : Type} (xs : list A) (body : A -> M Store unit) : M Store unit :=
  match xs with
  | [] => ret tt
  | x :: rest => body x ;; for_each rest body
  end.

(** main.py: "initialize all tables". *)
Definition initialize_all_tables (item_types : list (string * Inventory)) : M Store unit :=
  for_each (values item_types) create_inventory_layout_sqlite.

(** ** managers.py: UserManager

    bcrypt is a library of its own: [hashpw password salt] is the hash it
    computes and [checkpw password hashed] its comparison.  The salt that
    [bcrypt.gensalt()] draws is an argument of [register]. *)
Section UserManager.
Variable hashpw : string -> string -> string.
Variable checkpw : string -> string -> bool.

(** [password.encode("utf-8")]: the characters of the text as bytes. *)
Definition encode_utf8 (password : string) : string := password.

(** [UserManager.hash_password], [hashing] being the salt drawn. *)
Definition hash_password (password hashing : string) : string :=
  let hashed_password := hashpw (encode_utf8 password) hashing in
  hashed_password.

(** [UserManager.register]. *)
Definition register (user_name password salt : string) : M Store unit :=
  try_except
    (let hashed_password := hash_password password salt in
     execute sqlite InsertUser [VText user_name; VBlob hashed_password] ;;
     Utils.rich_print
       (fstr ["User '"; user_name; "' registered successfully!"]) "success")
    is_Exception
    (fun e =>
       Utils.rich_print (fstr ["User '"; user_name; "' already exist."]) "error" ;;
       raise e).

(** The end of [login], reached when no row is found or the check fails. *)
Definition login_failed : M Store bool :=
  Utils.rich_print "Invalid user_name or password." "error" ;;
  ret false.

(** [UserManager.login]. *)
Definition login (user_name password : string) : M Store bool :=
  user <- fetchall sqlite SelectPassword [VText user_name] ;;
  match user with
  | [] => login_failed
  | [] :: _ => raise (IndexError "tuple index out of range")
  | (VBlob stored_hash :: _) :: _ =>
      if checkpw (encode_utf8 password) stored_hash then
        Utils.rich_print (fstr ["Welcome back, "; user_name; "!"]) "success" ;;
        ret true
      else login_failed
  | (_ :: _) :: _ => raise (TypeError "argument 'hashed_password': expected bytes")
  end.

End UserManager.

(** The passwords bcrypt treats alike in all its versions: at most 72
    bytes long (it reads no more than 72, and from version 5.0.0 on raises
    ValueError for a longer one) and without a NUL byte (which versions
    before 4.0.0 refuse).  The UTF-8 encoding of a character of this model
    takes one byte below 128 and two from there on. *)
Definition utf8_length (s : string) : nat :=
  fold_right (fun c n => ((if (nat_of_ascii c <? 128)%nat then 1 else 2) + n)%nat) 0%nat
             (list_ascii_of_string s).

Definition bcrypt_password (password : string) : bool :=
  (utf8_length password <=? 72)%nat
  && negb (existsb (Ascii.eqb zero) (list_ascii_of_string password)).

(** ** transaction_manager.py: TransactionManager *)
Section TransactionManager.
Variable user_name : string.
Variable item_types : list (string * Inventory).

(** A value computed outside the cursor that may raise. *)
Definition checked {A : Type} (r : exn + A) : M Store A :=
  fun w => match r with inr a => (Return a, w) | inl e => (Raise e, w) end.

(** [TransactionManager.borrow_item]; the method returns None on every path. *)
Definition borrow_item (item_type : string) (item_id : Z) (borrow_duration_days : Z)
    : M Store unit :=
  active_borrows <- fetchall sqlite SelectActiveBorrow [VInt item_id; VText item_type] ;;
  match active_borrows with
  | _ :: _ =>
      Utils.rich_print "The item is currently borrowed by another user." "error"
  | [] =>
      try_except
        (t1 <- now ;;
         let borrow_date := strftime_Ymd t1 in
         t2 <- now ;;
         due <- checked (add_timedelta_days t2 borrow_duration_days) ;;
         let due_date := strftime_Ymd due in
         execute sqlite InsertTransaction
           [VText user_name; VText item_type; VInt item_id;
            VText borrow_date; VText due_date] ;;
         Utils.rich_print
           (fstr ["Item borrowed successfully. Due date: "; due_date]) "success")
        is_Exception
        (fun e =>
           Utils.rich_print (fstr ["Error borrowing item: "; str_exn e]) "error")
  end.

(** The default of [borrow_duration_days]. *)
Definition default_borrow_duration_days : Z := 7.

(** [TransactionManager.return_item]; the method returns None on every path. *)
Definition return_item (transaction_id : Z) : M Store unit :=
  transaction <- fetchall sqlite SelectOwnBorrow [VInt transaction_id; VText user_name] ;;
  match transaction with
  | [] =>
      Utils.rich_print "No active borrow found with this transaction ID." "error"
  | _ :: _ =>
      try_except
        (t <- now ;;
         let return_date := strftime_Ymd t in
         execute sqlite UpdateReturn [VText return_date; VInt transaction_id] ;;
         Utils.rich_print "Item returned successfully." "success")
        is_Exception
        (fun e =>
           Utils.rich_print (fstr ["Error returning item: "; str_exn e]) "error")
  end.

(** [f"%{search_word}%"], bound as a [str]. *)
Definition like_param (search_word : string) : value :=
  VText (fstr ["%"; search_word; "%"]).

(** [TransactionManager.search_with_auto_complete]: the column names and the
    rows, or None when the search raised. *)
Definition search_with_auto_complete (item_type : Inventory) (search_word : string)
    : M Store (option (list string * list row)) :=
  let fields := fields item_type in
  let cls_item_type := cls_item_type item_type in
  let query := SearchOne cls_item_type fields in
  let like_params := map (fun _ => like_param search_word) fields in
  try_except
    (results <- fetchall sqlite query like_params ;;
     ret (Some (["Category"; "id"] ++ fields, results)))
    is_Exception
    (fun e =>
       Utils.rich_print
         (fstr ["[red bold]Error during search[/red bold] "; str_exn e]) "error" ;;
       ret None).

(** The SELECT that [search_for_every_item_type] writes for one item class. *)
Definition sub_query_of (common_columns : list string) (item_obj : Inventory) : SubQuery :=
  let fields := fields item_obj in
  let table_name := cls_item_type item_obj in
  let selected_columns :=
    map (fun field => if mem field fields then PCol field else PNull field)
        common_columns in
  {| sq_table := table_name; sq_columns := selected_columns; sq_like := fields |}.

(** [TransactionManager.search_for_every_item_type]. *)
Definition search_for_every_item_type (search_word : string)
    : M Store (option (list string * list row)) :=
  let common_columns := search_for_every_item_type_columns item_types in
  let sub_queries := map (sub_query_of common_columns) (values item_types) in
  let like_params :=
    flat_map (fun item_obj => map (fun _ => like_param search_word) (fields item_obj))
             (values item_types) in
  let query := SearchUnion sub_queries in
  try_except
    (results <- fetchall sqlite query like_params ;;
     Utils.rich_print "Search results retrieved successfully!" "success" ;;
     ret (Some (["Category"; "id"] ++ common_columns, results)))
    is_Exception
    (fun e =>
       Utils.rich_print (fstr ["Error during search: "; str_exn e]) "error" ;;
       ret None).

End TransactionManager.

(** ** The listings whose query is assembled as text

    [get_borrowed_given_item], [get_items_added_by_user] and
    [get_transaction_history] write their statement with f-strings and hand
    it to [fetchall]; what follows is the text they write and the bindings
    they pass with it. *)
Section QueryText.
Variable user_name : string.
Variable item_types : list (string * Inventory).

Fixpoint spaces (n : nat) : string :=
  match n with
  | O => ""
  | S k => String " " (spaces k)
  end.

(** [get_borrowed_given_item]: the text and the bindings. *)
Definition get_borrowed_given_item_query (item_type : Inventory) : string :=
  let fields := fields item_type in
  let cls_item_type := cls_item_type item_type in
  let like_clauses := like_clauses fields in
  fstr [nl;
        spaces 8; "SELECT t.id as TransactionId, i.*"; nl;
        spaces 8; "FROM transactions t"; nl;
        spaces 8; "JOIN "; cls_item_type; " i ON t.item_id = i.id"; nl;
        spaces 8; "WHERE t.user_name = ? AND t.item_type='"; cls_item_type;
        "' AND t.status = 'borrowed' AND "; like_clauses; nl;
        spaces 8].

Definition get_borrowed_given_item_params (item_type : Inventory) (search_word : string)
    : list value :=
  [VText user_name] ++ map (fun _ => like_param search_word) (fields item_type).

(** [get_items_added_by_user]: the text; it is passed without bindings. *)
Definition get_items_added_by_user_query : string :=
  let common_columns := get_items_added_by_user_columns item_types in
  let sub_queries :=
    map (fun item_obj =>
           let table_name := cls_item_type item_obj in
           let select_columns :=
             map (fun col => if mem col (fields item_obj) then col
                             else fstr ["NULL AS "; col])
                 common_columns in
           fstr [nl;
                 spaces 16; "SELECT '"; table_name; "' as category, ";
                 join ", " select_columns; ", user_name"; nl;
                 spaces 16; "FROM "; table_name; nl;
                 spaces 16; "WHERE user_name = '"; user_name; "'"; nl;
                 spaces 12])
        (values item_types) in
  let query := join (nl ++ " UNION ALL " ++ nl)%string sub_queries in
  let final_query :=
    fstr ["SELECT Category, "; join ", " common_columns; ", user_name FROM (";
          query; ")"] in
  final_query.

Definition get_items_added_by_user_params : list value := [].

(** [get_transaction_history]: the text; it is passed without bindings. *)
Definition get_transaction_history_query (is_active : bool) : string :=
  let common_columns := get_transaction_history_columns item_types in
  let sub_queries :=
    map (fun item_obj =>
           let table_name := cls_item_type item_obj in
           let select_columns :=
             map (fun col => if mem col (fields item_obj) then col
                             else fstr ["NULL AS "; col])
                 common_columns
             ++ extra_columns in
           let borrow_filter :=
             if is_active then "AND t.status = 'borrowed'" else "" in
           fstr [nl;
                 spaces 16; "SELECT '"; table_name;
                 "' as Category, t.id as TransactionId, ";
                 join ", " select_columns; ", t.user_name as user_name"; nl;
                 spaces 16; "FROM transactions t"; nl;
                 spaces 16; "JOIN "; table_name; " b ON t.item_id = b.id"; nl;
                 spaces 16; "WHERE t.item_type = '"; table_name;
                 "' AND t.user_name = '"; user_name; "' "; borrow_filter; nl;
                 spaces 16])
        (values item_types) in
  let query := join (nl ++ " UNION ALL " ++ nl)%string sub_queries in
  if is_active then
    fstr [nl;
          spaces 12; "SELECT * FROM ("; query; ") "; nl;
          spaces 12; "ORDER BY ABS(julianday(due_date) - julianday(borrow_date)) ASC"; nl;
          spaces 12]
  else query.

Definition get_transaction_history_params : list value := [].

End QueryText.

(** ** Notions used to state the properties *)

(** Each name of a list once, at the place of its first occurrence. *)
Fixpoint first_occurrences (l : list string) : list string :=
  match l with
  | [] => []
  | x :: t => x :: filter (fun y => negb (String.eqb x y)) (first_occurrences t)
  end.

(** All field names of the registered item classes, class after class. *)
Definition all_fields (item_types : list (string * Inventory)) : list string :=
  concat (map fields (values item_types)).

(** The rows of the ledger that record an open borrow of an item. *)
Definition count_borrowed (item_type : string) (item_id : Z)
    (ledger : list Transaction.t) : nat :=
  length (filter (active_borrow item_id item_type) ledger).

(** The ledger keeps at most one open borrow per item. *)
Definition one_borrow_per_item (ledger : list Transaction.t) : Prop :=
  forall item_type item_id, (count_borrowed item_type item_id ledger <= 1)%nat.

(** One step of a session on the ledger: some user borrows an item for a
    number of days, or some user hands a transaction back. *)
Inductive LedgerOp : Type :=
| Borrow (user_name item_type : string) (item_id borrow_duration_days : Z)
| GiveBack (user_name : string) (transaction_id : Z).

Definition run_op (op : LedgerOp) : M Store unit :=
  match op with
  | Borrow user_name item_type item_id borrow_duration_days =>
      borrow_item user_name item_type item_id borrow_duration_days
  | GiveBack user_name transaction_id =>
      return_item user_name transaction_id
  end.

Definition run_ops (ops : list LedgerOp) : M Store unit := for_each ops run_op.

(** The id a step binds fits the driver's 64 bits. *)
Definition op_fits (op : LedgerOp) : bool :=
  match op with
  | Borrow _ _ item_id _ => fits_int64 item_id
  | GiveBack _ transaction_id => fits_int64 transaction_id
  end.

(** The world after the steps of a session, one after the other.  A step
    that raises ends the program and leaves the store to the next start:
    the steps after it are run all the same. *)
Fixpoint after_ops (ops : list LedgerOp) (w : World Store) : World Store :=
  match ops with
  | [] => w
  | op :: rest => after_ops rest (snd (run_op op w))
  end.

(** The messages of the ledger, as they reach the console. *)
Definition already_borrowed_message : string :=
  Utils.markup "The item is currently borrowed by another user." "error".

Definition no_active_borrow_message : string :=
  Utils.markup "No active borrow found with this transaction ID." "error".

Definition borrowed_message (due_date : string) : string :=
  Utils.markup (fstr ["Item borrowed successfully. Due date: "; due_date]) "success".

Definition returned_message : string :=
  Utils.markup "Item returned successfully." "success".

(** The line [login] prints when it fails, whatever the reason. *)
Definition invalid_login_message : string :=
  Utils.markup "Invalid user_name or password." "error".

(** [sub in s] for two texts. *)
Fixpoint contains (s sub : string) : bool :=
  String.prefix sub s
  || match s with
     | EmptyString => false
     | String _ rest => contains rest sub
     end.

(** "Contains the term as a substring, letter case apart", read on its own:
    some stretch of [s] equals [term] character by character up to the case
    of ASCII letters. *)
Fixpoint prefix_nocase (term s : string) : bool :=
  match term, s with
  | EmptyString, _ => true
  | String _ _, EmptyString => false
  | String c term', String d s' => nocase_eqb c d && prefix_nocase term' s'
  end.

Fixpoint contains_nocase (s term : string) : bool :=
  prefix_nocase term s
  || match s with
     | EmptyString => false
     | String _ rest => contains_nocase rest term
     end.

(** A term in which LIKE finds no wildcard. *)
Fixpoint no_wildcard (term : string) : bool :=
  match term with
  | EmptyString => true
  | String c rest =>
      negb (Ascii.eqb c "%") && negb (Ascii.eqb c "_") && no_wildcard rest
  end.

(** The TEXT columns [create_table] gives the table of an item class. *)
Definition layout (item_type : Inventory) : list string :=
  filter (fun col => negb (String.eqb col "id")) (fields item_type)
  ++ (if negb (mem "user_name" (fields item_type)) then ["user_name"] else []).

(** The item tables hold what the registry needs: every class has a field,
    and its table is there, laid out as [create_table] lays it out. *)
Definition tables_ready (item_types : list (string * Inventory)) (s : Store) : Prop :=
  forall c, In c (values item_types) ->
    fields c <> []
    /\ exists tbl, lookup (cls_item_type c) (tables s) = Some tbl
                   /\ columns tbl = layout c.

(** The id is the key of every item table: no two rows of a table have
    the same. *)
Definition keyed (s : Store) : Prop :=
  forall name tbl, lookup name (tables s) = Some tbl ->
    NoDup (map row_id (rows tbl)).

(** A row of a class, set in the unified columns: the tag, the id, and
    under each unified column the value of the class's field of that name,
    or NULL when the class has no such field. *)
Definition unified_row (common_columns : list string) (c : Inventory)
    (tbl : Table) (r : ItemRow) : row :=
  VText (cls_item_type c) :: VInt (row_id r)
    :: map (fun col => if mem col (fields c) then column_value tbl r col else VNull)
           common_columns.

(** The rows of one class that a pattern selects, set in the unified
    columns. *)
Definition category_rows (common_columns : list string) (pattern : value)
    (s : Store) (c : Inventory) : list row :=
  match lookup (cls_item_type c) (tables s) with
  | None => []
  | Some tbl =>
      map (unified_row common_columns c tbl)
          (filter (fun r => existsb (fun f => like_value pattern (column_value tbl r f))
                                    (fields c))
                  (rows tbl))
  end.

(** ** Sample data *)

(** 2024-01-01, as [datetime.now()] reads it all day. *)
Definition new_year_2024 : nat -> Z := fun _ => ordinal_of_ymd 2024 1 1.

(** A world with the given store, a silent console and the clock at
    2024-01-01. *)
Definition world_of (s : Store) : World Store :=
  {| db := s; console := []; clock := new_year_2024; ticks := 0 |}.


(** A session on the ledger: alice borrows book 5, bob is refused, bob
    cannot return alice's transaction, alice returns it, bob borrows. *)
Definition sample_session : list LedgerOp :=
  [Borrow "alice" "book" 5 7; Borrow "bob" "book" 5 7;
   GiveBack "bob" 1; GiveBack "alice" 1; Borrow "bob" "book" 5 7].

(** The ledger after alice borrowed book 5 on 2024-01-01 for seven days. *)
Definition store_after_alice_borrowed : Store :=
  db (snd (borrow_item "alice" "book" 5 7 (world_of empty_store))).

(** A stand-in for bcrypt that keeps the password as it is. *)
Definition plain_hashpw (password salt : string) : string := password.

Definition plain_checkpw (password hashed : string) : bool :=
  String.eqb password hashed.

(** A stand-in for bcrypt before 5.0.0, which reads the first 72 bytes of a
    password (here of an ASCII text) and lets the rest go. *)
Definition reading72_hashpw (password salt : string) : string :=
  String.substring 0 72 password.

Definition reading72_checkpw (password hashed : string) : bool :=
  String.eqb (String.substring 0 72 password) hashed.

(** Two passwords of 73 characters that differ in the last one. *)
Definition long_password (last : string) : string :=
  ("aaaaaaaaaaaaaaaaaaaaaaaaaaaaaaaaaaaaaaaaaaaaaaaaaaaaaaaaaaaaaaaaaaaaaaaa" ++ last)%string.

(** A user name that closes the quote it is put in. *)
Definition quoting_name : string := "x' OR '1'='1".

(** A small library: the tables of the registry as [create_table] lays them
    out, with two books and one magazine in them. *)
Definition library_tables : list (string * Table) :=
  [("book",
    {| columns := layout Book;
       rows :=
         [ {| row_id := 1;
              cells := [VText "The Hobbit"; VText "J. R. R. Tolkien";
                        VText "fantasy"; VText "1937-09-21"; VText "alice"] |};
           {| row_id := 2;
              cells := [VText "Dune"; VText "Frank Herbert";
                        VText "science fiction"; VNull; VText "bob"] |} ] |});
   ("magazine",
    {| columns := layout Magazine;
       rows :=
         [ {| row_id := 1;
              cells := [VText "Amon Hen"; VText "TOLKIEN Society";
                        VText "fandom"; VNull; VText "alice"] |} ] |});
   ("journal", {| columns := layout Journal; rows := [] |});
   ("manga", {| columns := layout Manga; rows := [] |});
   ("western_comic", {| columns := layout WesternComic; rows := [] |});
   ("research_paper", {| columns := layout ResearchPaper; rows := [] |})].

Definition library : Store := set_tables empty_store library_tables.

(** The registry of the books and the magazines only. *)
Definition books_and_magazines : list (string * Inventory) :=
  [("1", Book); ("2", Magazine)].

(** ** Proof automation *)

(** Unfold a method down to the statements it runs on the cursor. *)
Ltac run_method m :=
  unfold m, execute, fetchall, try_except, bind, on_cursor, checked,
         Utils.rich_print, print, commit, ret, raise.

(** * Further code *)

(** ** The ledger over time *)

(** What a transaction is about: everything but its return date and its
    status, which [return_item] sets. *)
Definition same_borrow (t t' : Transaction.t) : Prop :=
  Transaction.id t' = Transaction.id t
  /\ Transaction.user_name t' = Transaction.user_name t
  /\ Transaction.item_type t' = Transaction.item_type t
  /\ Transaction.item_id t' = Transaction.item_id t
  /\ Transaction.borrow_date t' = Transaction.borrow_date t
  /\ Transaction.due_date t' = Transaction.due_date t.

(** The ids 1, 2, ..., n. *)
Definition ids_from_one (n : nat) : list Z := map Z.of_nat (seq 1 n).

(** The row alice's borrow of book 5 on 2024-01-01 left in the ledger. *)
Definition alice_borrow : Transaction.t :=
  {| Transaction.id := 1; Transaction.user_name := "alice";
     Transaction.item_type := "book"; Transaction.item_id := 5;
     Transaction.borrow_date := "2024-01-01"; Transaction.due_date := "2024-01-08";
     Transaction.return_date := None; Transaction.status := borrowed |}.

(** Alice hands her book back and bob borrows it. *)
Definition hand_over : list LedgerOp :=
  [GiveBack "alice" 1; Borrow "bob" "book" 5 7].

(** ** main.py: the two ways into a session *)
Section Session.
Variable hashpw : string -> string -> string.
Variable checkpw : string -> string -> bool.

(** main.py, lines 48-53: the Register action; False when [main] returns
    instead of going on to the menu. *)
Definition main_register (user_name password salt : string) : M Store bool :=
  try_except
    (register hashpw user_name password salt ;;
     ret true)
    is_Exception
    (fun _ =>
       Utils.rich_print "Error during registration. Exiting..." "error" ;;
       ret false).

(** main.py, lines 55-58: the Login action. *)
Definition main_login (user_name password : string) : M Store bool :=
  ok <- login checkpw user_name password ;;
  if negb ok then
    Utils.rich_print "Login failed. Exiting..." "error" ;;
    ret false
  else ret true.

(** One start of the program: someone registers or logs in. *)
Inductive AccountOp : Type :=
| Register (user_name password salt : string)
| Login (user_name password : string).

Definition run_account_op (op : AccountOp) : M Store bool :=
  match op with
  | Register user_name password salt => main_register user_name password salt
  | Login user_name password => main_login user_name password
  end.

Fixpoint run_account_ops (ops : list AccountOp) : M Store unit :=
  match ops with
  | [] => ret tt
  | op :: rest => _ <- run_account_op op ;; run_account_ops rest
  end.

End Session.



(** Two registrations under one name and a login in between. *)
Definition sample_accounts : list AccountOp :=
  [Register "alice" "s3cret" "salt1"; Login "alice" "guess";
   Register "alice" "other" "salt2"; Register "bob" "pw" "salt3"].

(** ** Item classes a table can be made for *)

(** The words SQLite keeps for itself (sqlite3_keyword_name, with WITHIN of
    the later versions), in lower case. *)
Definition sql_keywords : list string :=
  ["abort"; "action"; "add"; "after"; "all"; "alter"; "always"; "analyze";
   "and"; "as"; "asc"; "attach"; "autoincrement"; "before"; "begin";
   "between"; "by"; "cascade"; "case"; "cast"; "check"; "collate"; "column";
   "commit"; "conflict"; "constraint"; "create"; "cross"; "current";
   "current_date"; "current_time"; "current_timestamp"; "database";
   "default"; "deferrable"; "deferred"; "delete"; "desc"; "detach";
   "distinct"; "do"; "drop"; "each"; "else"; "end"; "escape"; "except";
   "exclude"; "exclusive"; "exists"; "explain"; "fail"; "filter"; "first";
   "following"; "for"; "foreign"; "from"; "full"; "generated"; "glob";
   "group"; "groups"; "having"; "if"; "ignore"; "immediate"; "in"; "index";
   "indexed"; "initially"; "inner"; "insert"; "instead"; "intersect"; "into";
   "is"; "isnull"; "join"; "key"; "last"; "left"; "like"; "limit"; "match";
   "materialized"; "natural"; "no"; "not"; "nothing"; "notnull"; "null";
   "nulls"; "of"; "offset"; "on"; "or"; "order"; "others"; "outer"; "over";
   "partition"; "plan"; "pragma"; "preceding"; "primary"; "query"; "raise";
   "range"; "recursive"; "references"; "regexp"; "reindex"; "release";
   "rename"; "replace"; "restrict"; "returning"; "right"; "rollback"; "row";
   "rows"; "savepoint"; "select"; "set"; "table"; "temp"; "temporary";
   "then"; "ties"; "to"; "transaction"; "trigger"; "unbounded"; "union";
   "unique"; "update"; "using"; "vacuum"; "values"; "view"; "virtual";
   "when"; "where"; "window"; "with"; "within"; "without"].

(** A name that SQLite reads as one identifier, whatever its version: lower
    case letters, digits and underscores, no digit first, no more than 64
    characters, and none of its keywords.  (SQLite takes more names than
    these; and it tells two names apart only when they differ in more than
    the case of their letters, which names in lower case do.) *)
Definition identifier_char (c : ascii) : bool :=
  let n := nat_of_ascii c in
  ((97 <=? n)%nat && (n <=? 122)%nat) || ((48 <=? n)%nat && (n <=? 57)%nat)
  || (n =? 95)%nat.

Definition plain_identifier (s : string) : bool :=
  match s with
  | EmptyString => false
  | String c _ =>
      negb ((48 <=? nat_of_ascii c)%nat && (nat_of_ascii c <=? 57)%nat)
      && forallb identifier_char (list_ascii_of_string s)
      && (String.length s <=? 64)%nat
      && negb (mem s sql_keywords)
  end.

(** The columns [create_table] asks for can stand in one table: the class
    has a field other than [id], and the columns, with [id] before them,
    are pairwise distinct. *)
Definition distinct_columns (item_type : Inventory) : Prop :=
  filter (fun col => negb (String.eqb col "id")) (fields item_type) <> []
  /\ has_duplicate ("id" :: layout item_type) = false.

(** Conditions under which [create_table] makes the table of a class: the
    name of the class and its fields are plain identifiers, the name is
    not that of a table the program or SQLite has for itself, the fields
    are no more than a table may have columns, and the columns can stand
    in one table. *)
Definition creatable (item_type : Inventory) : Prop :=
  plain_identifier (cls_item_type item_type) = true
  /\ mem (cls_item_type item_type) ["users"; "transactions"] = false
  /\ String.prefix "sqlite_" (cls_item_type item_type) = false
  /\ forallb plain_identifier (fields item_type) = true
  /\ (length (fields item_type) <= 1000)%nat
  /\ distinct_columns item_type.

(** The tables of a store are named in plain identifiers, as the program
    names its own. *)
Definition plainly_named (s : Store) : Prop :=
  forall name, In name (map fst (tables s)) -> plain_identifier name = true.

(** ** transaction_manager.py: get_borrowed_given_item

    The statement joins the ledger with the table of one item class:
<<
    SELECT t.id as TransactionId, i.*
    FROM transactions t
    JOIN {cls_item_type} i ON t.item_id = i.id
    WHERE t.user_name = ? AND t.item_type='{cls_item_type}'
          AND t.status = 'borrowed' AND {f1 LIKE ? OR f2 LIKE ? OR ...}
>>
    In SQL, AND binds tighter than OR, so the condition reads
    [(t.user_name = ? AND ... AND f1 LIKE ?) OR f2 LIKE ? OR ...]. *)

Inductive sql_join : Type :=
| SelectBorrowedLike (table_name : string) (like_fields : list string).

Definition sql_join_text (q : sql_join) : string :=
  match q with
  | SelectBorrowedLike table_name like_fields =>
      get_borrowed_given_item_query
        {| cls_item_type := table_name; fields := like_fields |}
  end.

(** The columns of [transactions], in the order of [setup_transactions_table]. *)
Definition transaction_columns : list string :=
  ["id"; "user_name"; "item_type"; "item_id";
   "borrow_date"; "due_date"; "return_date"; "status"].

Definition transaction_value (t : Transaction.t) (f : string) : value :=
  nth (index f transaction_columns) (transaction_row t) VNull.

(** How a column name without a table prefix resolves in the join: to the
    one table that has a column of that name. *)
Inductive Resolved : Type :=
| InLedger
| InItems
| Ambiguous
| Unknown.

Definition resolve (tbl : Table) (f : string) : Resolved :=
  match mem f transaction_columns, has_column tbl f with
  | true, true => Ambiguous
  | true, false => InLedger
  | false, true => InItems
  | false, false => Unknown
  end.

Definition joined_value (tbl : Table) (t : Transaction.t) (r : ItemRow)
    (f : string) : value :=
  match resolve tbl f with
  | InLedger => transaction_value t f
  | _ => column_value tbl r f
  end.

(** The WHERE clause on one joined pair, for the fields [f1 :: more] and
    their patterns. *)
Definition borrowed_like (table_name user_name : string) (tbl : Table)
    (like_fields : list string) (patterns : list value)
    (t : Transaction.t) (r : ItemRow) : bool :=
  match combine like_fields patterns with
  | [] => false
  | (f1, p1) :: more =>
      (String.eqb (Transaction.user_name t) user_name
       && String.eqb (Transaction.item_type t) table_name
       && is_borrowed (Transaction.status t)
       && like_value p1 (joined_value tbl t r f1))
      || existsb (fun fp => like_value (snd fp) (joined_value tbl t r (fst fp))) more
  end.

(** The first field that does not resolve to one column, if any. *)
Fixpoint unresolved (tbl : Table) (fs : list string) : option exn :=
  match fs with
  | [] => None
  | f :: rest =>
      match resolve tbl f with
      | Ambiguous => Some (OperationalError (fstr ["ambiguous column name: "; f]))
      | Unknown => Some (OperationalError (fstr ["no such column: "; f]))
      | _ => unresolved tbl rest
      end
  end.

(** What the cursor does with the join.  The rows come pair by pair, ledger
    row first; SQLite leaves their order open. *)
Definition sqlite_join (q : sql_join) (params : list value) (s : Store)
    : exn + (Store * list row) :=
  match q with
  | SelectBorrowedLike table_name like_fields =>
      match like_fields with
      | [] => inl (OperationalError "incomplete input")
      | _ :: _ =>
          match lookup table_name (tables s) with
          | None => no_such_table table_name
          | Some tbl =>
              match unresolved tbl like_fields with
              | Some e => inl e
              | None =>
                  match params with
                  | VText user_name :: patterns =>
                      if (length patterns =? length like_fields)%nat then
                        if forallb bindable patterns then
                          inr (s,
                               flat_map
                                 (fun t =>
                                    map (fun r =>
                                           VInt (Transaction.id t)
                                             :: VInt (row_id r) :: cells r)
                                        (filter
                                           (fun r =>
                                              Z.eqb (Transaction.item_id t) (row_id r)
                                              && borrowed_like table_name user_name tbl
                                                   like_fields patterns t r)
                                           (rows tbl)))
                                 (transactions s))
                        else too_large
                      else bad_bindings
                  | _ => bad_bindings
                  end
              end
          end
      end
  end.

(** [TransactionManager.get_borrowed_given_item]. *)
Definition get_borrowed_given_item (user_name : string) (item_type : Inventory)
    (search_word : string) : M Store (option (list string * list row)) :=
  let fields := fields item_type in
  let cls_item_type := cls_item_type item_type in
  let query := SelectBorrowedLike cls_item_type fields in
  let params := [VText user_name] ++ map (fun _ => like_param search_word) fields in
  try_except
    (results <- fetchall sqlite_join query params ;;
     Utils.rich_print (fstr ["Borrowed items found for "; user_name; "."]) "success" ;;
     ret (Some (["TransactionId"; "id"] ++ fields, results)))
    is_Exception
    (fun e =>
       Utils.rich_print
         (fstr ["Error during retrieval of borrowed items: "; str_exn e]) "error" ;;
       ret None).

(** A ledger over the sample library: alice holds book 1, bob has returned
    book 2, carol holds magazine 2. *)
Definition library_ledger : list Transaction.t :=
  [ {| Transaction.id := 1; Transaction.user_name := "alice";
       Transaction.item_type := "book"; Transaction.item_id := 1;
       Transaction.borrow_date := "2024-01-01"; Transaction.due_date := "2024-01-08";
       Transaction.return_date := None; Transaction.status := borrowed |};
    {| Transaction.id := 2; Transaction.user_name := "bob";
       Transaction.item_type := "book"; Transaction.item_id := 2;
       Transaction.borrow_date := "2024-01-01"; Transaction.due_date := "2024-01-08";
       Transaction.return_date := Some "2024-01-02"; Transaction.status := returned |};
    {| Transaction.id := 3; Transaction.user_name := "carol";
       Transaction.item_type := "magazine"; Transaction.item_id := 2;
       Transaction.borrow_date := "2024-01-01"; Transaction.due_date := "2024-01-08";
       Transaction.return_date := None; Transaction.status := borrowed |} ].

Definition lending_library : Store := set_transactions library library_ledger.

(** The table of books of the sample library. *)
Definition library_books : Table :=
  {| columns := layout Book;
     rows :=
       [ {| row_id := 1;
            cells := [VText "The Hobbit"; VText "J. R. R. Tolkien";
                      VText "fantasy"; VText "1937-09-21"; VText "alice"] |};
         {| row_id := 2;
            cells := [VText "Dune"; VText "Frank Herbert";
                      VText "science fiction"; VNull; VText "bob"] |} ] |}.

(** ** Searching: edge cases *)

Definition is_null (v : value) : bool :=
  match v with
  | VNull => true
  | _ => false
  end.

(** The two lines a failed cross-category search leaves on the console. *)
Definition fetch_error_message (e : exn) : string :=
  Utils.markup (fstr ["Error fetching data: "; str_exn e]) "error".

Definition search_success_message : string :=
  Utils.markup "Search results retrieved successfully!" "success".

(** ** The terminal

    The methods that talk to the user read lines from the keyboard.  A
    terminal is a world together with the lines still to be typed; reading
    at the end of them raises EOFError, as [input()] does at the end of its
    input. *)
Record Terminal : Type := {
  world : World Store;
  keyboard : list string
}.

(** What ends a method that talks to the user, besides a value:  an
    exception of the store or of the date arithmetic, one of three further
    builtin exceptions, or - in the model only - a loop that was given too
    few rounds ([while_true] gives enough, see [while_true_finishes]). *)
Inductive failure : Type :=
| Raised (e : exn)
| ValueError (msg : string)
| AttributeError (name : string)
| EOFError
| Unfinished.

Inductive reply (A : Type) : Type :=
| Done (a : A)
| Failed (f : failure).
Arguments Done {A}.
Arguments Failed {A}.

Definition IO (A : Type) : Type := Terminal -> reply A * Terminal.

Definition io_ret {A} (a : A) : IO A := fun t => (Done a, t).

Definition io_bind {A B} (m : IO A) (k : A -> IO B) : IO B :=
  fun t =>
    match m t with
    | (Done a, t') => k a t'
    | (Failed f, t') => (Failed f, t')
    end.

Definition io_fail {A} (f : failure) : IO A := fun t => (Failed f, t).

(** A method of the first part, run at the terminal. *)
Definition lift {A} (m : M Store A) : IO A :=
  fun t =>
    match m (world t) with
    | (Return a, w') => (Done a, {| world := w'; keyboard := keyboard t |})
    | (Raise e, w') => (Failed (Raised e), {| world := w'; keyboard := keyboard t |})
    end.

Declare Scope io_scope.
Delimit Scope io_scope with io.
Notation "x <-- m ;;; k" := (io_bind m (fun x => k))
  (at level 61, m at next level, right associativity) : io_scope.
Notation "m ;;; k" := (io_bind m (fun _ => k))
  (at level 61, right associativity) : io_scope.
Open Scope io_scope.

(** [while True: body], where the body says whether it leaves the loop with
    a value (Some) or goes round again (None). *)
Fixpoint loop {A} (rounds : nat) (body : IO (option A)) : IO A :=
  match rounds with
  | O => io_fail Unfinished
  | S k =>
      r <-- body ;;;
      match r with
      | Some a => io_ret a
      | None => loop k body
      end
  end.

(** Every round of the loops of this program reads a line, so one round
    more than there are lines is enough. *)
Definition while_true {A} (body : IO (option A)) : IO A :=
  fun t => loop (S (length (keyboard t))) body t.

(** [for x in xs: state = body(state, x)]. *)
Fixpoint for_fold {A S : Type} (xs : list A) (s : S) (body : S -> A -> IO S) : IO S :=
  match xs with
  | [] => io_ret s
  | x :: rest => s' <-- body s x ;;; for_fold rest s' body
  end.

(** [Utils.rich_print] at the terminal. *)
Definition io_print (message tag : string) : IO unit :=
  lift (Utils.rich_print message tag).

(** [Utils.rich_prompting]: the prompt is shown, then a line is read. *)
Definition rich_prompting (prompt_message tag : string) : IO string :=
  fun t =>
    let color := Utils.colors_get tag in
    let shown :=
      say (fstr ["["; color; "]"; prompt_message; ": [/"; color; "]"]) (world t) in
    match keyboard t with
    | [] => (Failed EOFError, {| world := shown; keyboard := [] |})
    | line :: rest => (Done line, {| world := shown; keyboard := rest |})
    end.

(** ** Python text methods (on the characters below 256) *)

(** [c.isspace()]. *)
Definition isspace (c : ascii) : bool :=
  let n := nat_of_ascii c in
  ((9 <=? n)%nat && (n <=? 13)%nat) || ((28 <=? n)%nat && (n <=? 32)%nat)
  || (n =? 133)%nat || (n =? 160)%nat.

(** [bool(s.strip())]: some character of [s] is no white space. *)
Fixpoint not_blank (s : string) : bool :=
  match s with
  | EmptyString => false
  | String c rest => negb (isspace c) || not_blank rest
  end.

(** ** inventory.py: filling in and adding an item *)

(** What an attribute of an item holds: a [str], [None] or a [date]. *)
Inductive attr : Type :=
| AStr (s : string)
| ANone
| ADate (ordinal : Z).

(** [str(a)]. *)
Definition str_attr (a : attr) : string :=
  match a with
  | AStr s => s
  | ANone => "None"
  | ADate d => isoformat d
  end.

(** What the driver binds for an attribute: a date goes through the
    default adapter, which writes it as YYYY-MM-DD. *)
Definition bind_attr (a : attr) : value :=
  match a with
  | AStr s => VText s
  | ANone => VNull
  | ADate d => VText (isoformat d)
  end.

(** An item object: its class, its [name], and the other attributes set
    on it. *)
Record Item : Type := {
  item_class : Inventory;
  name : attr;
  attributes : list (string * attr)
}.

(** [Inventory.__init__] and the [__init__] of the class: [self.name] is
    "Unnamed", [self.fields] the fields of the class. *)
Definition new_item (item_class : Inventory) : Item :=
  {| item_class := item_class; name := AStr "Unnamed"; attributes := [] |}.

Fixpoint set_attr (k : string) (v : attr) (l : list (string * attr))
    : list (string * attr) :=
  match l with
  | [] => [(k, v)]
  | (k', v') :: rest =>
      if String.eqb k k' then (k, v) :: rest else (k', v') :: set_attr k v rest
  end.

(** The names an object of an item class has in use besides its fields:
    [setattr] on one of them would replace the field list, the class name
    or a method.  The classes of the program have no such field. *)
Definition reserved_names : list string :=
  ["fields"; "cls_item_type"; "get_fields"; "get_date_with_fields";
   "add_to_inventory"; "create_inventory_layout_sqlite"].

Definition ordinary_field (field : string) : bool :=
  negb (mem field reserved_names) && negb (String.prefix "__" field).

Definition ordinary_fields (item_class : Inventory) : bool :=
  forallb ordinary_field (fields item_class).

(** [setattr(self, field, v)], for an ordinary field. *)
Definition setattr (self : Item) (field : string) (v : attr) : Item :=
  if String.eqb field "name" then
    {| item_class := item_class self; name := v; attributes := attributes self |}
  else
    {| item_class := item_class self; name := name self;
       attributes := set_attr field v (attributes self) |}.

(** What an ordinary field of the object holds, if it was set. *)
Definition attribute (self : Item) (field : string) : option attr :=
  if String.eqb field "name" then Some (name self)
  else lookup field (attributes self).

(** [getattr(self, field)], for an ordinary field. *)
Definition getattr (self : Item) (field : string) : IO attr :=
  match attribute self field with
  | Some v => io_ret v
  | None => io_fail (AttributeError field)
  end.

(** The loop that asks for a field whose name contains "name". *)
Definition ask_name (cls_item_type field : string) : IO attr :=
  while_true
    (value <-- rich_prompting
                 (fstr ["Enter "; field; " of "; cls_item_type; "(cannot be empty)"])
                 "info" ;;;
     if not_blank value then io_ret (Some (AStr value))
     else
       io_print (fstr ["Name is compulsory. Please enter the name of "; cls_item_type])
                "error" ;;;
       io_ret None).

(** The prompt for any other field. *)
Definition ask_plain (cls_item_type field : string) : IO attr :=
  value <-- rich_prompting (fstr ["Enter "; field; " of "; cls_item_type]) "info" ;;;
  io_ret (AStr value).

(** [Inventory.get_fields]. *)
Definition get_fields (self : Item) : IO Item :=
  let cls_item_type := cls_item_type (item_class self) in
  for_fold (fields (item_class self)) self
    (fun self field =>
       value <-- (if contains field "name" then ask_name cls_item_type field
                  else ask_plain cls_item_type field) ;;;
       io_ret (setattr self field value)).

Section Dates.
(** [datetime.strptime(value, "%Y-%m-%d").date()] as an ordinal, or None
    where it raises ValueError; the parser is the library's. *)
Variable strptime : string -> option Z.

(** [date_format_mapper["%Y-%m-%d"]]. *)
Definition date_format_hint : string := "YYYY-mm-dd format. Eg: 2014-12-14".

(** The loop that asks for a field whose name contains "date". *)
Definition ask_date (field : string) : IO attr :=
  while_true
    (value <-- rich_prompting (fstr ["Enter "; field; " in "; date_format_hint]) "info" ;;;
     if not_blank value then
       match strptime value with
       | Some d => io_ret (Some (ADate d))
       | None =>
           io_print "Invalid Date format. Please follow the example given." "error" ;;;
           io_ret None
       end
     else io_ret (Some ANone)).

(** [Inventory.get_date_with_fields], with its default date format. *)
Definition get_date_with_fields (self : Item) : IO Item :=
  let cls_item_type := cls_item_type (item_class self) in
  for_fold (fields (item_class self)) self
    (fun self field =>
       value <-- (if contains field "name" then ask_name cls_item_type field
                  else if contains field "date" then ask_date field
                  else ask_plain cls_item_type field) ;;;
       io_ret (setattr self field value)).

End Dates.

(** *** The INSERT of an item *)

(** [INSERT INTO table (c1, c2, ...) VALUES (?, ?, ...)] *)
Inductive sql_insert : Type :=
| InsertItem (table_name : string) (insert_columns : list string).

Definition sql_insert_text (q : sql_insert) : string :=
  match q with
  | InsertItem table_name insert_columns =>
      fstr ["INSERT INTO "; table_name; " ("; join ", " insert_columns;
            ") VALUES ("; join ", " (map (fun _ => "?") insert_columns); ")"]
  end.

(** The largest id a row can have. *)
Definition MAX_ROWID : Z := 9223372036854775807.

(** What a TEXT column keeps of a value. *)
Definition as_text (v : value) : value :=
  match v with
  | VInt n => VText (str_int n)
  | _ => v
  end.

(** A table's rows are read in the order of their ids. *)
Fixpoint insert_row (r : ItemRow) (rs : list ItemRow) : list ItemRow :=
  match rs with
  | [] => [r]
  | x :: rest =>
      if (row_id r <? row_id x)%Z then r :: x :: rest else x :: insert_row r rest
  end.

Fixpoint store_table (table_name : string) (tbl : Table) (tbls : list (string * Table))
    : list (string * Table) :=
  match tbls with
  | [] => []
  | (k, v) :: rest =>
      if String.eqb table_name k then (k, tbl) :: rest
      else (k, v) :: store_table table_name tbl rest
  end.

Section Inserting.
(** The integer SQLite reads a text as when the text is to be the INTEGER
    PRIMARY KEY of a row ("77" is 77), or None when it reads none. *)
Variable integer_of_text : string -> option Z.

(** The id of the new row: the one bound to [id] (of several, the last),
    which must be an integer not in use, or else the next one. *)
Definition new_row_id (table_name : string) (ids : list Z)
    (bound : list (string * value)) : exn + Z :=
  let explicit (n : Z) : exn + Z :=
    if existsb (Z.eqb n) ids then
      inl (IntegrityError (fstr ["UNIQUE constraint failed: "; table_name; ".id"]))
    else inr n in
  let mismatch : exn + Z := inl (IntegrityError "datatype mismatch") in
  match lookup "id" (rev bound) with
  | None | Some VNull =>
      if (MAX_ROWID <=? fold_right Z.max 0 ids)%Z then
        inl (OperationalError "database or disk is full")
      else inr (next_rowid ids)
  | Some (VInt n) => explicit n
  | Some (VText t) =>
      match integer_of_text t with
      | Some n => explicit n
      | None => mismatch
      end
  | Some (VBlob _) => mismatch
  end.

(** What [cursor.execute] does with an INSERT of an item: under each
    column of the table goes the first value bound to it, or NULL.  The
    names of tables and columns are compared as written, as everywhere in
    this model (SQLite itself ignores the case of the letters A to Z in
    them; the names of the program are written in lower case). *)
Definition sqlite_insert (q : sql_insert) (params : list value) (s : Store)
    : exn + (Store * list row) :=
  match q with
  | InsertItem table_name insert_columns =>
      match insert_columns with
      | [] => syntax_error
      | _ :: _ =>
          match lookup table_name (tables s) with
          | None => no_such_table table_name
          | Some tbl =>
              match find (fun c => negb (has_column tbl c)) insert_columns with
              | Some c =>
                  inl (OperationalError
                         (fstr ["table "; table_name; " has no column named "; c]))
              | None =>
                  if (length params =? length insert_columns)%nat then
                    if forallb bindable params then
                      let bound := combine insert_columns params in
                      match new_row_id table_name (map row_id (rows tbl)) bound with
                      | inl e => inl e
                      | inr id =>
                          let r :=
                            {| row_id := id;
                               cells :=
                                 map (fun col =>
                                        match lookup col bound with
                                        | Some v => as_text v
                                        | None => VNull
                                        end)
                                     (columns tbl) |} in
                          inr (set_tables s
                                 (store_table table_name
                                    {| columns := columns tbl;
                                       rows := insert_row r (rows tbl) |}
                                    (tables s)),
                               [])
                      end
                    else too_large
                  else bad_bindings
              end
          end
      end
  end.

(** [[getattr(self, field) for field in self.fields]]. *)
Fixpoint getattrs (self : Item) (fs : list string) : IO (list attr) :=
  match fs with
  | [] => io_ret []
  | field :: rest =>
      v <-- getattr self field ;;;
      vs <-- getattrs self rest ;;;
      io_ret (v :: vs)
  end.

(** [Inventory.add_to_inventory]. *)
Definition add_to_inventory (self : Item) (user_name : string) : IO unit :=
  let fields := fields (item_class self) in
  let cls_item_type := cls_item_type (item_class self) in
  values_list <-- getattrs self fields ;;;
  let values := map bind_attr values_list ++ [VText user_name] in
  let query := InsertItem cls_item_type (fields ++ ["user_name"]) in
  lift
    (try_except
       (execute sqlite_insert query values ;;
        Utils.rich_print
          (fstr [str_attr (name self); " ("; cls_item_type;
                 ") successfully added to inventory."])
          "success")
       is_Exception
       (fun e =>
          Utils.rich_print (fstr ["Error adding to inventory: "; str_exn e]) "error")).

End Inserting.

(** ** What the questions take from the lines typed

    Said on the lines alone: the question for a field whose name contains
    "name" takes the first line that is not blank, passing over the blank
    ones before it; the question for a date takes the first line that is
    blank (the date is then None) or that the parser reads, passing over
    the others; any other question takes the next line.  Each gives back
    the lines after the one it took, or nothing when the lines run out. *)
Fixpoint first_filled (lines : list string) : option (attr * list string) :=
  match lines with
  | [] => None
  | line :: rest =>
      if not_blank line then Some (AStr line, rest) else first_filled rest
  end.

Definition next_line (lines : list string) : option (attr * list string) :=
  match lines with
  | [] => None
  | line :: rest => Some (AStr line, rest)
  end.

Fixpoint first_date (strptime : string -> option Z) (lines : list string)
    : option (attr * list string) :=
  match lines with
  | [] => None
  | line :: rest =>
      if not_blank line then
        match strptime line with
        | Some d => Some (ADate d, rest)
        | None => first_date strptime rest
        end
      else Some (ANone, rest)
  end.

(** The answer to the question [get_fields] asks for a field. *)
Definition answer_of (field : string) (lines : list string)
    : option (attr * list string) :=
  if contains field "name" then first_filled lines else next_line lines.

(** The answer to the question [get_date_with_fields] asks for a field. *)
Definition dated_answer_of (strptime : string -> option Z) (field : string)
    (lines : list string) : option (attr * list string) :=
  if contains field "name" then first_filled lines
  else if contains field "date" then first_date strptime lines
  else next_line lines.

(** The answers to the questions for the fields, one after the other. *)
Fixpoint answers_of (answer : string -> list string -> option (attr * list string))
    (fields : list string) (lines : list string)
    : option (list (string * attr) * list string) :=
  match fields with
  | [] => Some ([], lines)
  | field :: more =>
      match answer field lines with
      | None => None
      | Some (v, rest) =>
          match answers_of answer more rest with
          | None => None
          | Some (values, rest') => Some ((field, v) :: values, rest')
          end
      end
  end.

(** The item after its fields were set, one after the other. *)
Definition set_all (values : list (string * attr)) (self : Item) : Item :=
  fold_left (fun item fv => setattr item (fst fv) (snd fv)) values self.

(** [ask] asks as [answer] says: run at any terminal, it returns the value
    and leaves the lines that [answer] gives for the lines to be typed, or
    ends in EOFError with no line left when [answer] gives nothing; the
    store is as before. *)
Definition asks_as {A : Type} (ask : IO A)
    (answer : list string -> option (A * list string)) : Prop :=
  forall t,
    match answer (keyboard t) with
    | Some (v, rest) =>
        exists t', ask t = (Done v, t')
                   /\ keyboard t' = rest /\ db (world t') = db (world t)
    | None =>
        exists t', ask t = (Failed EOFError, t')
                   /\ keyboard t' = [] /\ db (world t') = db (world t)
    end.

(** What [get_fields] leaves in a field, given the lines typed: one of
    the lines, and not a blank one for a field whose name contains "name". *)
Definition filled_in (lines : list string) (field : string) (v : attr) : Prop :=
  exists s, v = AStr s /\ In s lines
            /\ (contains field "name" = true -> not_blank s = true).

(** What [get_date_with_fields] leaves in a field, given the lines typed. *)
Definition filled_in_with_dates (strptime : string -> option Z)
    (lines : list string) (field : string) (v : attr) : Prop :=
  if contains field "name" then
    exists s, v = AStr s /\ In s lines /\ not_blank s = true
  else if contains field "date" then
    (v = ANone /\ exists s, In s lines /\ not_blank s = false)
    \/ exists s d, In s lines /\ not_blank s = true /\ strptime s = Some d
                   /\ v = ADate d
  else exists s, v = AStr s /\ In s lines.

(** A parser of dates for the examples: it reads the one date of the hint. *)
Definition sample_strptime (s : string) : option Z :=
  if String.eqb s "2014-12-14" then Some (ordinal_of_ymd 2014 12 14) else None.

(** A terminal on which the given lines are typed. *)
Definition typing (lines : list string) (s : Store) : Terminal :=
  {| world := world_of s; keyboard := lines |}.

(** ** Adding an item: what is asked of the class, and what is stored *)

(** The fields of the class are pairwise distinct, and none of them is the
    [id] or the [user_name] column that every item table has. *)
Definition insertable (item_class : Inventory) : Prop :=
  has_duplicate ("id" :: fields item_class ++ ["user_name"]) = false.

(** What [add_to_inventory] binds for a field of the item. *)
Definition cell_of (self : Item) (field : string) : value :=
  match attribute self field with
  | Some v => bind_attr v
  | None => VNull
  end.

(** The row of the item in the table of its class. *)
Definition item_row (self : Item) (user_name : string) (tbl : Table) : ItemRow :=
  {| row_id := next_rowid (map row_id (rows tbl));
     cells := map (cell_of self) (fields (item_class self)) ++ [VText user_name] |}.

Definition added_message (self : Item) : string :=
  Utils.markup
    (fstr [str_attr (name self); " ("; cls_item_type (item_class self);
           ") successfully added to inventory."])
    "success".

(** SQLite's reading of a text as an integer, for the examples: it reads
    the text of one integer. *)
Definition sample_integer_of_text (s : string) : option Z :=
  if String.eqb s "77" then Some 77%Z else None.

(** The book of the dialogue above. *)
Definition dune : Item :=
  {| item_class := Book; name := AStr "Dune";
     attributes := [("author", AStr "Frank Herbert"); ("genre", AStr "");
                    ("date", ADate 735581)] |}.

(** ** Further Python text methods (on the characters below 256) *)

(** [c.isdigit()]: the ten digits and the superscripts 1, 2 and 3. *)
Definition isdigit_char (c : ascii) : bool :=
  let n := nat_of_ascii c in
  ((48 <=? n)%nat && (n <=? 57)%nat) || (n =? 178)%nat || (n =? 179)%nat
  || (n =? 185)%nat.

Fixpoint all_digits (s : string) : bool :=
  match s with
  | EmptyString => true
  | String c rest => isdigit_char c && all_digits rest
  end.

(** [s.isdigit()]. *)
Definition isdigit (s : string) : bool :=
  match s with
  | EmptyString => false
  | String _ _ => all_digits s
  end.

(** [c.lower()]. *)
Definition lower_char (c : ascii) : ascii :=
  let n := nat_of_ascii c in
  if ((65 <=? n)%nat && (n <=? 90)%nat)
     || ((192 <=? n)%nat && (n <=? 222)%nat && negb (n =? 215)%nat)
  then ascii_of_nat (n + 32) else c.

(** [s.lower()]. *)
Fixpoint lower (s : string) : string :=
  match s with
  | EmptyString => EmptyString
  | String c rest => String (lower_char c) (lower rest)
  end.

(** [c.upper()] for the letters a to z; the names of the item classes are
    taken to be written with ASCII characters. *)
Definition upper_char (c : ascii) : ascii :=
  let n := nat_of_ascii c in
  if ((97 <=? n)%nat && (n <=? 122)%nat) then ascii_of_nat (n - 32) else c.

(** [s.capitalize()]. *)
Definition capitalize (s : string) : string :=
  match s with
  | EmptyString => EmptyString
  | String c rest => String (upper_char c) (lower rest)
  end.

Fixpoint lstrip (s : string) : string :=
  match s with
  | EmptyString => EmptyString
  | String c rest => if isspace c then lstrip rest else s
  end.

Definition reverse (s : string) : string :=
  string_of_list_ascii (rev (list_ascii_of_string s)).

(** [s.strip()]. *)
Definition strip (s : string) : string := reverse (lstrip (reverse (lstrip s))).

(** ** transaction_manager.py: the menus *)

(** What [initiate_search_or_borrow_or_return_action] returns: a tuple of
    two lists ([return [], []]) or a tuple of the columns, the rows and the
    choice. *)
Inductive Chosen : Type :=
| Pair (involved_cols : list string) (results : list row)
| Triple (involved_cols : list string) (results : list row) (item_type_choice : Z).

(** [for x in xs: body(x)] at the terminal. *)
Fixpoint io_for_each {A : Type} (xs : list A) (body : A -> IO unit) : IO unit :=
  match xs with
  | [] => io_ret tt
  | x :: rest => body x ;;; io_for_each rest body
  end.

(** [a, b = value] for what a search returns: None cannot be unpacked. *)
Definition unpack2 (value : option (list string * list row))
    : IO (list string * list row) :=
  match value with
  | Some found => io_ret found
  | None => io_fail (Raised (TypeError "cannot unpack non-iterable NoneType object"))
  end.

(** [a, b, c = value] for what the menu of the searches returns. *)
Definition unpack3 (value : Chosen) : IO (list string * list row * Z) :=
  match value with
  | Triple involved_cols results item_type_choice =>
      io_ret (involved_cols, results, item_type_choice)
  | Pair _ _ => io_fail (ValueError "not enough values to unpack (expected 3, got 2)")
  end.

Section Menus.
(** Python's [int] on a text: the integer, or None where it raises
    ValueError. *)
Variable int : string -> option Z.
Variable strptime : string -> option Z.
Variable integer_of_text : string -> option Z.
(** The classes that override [get_fields] with [get_date_with_fields], as
    Book, Magazine and ResearchPaper do. *)
Variable asks_dates : Inventory -> bool.
(** [TransactionManager.get_transaction_history], whose query is assembled
    as text. *)
Variable get_transaction_history : bool -> M Store (list string * list row).
(** [Utils.format_output_display]: the table is drawn by rich. *)
Variable format_output_display : list string -> list row -> IO unit.
Variable user_name : string.
Variable item_types : list (string * Inventory).

(** [item_type_cls().get_fields()]. *)
Definition filled_item (item_type_cls : Inventory) : IO Item :=
  if asks_dates item_type_cls then get_date_with_fields strptime (new_item item_type_cls)
  else get_fields (new_item item_type_cls).

(** [TransactionManager.print_items]. *)
Definition print_items : IO unit :=
  io_print "Available Item Types" "prompt" ;;;
  io_for_each item_types
    (fun kv => io_print (fstr [fst kv; ". "; capitalize (cls_item_type (snd kv))]) "info").

(** [int(item_type_choice)] after [isdigit()] has said yes. *)
Definition int_of (text : string) : IO Z :=
  match int text with
  | Some n => io_ret n
  | None => io_fail (ValueError text)
  end.

(** [TransactionManager.complete_add_action]. *)
Definition complete_add_action : IO unit :=
  while_true
    (let exit_option := (Z.of_nat (length item_types) + 1)%Z in
     io_print (nl ++ "Select item type to add") "prompt" ;;;
     print_items ;;;
     io_print (fstr [str_int exit_option; ". Exit"]) "info" ;;;
     item_type_choice <-- rich_prompting "Enter your choice (number)" "prompt" ;;;
     if isdigit item_type_choice then
       item_type_choice <-- int_of item_type_choice ;;;
       if (item_type_choice =? exit_option)%Z then
         io_print "Returning to the main menu..." "success" ;;;
         io_ret (Some tt)
       else
         match lookup (str_int item_type_choice) item_types with
         | Some item_type_cls =>
             item_type <-- filled_item item_type_cls ;;;
             add_to_inventory integer_of_text item_type user_name ;;;
             io_ret None
         | None =>
             io_print "Invalid choice. Try again!" "error" ;;;
             io_ret None
         end
     else
       io_print "Invalid input. Please enter a valid number!" "error" ;;;
       io_ret None).

(** [TransactionManager.initiate_search_or_borrow_or_return_action]. *)
Definition initiate_search_or_borrow_or_return_action (is_borrow is_return : bool)
    : IO Chosen :=
  let action := "to search" in
  let action := if is_borrow then "to borrow" else action in
  let action := if is_return then "to return" else action in
  while_true
    (let unsure_option := (Z.of_nat (length item_types) + 1)%Z in
     let exit_option := (Z.of_nat (length item_types) + 2)%Z in
     io_print (fstr ["Select item type "; action]) "prompt" ;;;
     print_items ;;;
     io_print (fstr [str_int unsure_option; ". Unsure about the category"]) "info" ;;;
     io_print (fstr [str_int exit_option; ". Exit"]) "info" ;;;
     item_type_choice <-- rich_prompting "Enter your choice (number)" "prompt" ;;;
     if isdigit item_type_choice then
       item_type_choice <-- int_of item_type_choice ;;;
       if (item_type_choice =? exit_option)%Z then
         io_print "Returning to the main menu..." "success" ;;;
         io_ret (Some (Pair [] []))
       else if (item_type_choice =? unsure_option)%Z then
         search_word <-- rich_prompting
                           (fstr ["Search by anything you are looking "; action])
                           "prompt" ;;;
         found <-- (if is_return then lift (get_transaction_history true)
                    else
                      value <-- lift (search_for_every_item_type item_types search_word) ;;;
                      unpack2 value) ;;;
         io_ret (Some (Triple (fst found) (snd found) item_type_choice))
       else
         match lookup (str_int item_type_choice) item_types with
         | Some item_type =>
             let cls_item_type := cls_item_type item_type in
             search_word <-- rich_prompting
                               (fstr ["Search by anything for "; cls_item_type;
                                      " you are looking "; action])
                               "prompt" ;;;
             value <-- lift (if is_return
                             then get_borrowed_given_item user_name item_type search_word
                             else search_with_auto_complete item_type search_word) ;;;
             found <-- unpack2 value ;;;
             io_ret (Some (Triple (fst found) (snd found) item_type_choice))
         | None =>
             io_print "Invalid item type selected. Try again!" "error" ;;;
             io_ret None
         end
     else
       io_print "Invalid input. Please enter a valid number!" "error" ;;;
       io_ret None).

(** [TransactionManager.complete_borrow_or_return_action]. *)
Definition complete_borrow_or_return_action (item_type_choice : Z) (is_return : bool)
    : IO unit :=
  let action := if is_return then "to return" else "to borrow" in
  let id_label := if is_return then "TransactionId" else "ID" in
  choice_category <--
    match lookup (str_int item_type_choice) item_types with
    | None =>
        typed <-- rich_prompting
                    (fstr ["Please select the category of the item you want "; action])
                    "prompt" ;;;
        io_ret (lower typed)
    | Some item_type_cls => io_ret (cls_item_type item_type_cls)
    end ;;;
  choice_id <--
    while_true
      (typed <-- rich_prompting
                   (fstr ["Please select the "; id_label; " of "; choice_category;
                          " you want "; action; " ";
                          "(Choose the number listed on the leftmost side)"])
                   "prompt" ;;;
       match int typed with
       | Some n => io_ret (Some n)
       | None =>
           io_print (fstr ["Invalid input! Please re-enter a valid "; id_label; "."])
                    "error" ;;;
           io_ret None
       end) ;;;
  if is_return then lift (return_item user_name choice_id)
  else lift (borrow_item user_name choice_category choice_id default_borrow_duration_days).

(** main.py, the menu after login: "search items". *)
Definition search_items : IO unit :=
  chosen <-- initiate_search_or_borrow_or_return_action false false ;;;
  found <-- unpack3 chosen ;;;
  let '(involved_cols, results, item_type_choice) := found in
  match results with
  | _ :: _ =>
      format_output_display involved_cols results ;;;
      borrow_choice <-- rich_prompting
                          "Would you like to borrow from these items? Type (yes/no)"
                          "prompt" ;;;
      let borrow_choice := lower (strip borrow_choice) in
      if mem borrow_choice ["yes"; "y"] then
        complete_borrow_or_return_action item_type_choice false
      else io_print "Borrowing cancelled." "info"
  | [] => io_print "No items found for your search." "error"
  end.

(** main.py, the menu after login: "borrow items". *)
Definition borrow_items : IO unit :=
  chosen <-- initiate_search_or_borrow_or_return_action true false ;;;
  found <-- unpack3 chosen ;;;
  let '(involved_cols, results, item_type_choice) := found in
  match results with
  | _ :: _ =>
      format_output_display involved_cols results ;;;
      complete_borrow_or_return_action item_type_choice false
  | [] => io_print "No items found for your search." "error"
  end.

(** main.py, the menu after login: "return items". *)
Definition return_items : IO unit :=
  chosen <-- initiate_search_or_borrow_or_return_action true true ;;;
  found <-- unpack3 chosen ;;;
  let '(involved_cols, results, item_type_choice) := found in
  match results with
  | _ :: _ =>
      format_output_display involved_cols results ;;;
      complete_borrow_or_return_action item_type_choice true
  | [] => io_print "Nothing has been borrowed to return." "error"
  end.

End Menus.

(** [int] for the examples: it reads a text of the digits 0 to 9. *)
Fixpoint decimal_value (acc : Z) (s : string) : option Z :=
  match s with
  | EmptyString => Some acc
  | String c rest =>
      let n := nat_of_ascii c in
      if ((48 <=? n)%nat && (n <=? 57)%nat)
      then decimal_value (10 * acc + Z.of_nat (n - 48))%Z rest
      else None
  end.

Definition sample_int (s : string) : option Z :=
  match s with
  | EmptyString => None
  | String _ _ => decimal_value 0%Z s
  end.

(** The classes of the program that ask for a date. *)
Definition sample_asks_dates (c : Inventory) : bool :=
  mem (cls_item_type c) ["book"; "magazine"; "research_paper"].

(** A listing and a display for the examples: no rows, nothing drawn. *)
Definition sample_history (is_active : bool) : M Store (list string * list row) :=
  ret ([], []).

Definition sample_display (columns : list string) (results : list row) : IO unit :=
  io_ret tt.

(** ** What the menus do *)

(** The terminal after some lines were printed. *)
Definition said (lines : list string) (t : Terminal) : Terminal :=
  {| world := {| db := db (world t); console := console (world t) ++ lines;
                 clock := clock (world t); ticks := ticks (world t) |};
     keyboard := keyboard t |}.

(** [m], run at [t], ends with a value and a terminal in [Q] or with a
    failure and a terminal in [E]. *)
Definition io_spec {A : Type} (m : IO A) (t : Terminal)
    (Q : A -> Terminal -> Prop) (E : failure -> Terminal -> Prop) : Prop :=
  match m t with
  | (Done a, t') => Q a t'
  | (Failed f, t') => E f t'
  end.

(** Between two stores only items were added: the accounts and the ledger
    are the same, the same tables are there with the same columns, and
    every row of a table is still in it. *)
Definition only_items_added (s s' : Store) : Prop :=
  users s' = users s
  /\ transactions s' = transactions s
  /\ map fst (tables s') = map fst (tables s)
  /\ forall k tbl, lookup k (tables s) = Some tbl ->
       exists tbl', lookup k (tables s') = Some tbl'
                    /\ columns tbl' = columns tbl
                    /\ incl (rows tbl) (rows tbl').

(** The lines of the item menu. *)
Definition item_lines (item_types : list (string * Inventory)) : list string :=
  Utils.markup "Available Item Types" "prompt"
  :: map (fun kv =>
            Utils.markup (fstr [fst kv; ". "; capitalize (cls_item_type (snd kv))]) "info")
         item_types.

(** How the menu of the additions may fail: the input ends, or [int]
    refuses a line that [isdigit] accepted. *)
Definition menu_failure (int : string -> option Z) (f : failure) : Prop :=
  f = EOFError
  \/ exists text, f = ValueError text /\ isdigit text = true /\ int text = None.

(** Carol at the menu of the additions: a line that is no number, a number
    that is no choice, then a book, then Exit. *)
Definition carol_adds : list string :=
  ["x"; "9"; "1"; "Dune"; "Frank Herbert"; ""; "2014-12-14"; "7"].

(** The message of a tuple of two that is unpacked into three names. *)
Definition unpack_error : failure :=
  ValueError "not enough values to unpack (expected 3, got 2)".

Definition returning_message : string :=
  Utils.markup "Returning to the main menu..." "success".

(** The integers the driver can bind. *)
Definition sqlite_integer (n : Z) : Prop :=
  (- 9223372036854775808 <= n <= 9223372036854775807)%Z.

(** * Properties *)

(** ** Lists of names *)

Lemma mem_In (x : string) (l : list string) : mem x l = true <-> In x l.
Proof.
  unfold mem. rewrite existsb_exists. split.
  - intros [y [Hy Heq]]. apply String.eqb_eq in Heq. now subst.
  - intros H. exists x. split; [assumption | apply String.eqb_refl].
Qed.

Lemma mem_app (x : string) (l1 l2 : list string) :
  mem x (l1 ++ l2) = mem x l1 || mem x l2.
Proof. unfold mem. apply existsb_app. Qed.

Lemma filter_filter_and {A} (p q : A -> bool) (l : list A) :
  filter p (filter q l) = filter (fun x => q x && p x) l.
Proof.
  induction l as [|a l IH]; simpl; [reflexivity|].
  destruct (q a); simpl; [destruct (p a)|]; now rewrite IH.
Qed.

(** The loop of [OrderedSet] started from [acc] appends the new names of
    [l], each at its first occurrence. *)
Lemma OrderedSet_fold (l acc : list string) :
  fold_left OrderedSet.add l acc
  = acc ++ filter (fun y => negb (mem y acc)) (first_occurrences l).
Proof.
  revert acc. induction l as [|x l IH]; intros acc; simpl.
  - now rewrite app_nil_r.
  - unfold OrderedSet.add at 2. destruct (mem x acc) eqn:Hx; simpl.
    + rewrite IH. f_equal. rewrite filter_filter_and.
      apply filter_ext. intros y.
      destruct (String.eqb_spec x y) as [->|Hne]; simpl; [now rewrite Hx|reflexivity].
    + rewrite IH, <- app_assoc. simpl. do 2 f_equal.
      rewrite filter_filter_and. apply filter_ext. intros y.
      rewrite mem_app. unfold mem at 2. simpl. rewrite orb_false_r.
      rewrite negb_orb, andb_comm, (String.eqb_sym y x). reflexivity.
Qed.

Lemma OrderedSet_make_first_occurrences (l : list string) :
  OrderedSet.make l = first_occurrences l.
Proof.
  unfold OrderedSet.make. rewrite OrderedSet_fold. simpl.
  induction (first_occurrences l) as [|a m IH]; simpl; [reflexivity|].
  now rewrite IH.
Qed.

Lemma extend_loop (cs : list Inventory) (acc : list string) :
  fold_left (fun acc item_cls => acc ++ fields item_cls) cs acc
  = acc ++ concat (map fields cs).
Proof.
  revert acc. induction cs as [|c cs IH]; intros acc; simpl.
  - now rewrite app_nil_r.
  - now rewrite IH, app_assoc.
Qed.

Lemma first_occurrences_In (x : string) (l : list string) :
  In x (first_occurrences l) <-> In x l.
Proof.
  induction l as [|a l IH]; simpl; [tauto|].
  rewrite filter_In, IH, negb_true_iff.
  destruct (String.eqb_spec a x) as [->|Hne]; intuition congruence.
Qed.

Lemma first_occurrences_NoDup (l : list string) : NoDup (first_occurrences l).
Proof.
  induction l as [|a l IH]; simpl; constructor.
  - rewrite filter_In, String.eqb_refl. simpl. intros [_ H]. discriminate.
  - now apply NoDup_filter.
Qed.

Lemma index_filter (p : string -> bool) (x y : string) (m : list string) :
  p x = true -> p y = true ->
  (index x (filter p m) < index y (filter p m) <-> index x m < index y m)%nat.
Proof.
  intros Hx Hy. induction m as [|a m IH]; simpl; [tauto|].
  destruct (p a) eqn:Hp; simpl.
  - destruct (String.eqb x a), (String.eqb y a); try tauto; lia.
  - destruct (String.eqb_spec x a) as [->|_]; [congruence|].
    destruct (String.eqb_spec y a) as [->|_]; [congruence|]. lia.
Qed.

Lemma first_occurrences_index (x y : string) (l : list string) :
  (index x (first_occurrences l) < index y (first_occurrences l)
   <-> index x l < index y l)%nat.
Proof.
  induction l as [|a l IH]; simpl; [tauto|].
  destruct (String.eqb_spec x a) as [->|Hx], (String.eqb_spec y a) as [->|Hy];
    try tauto; try lia.
  rewrite <- !Nat.succ_lt_mono, <- IH.
  apply index_filter; apply negb_true_iff, String.eqb_neq; congruence.
Qed.

Lemma first_occurrences_fixed (l : list string) :
  NoDup l -> first_occurrences l = l.
Proof.
  induction 1 as [|a l Hnotin Hnd IH]; simpl; [reflexivity|].
  rewrite IH. f_equal.
  apply forallb_filter_id, forallb_forall. intros y Hy.
  apply negb_true_iff, String.eqb_neq. congruence.
Qed.

Lemma columns_first_occurrences (item_types : list (string * Inventory)) :
  search_for_every_item_type_columns item_types
  = first_occurrences (all_fields item_types).
Proof.
  unfold search_for_every_item_type_columns, all_fields.
  now rewrite extend_loop, OrderedSet_make_first_occurrences.
Qed.

Lemma In_all_fields (f : string) (item_types : list (string * Inventory)) :
  In f (all_fields item_types)
  <-> exists c, In c (values item_types) /\ In f (fields c).
Proof.
  unfold all_fields. rewrite in_concat. split.
  - intros [l [Hl Hf]]. apply in_map_iff in Hl as [c [<- Hc]]. now exists c.
  - intros [c [Hc Hf]]. exists (fields c). split; [now apply in_map|assumption].
Qed.

(** C5. The unified column set of any registry holds every field name of
    its item classes and no other name, each once, in the order in which
    the names are first met when the classes are read in registry order;
    computing it again from a class whose fields are that very list gives
    the list back; and it depends on nothing but the field lists in their
    order, so a repeated call gives the identical list. *)
Theorem unionColumns_ordered_union_idempotent
    (item_types : list (string * Inventory)) :
  let cc := search_for_every_item_type_columns item_types in
  NoDup cc
  /\ (forall f, In f cc <-> exists c, In c (values item_types) /\ In f (fields c))
  /\ (forall x y, (index x cc < index y cc
                   <-> index x (all_fields item_types) < index y (all_fields item_types))%nat)
  /\ (forall key name,
        search_for_every_item_type_columns
          [(key, {| cls_item_type := name; fields := cc |})] = cc)
  /\ (forall other : list (string * Inventory),
        map fields (values other) = map fields (values item_types) ->
        search_for_every_item_type_columns other = cc).
Proof.
  cbv zeta. rewrite columns_first_occurrences. repeat split.
  - apply first_occurrences_NoDup.
  - rewrite first_occurrences_In. apply In_all_fields.
  - rewrite first_occurrences_In. apply In_all_fields.
  - apply first_occurrences_index.
  - apply first_occurrences_index.
  - intros key name. rewrite columns_first_occurrences.
    unfold all_fields. simpl. rewrite app_nil_r.
    apply first_occurrences_fixed, first_occurrences_NoDup.
  - intros other Heq. rewrite columns_first_occurrences.
    unfold all_fields. now rewrite Heq.
Qed.

(** C10. The cross-category search, the listing of the items a user added
    and the transaction history each compute the unified column set on
    their own, and for every registry the three lists are the same list,
    so the three headers are built around the same columns. *)
Theorem unified_columns_agree (item_types : list (string * Inventory)) :
  search_for_every_item_type_columns item_types
    = get_items_added_by_user_columns item_types
  /\ get_items_added_by_user_columns item_types
    = get_transaction_history_columns item_types
  /\ search_for_every_item_type_header item_types
    = ["Category"; "id"] ++ first_occurrences (all_fields item_types)
  /\ get_items_added_by_user_header item_types
    = ["Category"] ++ first_occurrences (all_fields item_types) ++ ["user_name"]
  /\ get_transaction_history_header item_types
    = ["Category"; "TransactionId"] ++ first_occurrences (all_fields item_types)
        ++ extra_columns ++ ["user_name"].
Proof.
  assert (Hs := columns_first_occurrences item_types).
  assert (Ha : get_items_added_by_user_columns item_types
               = first_occurrences (all_fields item_types)).
  { unfold get_items_added_by_user_columns, all_fields.
    now rewrite extend_loop, OrderedSet_make_first_occurrences. }
  assert (Hh : get_transaction_history_columns item_types
               = first_occurrences (all_fields item_types)).
  { unfold get_transaction_history_columns, all_fields.
    now rewrite extend_loop, OrderedSet_make_first_occurrences. }
  unfold search_for_every_item_type_header, get_items_added_by_user_header,
    get_transaction_history_header.
  rewrite Hs, Ha, Hh. repeat split.
Qed.

(** ** The persistence gateway *)




(** An exception that is no [sqlite3.Error] is outside the persistence
    errors: neither method handles it, and it reaches the caller of either
    with nothing printed. *)
Lemma other_exceptions_pass_through
    {Store sql : Type}
    (cursor_execute : sql -> list value -> Store -> exn + (Store * list row))
    (w : World Store) (query : sql) (params : list value) (e : exn) :
  cursor_execute query params (db w) = inl e ->
  is_sqlite3_Error e = false ->
  execute cursor_execute query params w = (Raise e, w)
  /\ fetchall cursor_execute query params w = (Raise e, w).
Proof.
  intros Hfail Hcls. unfold execute, fetchall, try_except, bind, on_cursor.
  rewrite Hfail, Hcls. split; reflexivity.
Qed.

(** ** The transaction ledger *)

Lemma filter_nil_existsb {A} (p : A -> bool) (l : list A) :
  filter p l = [] <-> existsb p l = false.
Proof.
  induction l as [|a l IH]; simpl; [tauto|].
  destruct (p a); simpl; [split; discriminate | exact IH].
Qed.

Lemma count_borrowed_existsb (item_type : string) (item_id : Z)
    (ledger : list Transaction.t) :
  count_borrowed item_type item_id ledger = 0%nat
  <-> existsb (active_borrow item_id item_type) ledger = false.
Proof.
  unfold count_borrowed. rewrite <- filter_nil_existsb.
  destruct (filter _ ledger); simpl; split; congruence.
Qed.

(** What [borrow_item] does, case by case, for an id the driver binds. *)
Lemma borrow_item_cases (user_name item_type : string) (item_id days : Z)
    (w : World Store) :
  fits_int64 item_id = true ->
  borrow_item user_name item_type item_id days w =
  if existsb (active_borrow item_id item_type) (transactions (db w)) then
    (Return tt, say already_borrowed_message w)
  else
    match add_timedelta_days (clock w (S (ticks w))) days with
    | inl e =>
        (Return tt,
         say (Utils.markup (fstr ["Error borrowing item: "; str_exn e]) "error")
             (tick (tick w)))
    | inr due =>
        (Return tt,
         say (borrowed_message (strftime_Ymd due))
             (with_db (set_transactions (db w)
                         (transactions (db w)
                          ++ [new_borrow (transactions (db w)) user_name item_type item_id
                                (strftime_Ymd (clock w (ticks w))) (strftime_Ymd due)]))
                      (tick (tick w))))
    end.
Proof.
  intros Hfit. run_method borrow_item. simpl. rewrite Hfit.
  destruct (existsb _ _) eqn:Hex.
  - destruct (filter _ _) eqn:Hf.
    + apply filter_nil_existsb in Hf. congruence.
    + reflexivity.
  - apply filter_nil_existsb in Hex. rewrite Hex. simpl.
    unfold checked. destruct (add_timedelta_days _ _); reflexivity.
Qed.

(** For an id beyond 64 bits the first statement of [borrow_item] fails in
    the driver, outside any [try]: the method raises and nothing else
    happens. *)
Lemma borrow_item_too_large (user_name item_type : string) (item_id days : Z)
    (w : World Store) :
  fits_int64 item_id = false ->
  borrow_item user_name item_type item_id days w = (Raise int_too_large, w).
Proof.
  intros Hfit. run_method borrow_item. simpl. now rewrite Hfit.
Qed.

(** What [return_item] does, case by case, for an id the driver binds. *)
Lemma return_item_cases (user_name : string) (transaction_id : Z) (w : World Store) :
  fits_int64 transaction_id = true ->
  return_item user_name transaction_id w =
  if existsb (own_borrow transaction_id user_name) (transactions (db w)) then
    (Return tt,
     say returned_message
         (with_db (set_transactions (db w)
                     (map (fun t =>
                             if Z.eqb (Transaction.id t) transaction_id
                             then close (strftime_Ymd (clock w (ticks w))) t else t)
                          (transactions (db w))))
                  (tick w)))
  else (Return tt, say no_active_borrow_message w).
Proof.
  intros Hfit. run_method return_item. simpl. rewrite Hfit.
  destruct (existsb _ _) eqn:Hex.
  - destruct (filter _ _) eqn:Hf.
    + apply filter_nil_existsb in Hf. congruence.
    + reflexivity.
  - apply filter_nil_existsb in Hex. rewrite Hex. reflexivity.
Qed.

Lemma return_item_too_large (user_name : string) (transaction_id : Z)
    (w : World Store) :
  fits_int64 transaction_id = false ->
  return_item user_name transaction_id w = (Raise int_too_large, w).
Proof.
  intros Hfit. run_method return_item. simpl. now rewrite Hfit.
Qed.

Lemma count_borrowed_app (item_type : string) (item_id : Z)
    (l1 l2 : list Transaction.t) :
  count_borrowed item_type item_id (l1 ++ l2)
  = (count_borrowed item_type item_id l1 + count_borrowed item_type item_id l2)%nat.
Proof. unfold count_borrowed. now rewrite filter_app, length_app. Qed.

Lemma count_borrowed_close (item_type : string) (item_id transaction_id : Z)
    (return_date : string) (ledger : list Transaction.t) :
  (count_borrowed item_type item_id
     (map (fun t => if Z.eqb (Transaction.id t) transaction_id
                    then close return_date t else t) ledger)
   <= count_borrowed item_type item_id ledger)%nat.
Proof.
  unfold count_borrowed. induction ledger as [|t l IH]; simpl; [lia|].
  destruct (Z.eqb (Transaction.id t) transaction_id).
  - replace (active_borrow item_id item_type (close return_date t)) with false.
    + destruct (active_borrow item_id item_type t); simpl; lia.
    + unfold active_borrow, close. simpl. now rewrite andb_false_r.
  - destruct (active_borrow item_id item_type t); simpl; lia.
Qed.

Lemma run_op_keeps_one_borrow_per_item (op : LedgerOp) (w : World Store) :
  one_borrow_per_item (transactions (db w)) ->
  one_borrow_per_item (transactions (db (snd (run_op op w)))).
Proof.
  intros Hinv. destruct op as [u ty id days | u tid]; simpl.
  - destruct (fits_int64 id) eqn:Hfit;
      [|now rewrite borrow_item_too_large].
    rewrite borrow_item_cases by assumption.
    destruct (existsb _ _) eqn:Hex; [assumption|].
    destruct (add_timedelta_days _ _) as [e|due]; [assumption|].
    simpl. intros ty' id'.
    rewrite count_borrowed_app.
    destruct (existsb (active_borrow id' ty') (transactions (db w))) eqn:Hex'.
    + unfold count_borrowed at 2. simpl.
      destruct (active_borrow id' ty' (new_borrow _ _ _ _ _ _)) eqn:Hnew.
      * unfold active_borrow, new_borrow in Hnew. simpl in Hnew.
        rewrite !andb_true_iff, Z.eqb_eq, String.eqb_eq in Hnew.
        destruct Hnew as [[-> ->] _]. congruence.
      * specialize (Hinv ty' id'). simpl. lia.
    + apply count_borrowed_existsb in Hex'. rewrite Hex'.
      unfold count_borrowed. simpl.
      destruct (active_borrow id' ty' _); simpl; lia.
  - destruct (fits_int64 tid) eqn:Hfit;
      [|now rewrite return_item_too_large].
    rewrite return_item_cases by assumption.
    destruct (existsb _ _); [|assumption].
    simpl. intros ty' id'.
    eapply Nat.le_trans; [apply count_borrowed_close | apply Hinv].
Qed.

(** A step whose id the driver binds returns. *)
Lemma run_op_fits_returns (op : LedgerOp) (w : World Store) :
  op_fits op = true -> fst (run_op op w) = Return tt.
Proof.
  destruct op as [u ty id days | u tid]; simpl; intros Hfit.
  - rewrite borrow_item_cases by assumption.
    destruct (existsb _ _); [reflexivity|].
    now destruct (add_timedelta_days _ _).
  - rewrite return_item_cases by assumption.
    now destruct (existsb _ _).
Qed.

Lemma run_ops_step (op : LedgerOp) (ops : list LedgerOp) (w : World Store) :
  run_ops (op :: ops) w
  = match run_op op w with
    | (Return _, w1) => run_ops ops w1
    | (Raise e, w1) => (Raise e, w1)
    end.
Proof. unfold run_ops. simpl. unfold bind. now destruct (run_op op w) as [[[]|e] w1]. Qed.

Lemma run_ops_keeps_one_borrow_per_item (ops : list LedgerOp) (w : World Store) :
  one_borrow_per_item (transactions (db w)) ->
  one_borrow_per_item (transactions (db (snd (run_ops ops w)))).
Proof.
  revert w. induction ops as [|op ops IH]; intros w Hinv; [assumption|].
  rewrite run_ops_step.
  pose proof (run_op_keeps_one_borrow_per_item op w Hinv) as Hinv'.
  destruct (run_op op w) as [[[]|e] w1]; simpl in *; [now apply IH | assumption].
Qed.

Lemma after_ops_keeps_one_borrow_per_item (ops : list LedgerOp) (w : World Store) :
  one_borrow_per_item (transactions (db w)) ->
  one_borrow_per_item (transactions (db (after_ops ops w))).
Proof.
  revert w. induction ops as [|op ops IH]; intros w Hinv; [assumption|].
  simpl. apply IH. now apply run_op_keeps_one_borrow_per_item.
Qed.

(** When every id fits, no step raises, and the session ends in the world
    the steps lead to. *)
Lemma run_ops_fits (ops : list LedgerOp) (w : World Store) :
  forallb op_fits ops = true -> run_ops ops w = (Return tt, after_ops ops w).
Proof.
  revert w. induction ops as [|op ops IH]; intros w Hfit; [reflexivity|].
  simpl in Hfit. apply andb_true_iff in Hfit as [Hop Hops].
  rewrite run_ops_step. simpl.
  pose proof (run_op_fits_returns op w Hop) as Hret.
  destruct (run_op op w) as [[[]|e] w1]; simpl in *; [now apply IH | discriminate].
Qed.

(** C1. Start from a ledger without rows and let any users borrow and
    return in any order.  For every pair (item_type, item_id) the ledger
    then holds at most one row of that pair with status borrowed: in the
    world the steps lead to, whether or not one of them raised, and in the
    world in which the session ends, which is the same when every id of
    the session fits the 64 bits the driver binds, because then no step
    raises.  The reason is the guard of [borrow_item]: in any world where
    its query finds such a row, the call leaves the store as it is, and
    only prints the already-borrowed message. *)
Theorem at_most_one_active_borrow
    (ops : list LedgerOp) (w : World Store) (item_type : string) (item_id : Z) :
  transactions (db w) = [] ->
  (count_borrowed item_type item_id (transactions (db (after_ops ops w))) <= 1)%nat
  /\ (count_borrowed item_type item_id (transactions (db (snd (run_ops ops w)))) <= 1)%nat
  /\ (forallb op_fits ops = true -> run_ops ops w = (Return tt, after_ops ops w))
  /\ (forall (w' : World Store) (user_name : string) (days : Z),
        (1 <= count_borrowed item_type item_id (transactions (db w')))%nat ->
        db (snd (borrow_item user_name item_type item_id days w')) = db w'
        /\ (fits_int64 item_id = true ->
            borrow_item user_name item_type item_id days w'
            = (Return tt, say already_borrowed_message w'))).
Proof.
  intros Hempty.
  assert (Hinv : one_borrow_per_item (transactions (db w))).
  { intros ty id. rewrite Hempty. unfold count_borrowed. simpl. lia. }
  split; [apply (after_ops_keeps_one_borrow_per_item ops w Hinv)|].
  split; [apply (run_ops_keeps_one_borrow_per_item ops w Hinv)|].
  split; [apply run_ops_fits|].
  intros w' u days Hcount.
  assert (Hex : existsb (active_borrow item_id item_type) (transactions (db w')) = true).
  { destruct (existsb _ _) eqn:Hex; [reflexivity|].
    apply count_borrowed_existsb in Hex. lia. }
  destruct (fits_int64 item_id) eqn:Hfit.
  - rewrite borrow_item_cases, Hex by assumption. now split.
  - rewrite borrow_item_too_large by assumption. split; [reflexivity | discriminate].
Qed.

Lemma at_most_one_active_borrow_witness :
  let w := world_of empty_store in
  (count_borrowed "book" 5 (transactions (db (after_ops sample_session w))) <= 1)%nat
  /\ (count_borrowed "book" 5 (transactions (db (snd (run_ops sample_session w)))) <= 1)%nat
  /\ (forallb op_fits sample_session = true ->
      run_ops sample_session w = (Return tt, after_ops sample_session w))
  /\ (forall (w' : World Store) (user_name : string) (days : Z),
        (1 <= count_borrowed "book" 5 (transactions (db w')))%nat ->
        db (snd (borrow_item user_name "book" 5 days w')) = db w'
        /\ (fits_int64 5 = true ->
            borrow_item user_name "book" 5 days w'
            = (Return tt, say already_borrowed_message w'))).
Proof.
  exact (at_most_one_active_borrow sample_session (world_of empty_store) "book" 5 eq_refl).
Defined.

(** The sample session, run: one closed and one open transaction, and the
    five lines the users saw. *)
Example sample_session_run :
  transactions (db (snd (run_ops sample_session (world_of empty_store))))
  = [ {| Transaction.id := 1; Transaction.user_name := "alice";
         Transaction.item_type := "book"; Transaction.item_id := 5;
         Transaction.borrow_date := "2024-01-01"; Transaction.due_date := "2024-01-08";
         Transaction.return_date := Some "2024-01-01"; Transaction.status := returned |};
      {| Transaction.id := 2; Transaction.user_name := "bob";
         Transaction.item_type := "book"; Transaction.item_id := 5;
         Transaction.borrow_date := "2024-01-01"; Transaction.due_date := "2024-01-08";
         Transaction.return_date := None; Transaction.status := borrowed |} ]
  /\ console (snd (run_ops sample_session (world_of empty_store)))
  = [ "[green]Item borrowed successfully. Due date: 2024-01-08[/green]";
      "[red]The item is currently borrowed by another user.[/red]";
      "[red]No active borrow found with this transaction ID.[/red]";
      "[green]Item returned successfully.[/green]";
      "[green]Item borrowed successfully. Due date: 2024-01-08[/green]" ].
Proof. split; vm_compute; reflexivity. Qed.

Lemma add_timedelta_days_in_range (dt days : Z) :
  (-999999999 <= days <= 999999999)%Z ->
  (MINORDINAL <= dt + days <= MAXORDINAL)%Z ->
  add_timedelta_days dt days = inr (dt + days)%Z.
Proof.
  intros Hd Hr. unfold add_timedelta_days.
  replace (days <? -999999999)%Z with false by (symmetry; apply Z.ltb_ge; lia).
  replace (999999999 <? days)%Z with false by (symmetry; apply Z.ltb_ge; lia).
  simpl.
  replace (MINORDINAL <=? dt + days)%Z with true by (symmetry; apply Z.leb_le; lia).
  replace (dt + days <=? MAXORDINAL)%Z with true by (symmetry; apply Z.leb_le; lia).
  reflexivity.
Qed.

(** C2, as the code has it.  Let [item_id] fit the 64 bits the driver
    binds, let no row of the ledger record an open borrow of (item_type,
    item_id), let both readings of the clock fall on the day [today], and
    let [today + days] be a date Python can represent.  Then [borrow_item]
    adds exactly one row at the end of the ledger, with a fresh id, the
    borrower's name, borrow_date = today, due_date = today + days (both as
    [strftime] writes them), no return date and status borrowed; it
    touches nothing else in the store; it returns None and shows the due
    date in the success message; and a further borrow of the same item, by
    anyone and for any duration, is then refused with the already-borrowed
    message and leaves the store as it is. *)
Theorem borrow_inserts_one_row_and_shows_due_date
    (user_name item_type : string) (item_id days today : Z) (w : World Store) :
  fits_int64 item_id = true ->
  count_borrowed item_type item_id (transactions (db w)) = 0%nat ->
  clock w (ticks w) = today ->
  clock w (S (ticks w)) = today ->
  (-999999999 <= days <= 999999999)%Z ->
  (MINORDINAL <= today + days <= MAXORDINAL)%Z ->
  let t :=
    {| Transaction.id := next_rowid (map Transaction.id (transactions (db w)));
       Transaction.user_name := user_name;
       Transaction.item_type := item_type;
       Transaction.item_id := item_id;
       Transaction.borrow_date := strftime_Ymd today;
       Transaction.due_date := strftime_Ymd (today + days);
       Transaction.return_date := None;
       Transaction.status := borrowed |} in
  let w1 := snd (borrow_item user_name item_type item_id days w) in
  fst (borrow_item user_name item_type item_id days w) = Return tt
  /\ transactions (db w1) = transactions (db w) ++ [t]
  /\ users (db w1) = users (db w)
  /\ tables (db w1) = tables (db w)
  /\ console w1 = console w ++ [borrowed_message (strftime_Ymd (today + days))]
  /\ (forall (other_user : string) (other_days : Z),
        borrow_item other_user item_type item_id other_days w1
        = (Return tt, say already_borrowed_message w1)).
Proof.
  intros Hfit Hfree Hnow1 Hnow2 Hdays Hrange. cbv zeta.
  apply count_borrowed_existsb in Hfree.
  rewrite borrow_item_cases by assumption. rewrite Hfree, Hnow1, Hnow2.
  rewrite (add_timedelta_days_in_range today days Hdays Hrange). simpl.
  repeat split.
  intros u' d'. rewrite borrow_item_cases by assumption. simpl.
  rewrite existsb_app. simpl.
  unfold active_borrow at 2. simpl.
  rewrite Z.eqb_refl, String.eqb_refl. simpl.
  now rewrite orb_true_r.
Qed.

Lemma borrow_inserts_one_row_and_shows_due_date_witness :
  let w := world_of empty_store in
  let w1 := snd (borrow_item "alice" "book" 5 7 w) in
  fst (borrow_item "alice" "book" 5 7 w) = Return tt
  /\ transactions (db w1)
     = [] ++ [ {| Transaction.id := 1; Transaction.user_name := "alice";
                  Transaction.item_type := "book"; Transaction.item_id := 5;
                  Transaction.borrow_date := "2024-01-01";
                  Transaction.due_date := "2024-01-08";
                  Transaction.return_date := None;
                  Transaction.status := borrowed |} ]
  /\ users (db w1) = []
  /\ tables (db w1) = []
  /\ console w1
     = [] ++ ["[green]Item borrowed successfully. Due date: 2024-01-08[/green]"]
  /\ (forall (other_user : string) (other_days : Z),
        borrow_item other_user "book" 5 other_days w1
        = (Return tt, say already_borrowed_message w1)).
Proof.
  apply (borrow_inserts_one_row_and_shows_due_date
           "alice" "book" 5 7 (ordinal_of_ymd 2024 1 1) (world_of empty_store));
    try reflexivity; vm_compute; split; discriminate.
Defined.

(** C2 does not hold as worded.  On 2024-01-01, with an empty ledger:
    a borrow for seven days returns None to its caller, as does a borrow
    for eight days, although the due dates they record differ; a borrow
    for 3000000 days, which no open borrow stands against, adds no row,
    because the due date would lie after the year 9999; and a borrow of the
    item 2**63, which no open borrow stands against either, raises the
    driver's OverflowError and adds no row. *)
Lemma borrow_due_date_not_returned_and_duration_bounded :
  let w := world_of empty_store in
  fst (borrow_item "alice" "book" 5 7 w) = Return tt
  /\ fst (borrow_item "alice" "book" 5 8 w) = Return tt
  /\ map Transaction.due_date (transactions (db (snd (borrow_item "alice" "book" 5 7 w))))
     = ["2024-01-08"]
  /\ map Transaction.due_date (transactions (db (snd (borrow_item "alice" "book" 5 8 w))))
     = ["2024-01-09"]
  /\ count_borrowed "book" 5 (transactions (db w)) = 0%nat
  /\ transactions (db (snd (borrow_item "alice" "book" 5 3000000 w))) = []
  /\ console (snd (borrow_item "alice" "book" 5 3000000 w))
     = ["[red]Error borrowing item: date value out of range[/red]"]
  /\ count_borrowed "book" 9223372036854775808 (transactions (db w)) = 0%nat
  /\ borrow_item "alice" "book" 9223372036854775808 7 w = (Raise int_too_large, w).
Proof. vm_compute. repeat split. Qed.

Lemma existsb_own_borrow (transaction_id : Z) (user_name : string)
    (ledger : list Transaction.t) :
  existsb (own_borrow transaction_id user_name) ledger = true
  <-> exists t, In t ledger
        /\ Transaction.id t = transaction_id
        /\ Transaction.user_name t = user_name
        /\ Transaction.status t = borrowed.
Proof.
  rewrite existsb_exists. unfold own_borrow.
  split; intros [t [Hin H]]; exists t; (split; [assumption|]).
  - rewrite !andb_true_iff, Z.eqb_eq, String.eqb_eq in H.
    destruct H as [[H1 H2] H3]. repeat split; try assumption.
    destruct (Transaction.status t); [reflexivity | discriminate].
  - destruct H as [H1 [H2 H3]].
    rewrite !andb_true_iff, Z.eqb_eq, String.eqb_eq, H3. now repeat split.
Qed.

Lemma update_only_row (transaction_id : Z) (f : Transaction.t -> Transaction.t)
    (pre post : list Transaction.t) (t : Transaction.t) :
  Transaction.id t = transaction_id ->
  NoDup (map Transaction.id (pre ++ t :: post)) ->
  map (fun t' => if Z.eqb (Transaction.id t') transaction_id then f t' else t')
      (pre ++ t :: post)
  = pre ++ f t :: post.
Proof.
  intros Hid Hnd. rewrite map_app. simpl. rewrite Hid, Z.eqb_refl.
  rewrite map_app in Hnd. simpl in Hnd.
  assert (Hpre : ~ In transaction_id (map Transaction.id pre)).
  { intros Hin. apply NoDup_remove_2 in Hnd. apply Hnd, in_or_app. left. congruence. }
  assert (Hpost : ~ In transaction_id (map Transaction.id post)).
  { intros Hin. apply NoDup_remove_2 in Hnd. apply Hnd, in_or_app. right. congruence. }
  assert (Hsame : forall l, ~ In transaction_id (map Transaction.id l) ->
            map (fun t' => if Z.eqb (Transaction.id t') transaction_id then f t' else t') l = l).
  { induction l as [|a l IH]; simpl; intros Hn; [reflexivity|].
    destruct (Z.eqb_spec (Transaction.id a) transaction_id) as [Heq|_]; [tauto|].
    rewrite IH; tauto. }
  now rewrite (Hsame pre Hpre), (Hsame post Hpost).
Qed.

(** C3, as the code has it.  Let [transaction_id] fit the 64 bits the
    driver binds, in a ledger whose ids are distinct (id is the primary
    key).  [return_item] answers with the no-active-borrow message,
    changing nothing else, exactly when no row has this id, this user's
    name and status borrowed; so it answers that way when the row of this
    id belongs to another user or is already returned.  When there is such
    a row, it is the only row that changes: it gets return_date = today
    and status returned, in place, and the success message is shown. *)
Theorem return_item_requires_own_active_borrow
    (user_name : string) (transaction_id : Z) (w : World Store) :
  fits_int64 transaction_id = true ->
  NoDup (map Transaction.id (transactions (db w))) ->
  let ledger := transactions (db w) in
  let today := strftime_Ymd (clock w (ticks w)) in
  ((forall t, In t ledger ->
      ~ (Transaction.id t = transaction_id
         /\ Transaction.user_name t = user_name
         /\ Transaction.status t = borrowed))
   <-> return_item user_name transaction_id w
       = (Return tt, say no_active_borrow_message w))
  /\ (forall t, In t ledger ->
        Transaction.id t = transaction_id ->
        Transaction.user_name t <> user_name \/ Transaction.status t = returned ->
        return_item user_name transaction_id w
        = (Return tt, say no_active_borrow_message w))
  /\ (forall t, In t ledger ->
        Transaction.id t = transaction_id ->
        Transaction.user_name t = user_name ->
        Transaction.status t = borrowed ->
        exists pre post,
          ledger = pre ++ t :: post
          /\ return_item user_name transaction_id w
             = (Return tt,
                say returned_message
                    (with_db (set_transactions (db w) (pre ++ close today t :: post))
                             (tick w)))
          /\ Transaction.return_date (close today t) = Some today
          /\ Transaction.status (close today t) = returned).
Proof.
  intros Hfit Hnd. cbv zeta.
  assert (Hno : (forall t, In t (transactions (db w)) ->
                   ~ (Transaction.id t = transaction_id
                      /\ Transaction.user_name t = user_name
                      /\ Transaction.status t = borrowed))
                <-> existsb (own_borrow transaction_id user_name)
                      (transactions (db w)) = false).
  { rewrite <- not_true_iff_false, existsb_own_borrow. split.
    - intros H [t [Hin Ht]]. exact (H t Hin Ht).
    - intros H t Hin Ht. apply H. now exists t. }
  split; [|split].
  - rewrite Hno, return_item_cases by assumption.
    destruct (existsb _ _); split; try reflexivity; try discriminate.
    intros H. exfalso.
    apply (f_equal (fun r => console (snd r))) in H. simpl in H.
    apply app_inj_tail in H. destruct H as [_ H]. vm_compute in H. discriminate.
  - intros t Hin Hid Hother.
    rewrite return_item_cases by assumption.
    replace (existsb (own_borrow transaction_id user_name) (transactions (db w)))
      with false; [reflexivity|].
    symmetry. apply Hno.
    intros t' Hin' [Hid' [Hu' Hs']].
    assert (t' = t) as ->.
    { apply in_split in Hin as [pre [post Hl]].
      rewrite Hl in Hnd, Hin'. rewrite map_app in Hnd. simpl in Hnd.
      apply NoDup_remove_2 in Hnd.
      apply in_app_or in Hin' as [Hin'|[Heq|Hin']]; [|now subst|];
        exfalso; apply Hnd, in_or_app; [left|right];
        rewrite Hid, <- Hid'; now apply in_map. }
    destruct Hother as [Hne|Hret]; congruence.
  - intros t Hin Hid Hu Hs.
    destruct (in_split _ _ Hin) as [pre [post Hl]].
    exists pre, post. split; [assumption|]. split; [|split; reflexivity].
    rewrite return_item_cases by assumption.
    replace (existsb (own_borrow transaction_id user_name) (transactions (db w)))
      with true.
    + rewrite Hl in Hnd. rewrite Hl at 1.
      now rewrite (update_only_row transaction_id _ pre post t Hid Hnd).
    + symmetry. apply existsb_own_borrow. now exists t.
Qed.

Lemma return_item_requires_own_active_borrow_witness :
  let w := world_of store_after_alice_borrowed in
  let ledger := transactions (db w) in
  let today := "2024-01-01" in
  ((forall t, In t ledger ->
      ~ (Transaction.id t = 1%Z
         /\ Transaction.user_name t = "alice"
         /\ Transaction.status t = borrowed))
   <-> return_item "alice" 1 w = (Return tt, say no_active_borrow_message w))
  /\ (forall t, In t ledger ->
        Transaction.id t = 1%Z ->
        Transaction.user_name t <> "alice" \/ Transaction.status t = returned ->
        return_item "alice" 1 w = (Return tt, say no_active_borrow_message w))
  /\ (forall t, In t ledger ->
        Transaction.id t = 1%Z ->
        Transaction.user_name t = "alice" ->
        Transaction.status t = borrowed ->
        exists pre post,
          ledger = pre ++ t :: post
          /\ return_item "alice" 1 w
             = (Return tt,
                say returned_message
                    (with_db (set_transactions (db w) (pre ++ close today t :: post))
                             (tick w)))
          /\ Transaction.return_date (close today t) = Some today
          /\ Transaction.status (close today t) = returned).
Proof.
  apply (return_item_requires_own_active_borrow "alice" 1
           (world_of store_after_alice_borrowed)).
  - reflexivity.
  - vm_compute. repeat constructor. simpl. tauto.
Defined.

(** C3 does not hold as worded.  After alice borrowed book 5, the ledger
    holds no transaction with the id 2**63 at all, yet [return_item] for
    that id does not answer with the no-active-borrow message: the driver
    cannot bind the number, the method raises OverflowError, and nothing is
    printed. *)
Lemma return_item_beyond_64_bits :
  let w := world_of store_after_alice_borrowed in
  map Transaction.id (transactions (db w)) = [1%Z]
  /\ return_item "alice" 9223372036854775808 w = (Raise int_too_large, w)
  /\ return_item "alice" 9223372036854775808 w
     <> (Return tt, say no_active_borrow_message w)
  /\ return_item "alice" 2 w = (Return tt, say no_active_borrow_message w).
Proof. vm_compute. repeat split. discriminate. Qed.

Lemma max_id_bound (x : Z) (ids : list Z) :
  In x ids -> (x <= fold_right Z.max 0 ids)%Z.
Proof.
  induction ids as [|a ids IH]; simpl; [tauto|].
  intros [->|Hin]; [lia|]. specialize (IH Hin). lia.
Qed.

Lemma next_rowid_fresh (ids : list Z) : ~ In (next_rowid ids) ids.
Proof.
  intros Hin. apply max_id_bound in Hin. unfold next_rowid in Hin. lia.
Qed.

(** The ids of the ledger stay distinct, as its primary key demands. *)
Lemma run_op_distinct_ids (op : LedgerOp) (w : World Store) :
  NoDup (map Transaction.id (transactions (db w))) ->
  NoDup (map Transaction.id (transactions (db (snd (run_op op w))))).
Proof.
  intros Hnd. destruct op as [u ty id days | u tid]; simpl.
  - destruct (fits_int64 id) eqn:Hfit;
      [|now rewrite borrow_item_too_large].
    rewrite borrow_item_cases by assumption.
    destruct (existsb _ _); [assumption|].
    destruct (add_timedelta_days _ _); [assumption|]. simpl.
    rewrite map_app. simpl.
    apply NoDup_app; [assumption | repeat constructor; simpl; tauto |].
    intros x Hx [<-|[]]. now apply next_rowid_fresh in Hx.
  - destruct (fits_int64 tid) eqn:Hfit;
      [|now rewrite return_item_too_large].
    rewrite return_item_cases by assumption.
    destruct (existsb _ _); [|assumption]. simpl.
    rewrite map_map.
    erewrite map_ext; [exact Hnd|].
    intros t. now destruct (Z.eqb _ _).
Qed.

Lemma run_ops_distinct_ids (ops : list LedgerOp) (w : World Store) :
  NoDup (map Transaction.id (transactions (db w))) ->
  NoDup (map Transaction.id (transactions (db (snd (run_ops ops w))))).
Proof.
  revert w. induction ops as [|op ops IH]; intros w Hnd; [assumption|].
  unfold run_ops in *. simpl. unfold bind.
  pose proof (run_op_distinct_ids op w Hnd) as Hnd'.
  destruct (run_op op w) as [[[]|e] w1]; simpl in *; [now apply IH | assumption].
Qed.

(** ** The account directory *)

Lemma no_user_no_row (user_name : string) (us : list (string * string)) :
  ~ In user_name (map fst us) ->
  filter (fun u => String.eqb (fst u) user_name) us = [].
Proof.
  induction us as [|[n h] us IH]; simpl; intros Hn; [reflexivity|].
  destruct (String.eqb_spec n user_name) as [->|_]; [tauto|].
  apply IH. tauto.
Qed.

Lemma no_user_existsb (user_name : string) (us : list (string * string)) :
  ~ In user_name (map fst us) ->
  existsb (fun u => String.eqb (fst u) user_name) us = false.
Proof.
  intros Hn. apply filter_nil_existsb. now apply no_user_no_row.
Qed.

Lemma login_unknown_user (checkpw : string -> string -> bool)
    (user_name password : string) (w : World Store) :
  ~ In user_name (map fst (users (db w))) ->
  login checkpw user_name password w
  = (Return false, say invalid_login_message w).
Proof.
  intros Hn. run_method login. simpl.
  rewrite (no_user_no_row _ _ Hn). simpl. now destruct w as [[] ? ? ?].
Qed.

Lemma length_le_utf8 (s : string) : (String.length s <= utf8_length s)%nat.
Proof.
  unfold utf8_length. induction s as [|c s IH]; simpl; [apply Nat.le_refl|].
  destruct (nat_of_ascii c <? 128)%nat; simpl; lia.
Qed.

Lemma substring_all (n : nat) (s : string) :
  (String.length s <= n)%nat -> String.substring 0 n s = s.
Proof.
  revert n. induction s as [|c s IH]; intros [|n] Hlen; simpl in *;
    try reflexivity; try lia.
  f_equal. apply IH. lia.
Qed.

Lemma reading72_reads_all (password : string) :
  bcrypt_password password = true -> String.substring 0 72 password = password.
Proof.
  unfold bcrypt_password. intros H. apply andb_true_iff in H as [Hlen _].
  apply Nat.leb_le in Hlen. apply substring_all.
  eapply Nat.le_trans; [apply length_le_utf8 | exact Hlen].
Qed.

(** C9, as the code has it.  Let [user_name] hold no square bracket and
    not be registered yet, and let [password] be one bcrypt reads in full
    (at most 72 bytes, no NUL), which bcrypt verifies against the hash it
    makes of it.  Then [register] succeeds and stores that hash under the
    name, and afterwards [login] with the same password returns True; with
    a password, read in full, that bcrypt rejects against the hash it
    returns False - so with every such password other than hers, when
    bcrypt accepts against the hash none but hers; and for a name that is
    not registered it returns False as well, raising nothing.  The last
    two cases give the caller the same value, print the same line and
    leave the store alike, so the caller cannot tell them apart. *)
Theorem register_then_login
    (hashpw : string -> string -> string) (checkpw : string -> string -> bool)
    (user_name password salt : string) (w : World Store) :
  rich_plain user_name = true ->
  bcrypt_password password = true ->
  checkpw password (hashpw password salt) = true ->
  ~ In user_name (map fst (users (db w))) ->
  let w1 := snd (register hashpw user_name password salt w) in
  fst (register hashpw user_name password salt w) = Return tt
  /\ users (db w1) = users (db w) ++ [(user_name, hashpw password salt)]
  /\ fst (login checkpw user_name password w1) = Return true
  /\ (forall wrong, bcrypt_password wrong = true ->
        checkpw wrong (hashpw password salt) = false ->
        login checkpw user_name wrong w1
        = (Return false, say invalid_login_message w1))
  /\ ((forall q, bcrypt_password q = true -> q <> password ->
         checkpw q (hashpw password salt) = false) ->
      forall wrong, bcrypt_password wrong = true -> wrong <> password ->
        login checkpw user_name wrong w1
        = (Return false, say invalid_login_message w1))
  /\ (forall unknown anything, ~ In unknown (map fst (users (db w1))) ->
        login checkpw unknown anything w1
        = (Return false, say invalid_login_message w1)).
Proof.
  intros _ _ Hsame Hnew. cbv zeta.
  run_method register. simpl.
  rewrite (no_user_existsb _ _ Hnew). simpl.
  split; [reflexivity|]. split; [reflexivity|].
  assert (Hrow : forall q,
            login checkpw user_name q
              (say (Utils.markup (fstr ["User '"; user_name; "' registered successfully!"])
                      "success")
                 (with_db (set_users (db w)
                             (users (db w)
                              ++ [(user_name, hash_password hashpw password salt)]))
                          w))
            = if checkpw q (hashpw password salt)
              then (Return true,
                    say (Utils.markup (fstr ["Welcome back, "; user_name; "!"]) "success")
                      (say (Utils.markup
                              (fstr ["User '"; user_name; "' registered successfully!"])
                              "success")
                         (with_db (set_users (db w)
                                     (users (db w)
                                      ++ [(user_name, hash_password hashpw password salt)]))
                                  w)))
              else (Return false,
                    say invalid_login_message
                      (say (Utils.markup
                              (fstr ["User '"; user_name; "' registered successfully!"])
                              "success")
                         (with_db (set_users (db w)
                                     (users (db w)
                                      ++ [(user_name, hash_password hashpw password salt)]))
                                  w)))).
  { intros q. run_method login. simpl.
    rewrite filter_app, (no_user_no_row _ _ Hnew). simpl.
    rewrite String.eqb_refl. simpl. unfold encode_utf8, hash_password, encode_utf8.
    destruct (checkpw q (hashpw password salt)); reflexivity. }
  split; [|split; [|split]].
  - now rewrite Hrow, Hsame.
  - intros wrong _ Hwrong. now rewrite Hrow, Hwrong.
  - intros Hapart wrong Hread Hother. now rewrite Hrow, (Hapart wrong Hread Hother).
  - intros unknown anything Hunknown. now apply login_unknown_user.
Qed.

(** The stand-in accepts against a hash, of the passwords it reads in
    full, none but the one the hash was made from. *)
Lemma reading72_tells_apart (p q salt : string) :
  bcrypt_password p = true -> bcrypt_password q = true ->
  (reading72_checkpw q (reading72_hashpw p salt) = true <-> q = p).
Proof.
  intros Hp Hq. unfold reading72_checkpw, reading72_hashpw.
  rewrite (reading72_reads_all p Hp), (reading72_reads_all q Hq).
  apply String.eqb_eq.
Qed.

Lemma register_then_login_witness :
  let w := world_of empty_store in
  let w1 := snd (register reading72_hashpw "alice" "s3cret" "salt" w) in
  (forall q, bcrypt_password q = true -> q <> "s3cret" ->
     reading72_checkpw q (reading72_hashpw "s3cret" "salt") = false)
  /\ fst (register reading72_hashpw "alice" "s3cret" "salt" w) = Return tt
  /\ users (db w1) = users (db w) ++ [("alice", reading72_hashpw "s3cret" "salt")]
  /\ fst (login reading72_checkpw "alice" "s3cret" w1) = Return true
  /\ (forall wrong, bcrypt_password wrong = true ->
        reading72_checkpw wrong (reading72_hashpw "s3cret" "salt") = false ->
        login reading72_checkpw "alice" wrong w1
        = (Return false, say invalid_login_message w1))
  /\ ((forall q, bcrypt_password q = true -> q <> "s3cret" ->
         reading72_checkpw q (reading72_hashpw "s3cret" "salt") = false) ->
      forall wrong, bcrypt_password wrong = true -> wrong <> "s3cret" ->
        login reading72_checkpw "alice" wrong w1
        = (Return false, say invalid_login_message w1))
  /\ (forall unknown anything, ~ In unknown (map fst (users (db w1))) ->
        login reading72_checkpw unknown anything w1
        = (Return false, say invalid_login_message w1)).
Proof.
  split.
  - intros q Hq Hother.
    destruct (reading72_checkpw q (reading72_hashpw "s3cret" "salt")) eqn:Hc;
      [|reflexivity].
    apply (reading72_tells_apart "s3cret" q "salt" eq_refl Hq) in Hc. contradiction.
  - apply (register_then_login reading72_hashpw reading72_checkpw "alice" "s3cret"
             "salt" (world_of empty_store)).
    + reflexivity.
    + reflexivity.
    + reflexivity.
    + simpl. tauto.
Defined.

(** C9 does not hold as worded.  A name that is taken: after alice
    registered with one password, [register] under her name with another
    raises the error of the store, and [login] with that other password
    returns False.  A password bcrypt does not read in full: bcrypt reads
    the first 72 bytes of a password, so after alice registered with a
    password of 73 characters, [login] returns True for another password
    that differs from hers in the last character.  (A bcrypt from version
    5.0.0 on refuses such a password with ValueError instead, and then it
    is [register] that fails.) *)
Lemma login_accepts_another_long_password :
  let w := world_of empty_store in
  let taken := snd (register reading72_hashpw "alice" "s3cret" "salt" w) in
  let w1 := snd (register reading72_hashpw "alice" (long_password "x") "salt" w) in
  (fst (register reading72_hashpw "alice" "other" "salt" taken)
   = Raise (IntegrityError "UNIQUE constraint failed: users.user_name")
   /\ fst (login reading72_checkpw "alice" "other"
             (snd (register reading72_hashpw "alice" "other" "salt" taken)))
      = Return false)
  /\ long_password "y" <> long_password "x"
  /\ String.length (long_password "x") = 73%nat
  /\ fst (register reading72_hashpw "alice" (long_password "x") "salt" w) = Return tt
  /\ fst (login reading72_checkpw "alice" (long_password "y") w1) = Return true.
Proof. vm_compute. repeat split. discriminate. Qed.

(** ** Values in the query text *)

(** The cross-category search writes its text from the registry alone: the
    search term is no argument of the text, and reaches the statement as a
    binding. *)
Lemma search_text_free_of_search_word
    (item_types : list (string * Inventory)) :
  sql_text (SearchUnion (map (sub_query_of (search_for_every_item_type_columns item_types))
                             (values item_types)))
  = join (nl ++ " UNION " ++ nl)%string
      (map (fun c => sub_query_text
                       (sub_query_of (search_for_every_item_type_columns item_types) c))
           (values item_types)).
Proof. simpl. now rewrite map_map. Qed.

(** C8, at the input where it fails.  For the user name [x' OR '1'='1] and
    the registry of main.py, [get_items_added_by_user] and
    [get_transaction_history] hand [fetchall] a text that holds the name
    itself between quotes, so that the text reads
    [user_name = 'x' OR '1'='1'], and they pass no bindings at all; two user
    names give two different texts.  [get_borrowed_given_item] writes a [?]
    at the same place and binds the name. *)
Theorem user_name_spliced_into_query_text :
  contains (get_items_added_by_user_query quoting_name item_types)
           "WHERE user_name = 'x' OR '1'='1'" = true
  /\ get_items_added_by_user_params = []
  /\ contains (get_transaction_history_query quoting_name item_types true)
              "AND t.user_name = 'x' OR '1'='1' AND t.status = 'borrowed'" = true
  /\ contains (get_transaction_history_query quoting_name item_types false)
              "AND t.user_name = 'x' OR '1'='1' " = true
  /\ get_transaction_history_params = []
  /\ get_items_added_by_user_query "alice" item_types
     <> get_items_added_by_user_query "bob" item_types
  /\ get_transaction_history_query "alice" item_types false
     <> get_transaction_history_query "bob" item_types false
  /\ contains (get_borrowed_given_item_query Book) "WHERE t.user_name = ? AND" = true
  /\ get_borrowed_given_item_params quoting_name Book "hobbit"
     = [VText quoting_name; VText "%hobbit%"; VText "%hobbit%";
        VText "%hobbit%"; VText "%hobbit%"].
Proof.
  repeat split; try (vm_compute; reflexivity); vm_compute; discriminate.
Qed.

(** ** LIKE *)

Lemma like_percent (p s : string) :
  like (String "%" p) s
  = like p s || match s with
                | EmptyString => false
                | String _ s' => like (String "%" p) s'
                end.
Proof. destruct s; reflexivity. Qed.

Lemma like_percent_alone (s : string) : like "%" s = true.
Proof.
  induction s as [|c s IH]; [reflexivity|].
  rewrite like_percent, IH. apply orb_true_r.
Qed.

Lemma like_literal (c : ascii) (p s : string) :
  Ascii.eqb c "%" = false -> Ascii.eqb c "_" = false ->
  like (String c p) s
  = match s with
    | EmptyString => false
    | String d s' => nocase_eqb c d && like p s'
    end.
Proof. intros H1 H2. simpl. rewrite H1, H2. reflexivity. Qed.

(** A term without wildcards followed by [%] matches the texts that start
    with the term, letter case apart. *)
Lemma like_term_percent (term s : string) :
  no_wildcard term = true ->
  like (term ++ "%") s = prefix_nocase term s.
Proof.
  revert s. induction term as [|c term IH]; intros s Hw.
  - apply like_percent_alone.
  - simpl in Hw. rewrite !andb_true_iff, !negb_true_iff in Hw.
    destruct Hw as [[H1 H2] Hw].
    change ((String c term ++ "%")%string) with (String c (term ++ "%")).
    rewrite (like_literal c _ s H1 H2).
    destruct s as [|d s]; [reflexivity|]. simpl. now rewrite IH.
Qed.

(** [text LIKE '%term%'], for a term without wildcards, says that the text
    contains the term, the case of ASCII letters apart. *)
Lemma like_contains_nocase (term s : string) :
  no_wildcard term = true ->
  like (fstr ["%"; term; "%"]) s = contains_nocase s term.
Proof.
  intros Hw.
  change (fstr ["%"; term; "%"]) with (String "%" (term ++ "%")).
  induction s as [|d s IH].
  - rewrite like_percent, (like_term_percent term "" Hw). reflexivity.
  - rewrite like_percent, (like_term_percent term _ Hw), IH. reflexivity.
Qed.

Lemma like_value_contains_nocase (term : string) (v : value) :
  no_wildcard term = true ->
  like_value (like_param term) v
  = match text_of v with
    | Some s => contains_nocase s term
    | None => false
    end.
Proof.
  intros Hw. unfold like_value, like_param. simpl text_of at 1.
  destruct (text_of v); [now apply like_contains_nocase | reflexivity].
Qed.

(** ** Searching *)

Lemma like_any_same_pattern (tbl : Table) (fs : list string) (pattern : value)
    (r : ItemRow) :
  like_any tbl fs (map (fun _ => pattern) fs) r
  = existsb (fun f => like_value pattern (column_value tbl r f)) fs.
Proof.
  unfold like_any. induction fs as [|f fs IH]; simpl; [reflexivity|].
  now rewrite IH.
Qed.

Lemma layout_has_column (item_type : Inventory) (tbl : Table) :
  columns tbl = layout item_type ->
  forallb (has_column tbl) (fields item_type) = true.
Proof.
  intros Hl. apply forallb_forall. intros f Hf.
  unfold has_column. destruct (String.eqb_spec f "id") as [|Hne]; [reflexivity|].
  simpl. apply mem_In. rewrite Hl. unfold layout.
  apply in_or_app. left. apply filter_In. split; [assumption|].
  now apply negb_true_iff, String.eqb_neq.
Qed.

Lemma bindable_same_pattern {A : Type} (pattern : value) (l : list A) :
  bindable pattern = true -> forallb bindable (map (fun _ => pattern) l) = true.
Proof.
  intros Hb. induction l as [|a l IH]; simpl; [reflexivity|]. now rewrite Hb.
Qed.

Lemma sqlite_search_one (table_name : string) (fs : list string) (pattern : value)
    (s : Store) (tbl : Table) :
  fs <> [] ->
  lookup table_name (tables s) = Some tbl ->
  forallb (has_column tbl) fs = true ->
  bindable pattern = true ->
  sqlite (SearchOne table_name fs) (map (fun _ => pattern) fs) s
  = inr (s, map (fun r => VText table_name :: VInt (row_id r) :: cells r)
                (filter (fun r => existsb (fun f => like_value pattern (column_value tbl r f)) fs)
                        (rows tbl))).
Proof.
  intros Hne Hlook Hcols Hbind. unfold sqlite.
  destruct fs as [|f fs]; [congruence|].
  rewrite Hlook, Hcols, length_map, Nat.eqb_refl, (bindable_same_pattern _ _ Hbind).
  do 3 f_equal. apply filter_ext. intros r. apply like_any_same_pattern.
Qed.

Lemma index_app_l (f : string) (l1 l2 : list string) :
  In f l1 -> index f (l1 ++ l2) = index f l1.
Proof.
  induction l1 as [|a l1 IH]; simpl; [tauto|].
  destruct (String.eqb_spec f a) as [|Hne]; [reflexivity|].
  intros [Heq|Hin]; [congruence|]. now rewrite IH.
Qed.

Lemma map_nth_index (l : list string) (vs : list value) :
  NoDup l -> length vs = length l ->
  map (fun f => nth (index f l) vs VNull) l = vs.
Proof.
  revert vs. induction l as [|a l IH]; intros vs Hnd Hlen.
  - destruct vs; [reflexivity | discriminate].
  - destruct vs as [|v vs]; [discriminate|]. simpl.
    rewrite String.eqb_refl. f_equal.
    inversion Hnd as [|? ? Hnotin Hnd']; subst.
    transitivity (map (fun f => nth (index f l) vs VNull) l).
    + apply map_ext_in. intros f Hf.
      destruct (String.eqb_spec f a) as [->|_]; [contradiction|reflexivity].
    + apply IH; [assumption | simpl in Hlen; lia].
Qed.

(** The cells of a well-formed row start with the values of the fields. *)
Lemma cells_start_with_fields (item_type : Inventory) (tbl : Table) (r : ItemRow) :
  columns tbl = layout item_type ->
  NoDup (fields item_type) ->
  ~ In "id" (fields item_type) ->
  length (cells r) = length (columns tbl) ->
  firstn (length (fields item_type)) (cells r)
  = map (column_value tbl r) (fields item_type).
Proof.
  intros Hl Hnd Hid Hlen.
  assert (Hkeep : filter (fun col => negb (String.eqb col "id")) (fields item_type)
                  = fields item_type).
  { apply forallb_filter_id, forallb_forall. intros f Hf.
    apply negb_true_iff, String.eqb_neq. congruence. }
  unfold layout in Hl. rewrite Hkeep in Hl.
  rewrite Hl, length_app in Hlen.
  erewrite map_ext_in with (g := fun f => nth (index f (fields item_type))
                                            (firstn (length (fields item_type)) (cells r)) VNull).
  - symmetry. apply map_nth_index; [assumption|].
    rewrite length_firstn. lia.
  - intros f Hf. unfold column_value.
    destruct (String.eqb_spec f "id") as [->|_]; [contradiction|].
    rewrite Hl, (index_app_l f _ _ Hf).
    assert (Hi : (index f (fields item_type) < length (fields item_type))%nat).
    { clear -Hf. induction (fields item_type) as [|a l IH]; simpl; [contradiction|].
      destruct (String.eqb_spec f a) as [|Hne]; [lia|].
      destruct Hf as [Heq|Hf]; [congruence|]. specialize (IH Hf). lia. }
    rewrite nth_firstn.
    apply Nat.ltb_lt in Hi. now rewrite Hi.
Qed.

Lemma with_db_same {S : Type} (w : World S) : with_db (db w) w = w.
Proof. now destruct w. Qed.

(** C6, as the code has it.  Let the table of an item class be laid out as
    [create_table] lays it out.  Then [search_with_auto_complete] raises
    nothing and returns the header [Category, id, fields] together with
    exactly the rows of that table, in table order, in which at least one
    field of the class is LIKE [%term%]; for a term without [%] and [_]
    that means: the field's text contains the term, the case of ASCII
    letters apart (a NULL field never matches).  When the class has a
    field, the world is left as it was.  Each returned row begins with the
    category tag, the row id and, for a class with distinct fields other
    than [id], the values of its fields in order. *)
Theorem search_one_returns_like_matches
    (item_type : Inventory) (search_word : string) (tbl : Table) (w : World Store) :
  lookup (cls_item_type item_type) (tables (db w)) = Some tbl ->
  columns tbl = layout item_type ->
  let pattern := like_param search_word in
  let matches := fun r =>
    existsb (fun f => like_value pattern (column_value tbl r f)) (fields item_type) in
  let row_of := fun r =>
    VText (cls_item_type item_type) :: VInt (row_id r) :: cells r in
  fst (search_with_auto_complete item_type search_word w)
  = Return (Some (["Category"; "id"] ++ fields item_type,
                  map row_of (filter matches (rows tbl))))
  /\ (fields item_type <> [] ->
      snd (search_with_auto_complete item_type search_word w) = w)
  /\ (forall r, matches r = true
                <-> exists f, In f (fields item_type)
                              /\ like_value pattern (column_value tbl r f) = true)
  /\ (no_wildcard search_word = true ->
      forall v, like_value pattern v
                = match text_of v with
                  | Some s => contains_nocase s search_word
                  | None => false
                  end)
  /\ (NoDup (fields item_type) -> ~ In "id" (fields item_type) ->
      forall r, length (cells r) = length (columns tbl) ->
        firstn (2 + length (fields item_type)) (row_of r)
        = VText (cls_item_type item_type) :: VInt (row_id r)
            :: map (column_value tbl r) (fields item_type)).
Proof.
  intros Hlook Hlayout. cbv zeta.
  assert (Hrun : fields item_type <> [] ->
            search_with_auto_complete item_type search_word w
            = (Return (Some (["Category"; "id"] ++ fields item_type,
                 map (fun r => VText (cls_item_type item_type) :: VInt (row_id r) :: cells r)
                     (filter (fun r => existsb
                                (fun f => like_value (like_param search_word)
                                            (column_value tbl r f))
                                (fields item_type))
                             (rows tbl)))),
               w)).
  { intros Hne. run_method search_with_auto_complete.
    rewrite (sqlite_search_one _ _ (like_param search_word) (db w) tbl Hne Hlook
               (layout_has_column item_type tbl Hlayout) eq_refl).
    now rewrite with_db_same. }
  split; [|split; [|split; [|split]]].
  - destruct (fields item_type) as [|f fs] eqn:Hfs.
    + run_method search_with_auto_complete. rewrite Hfs. simpl.
      assert (Hnone : filter (fun _ : ItemRow => false) (rows tbl) = []).
      { clear. induction (rows tbl) as [|a l IH]; [reflexivity | exact IH]. }
      now rewrite Hnone.
    + rewrite Hrun by discriminate. reflexivity.
  - intros Hne. now rewrite (Hrun Hne).
  - intros r. apply existsb_exists.
  - intros Hw v. now apply like_value_contains_nocase.
  - intros Hnd Hid r Hlen. simpl. do 2 f_equal.
    now apply cells_start_with_fields.
Qed.

Lemma search_one_returns_like_matches_witness :
  fst (search_with_auto_complete Book "tolkien" (world_of library))
  = Return (Some (["Category"; "id"; "name"; "author"; "genre"; "date"],
                  [[VText "book"; VInt 1; VText "The Hobbit"; VText "J. R. R. Tolkien";
                    VText "fantasy"; VText "1937-09-21"; VText "alice"]])).
Proof.
  exact (proj1 (search_one_returns_like_matches Book "tolkien"
                  {| columns := layout Book;
                     rows := [ {| row_id := 1;
                                  cells := [VText "The Hobbit"; VText "J. R. R. Tolkien";
                                            VText "fantasy"; VText "1937-09-21";
                                            VText "alice"] |};
                               {| row_id := 2;
                                  cells := [VText "Dune"; VText "Frank Herbert";
                                            VText "science fiction"; VNull;
                                            VText "bob"] |} ] |}
                  (world_of library) eq_refl eq_refl)).
Defined.

(** C6 does not hold as worded.  In the sample library, the search for [_]
    among the books returns both books, although no field of either holds
    an underscore; and every returned row has seven values, the last being
    the owner's user_name, against the six column names of the header. *)
Lemma search_one_wildcard_and_owner_column :
  fst (search_with_auto_complete Book "_" (world_of library))
  = Return (Some (["Category"; "id"; "name"; "author"; "genre"; "date"],
                  [[VText "book"; VInt 1; VText "The Hobbit"; VText "J. R. R. Tolkien";
                    VText "fantasy"; VText "1937-09-21"; VText "alice"];
                   [VText "book"; VInt 2; VText "Dune"; VText "Frank Herbert";
                    VText "science fiction"; VNull; VText "bob"]]))
  /\ map (fun s => contains_nocase s "_")
         ["The Hobbit"; "J. R. R. Tolkien"; "fantasy"; "1937-09-21";
          "Dune"; "Frank Herbert"; "science fiction"]
     = [false; false; false; false; false; false; false]
  /\ length [VText "book"; VInt 2; VText "Dune"; VText "Frank Herbert";
             VText "science fiction"; VNull; VText "bob"] = 7%nat
  /\ length ["Category"; "id"; "name"; "author"; "genre"; "date"] = 6%nat.
Proof. vm_compute. repeat split. Qed.

Lemma value_eqb_eq (a b : value) : value_eqb a b = true <-> a = b.
Proof.
  destruct a, b; simpl; split; intros H; try discriminate; try reflexivity.
  - apply Z.eqb_eq in H. now subst.
  - inversion H. apply Z.eqb_refl.
  - apply String.eqb_eq in H. now subst.
  - inversion H. apply String.eqb_refl.
  - apply String.eqb_eq in H. now subst.
  - inversion H. apply String.eqb_refl.
Qed.

Lemma row_eqb_eq (r1 r2 : row) : row_eqb r1 r2 = true <-> r1 = r2.
Proof.
  revert r2. induction r1 as [|a r1 IH]; intros [|b r2]; simpl;
    try (split; [discriminate | discriminate]); try tauto.
  rewrite andb_true_iff, value_eqb_eq, IH. split.
  - intros [-> ->]. reflexivity.
  - intros H. inversion H. now split.
Qed.

Lemma distinct_In (r : row) (rs : list row) : In r (distinct rs) <-> In r rs.
Proof.
  induction rs as [|a rs IH]; simpl; [tauto|].
  rewrite filter_In, IH, negb_true_iff.
  split.
  - intros [H|[H _]]; tauto.
  - intros [H|H]; [tauto|].
    destruct (row_eqb a r) eqn:Heq.
    + apply row_eqb_eq in Heq. tauto.
    + tauto.
Qed.

Lemma distinct_NoDup (rs : list row) : NoDup (distinct rs).
Proof.
  induction rs as [|a rs IH]; simpl; constructor.
  - rewrite filter_In. intros [_ H].
    apply negb_true_iff in H.
    assert (row_eqb a a = true) by now apply row_eqb_eq. congruence.
  - now apply NoDup_filter.
Qed.

Lemma union_insert_perm (r : row) (l : list row) : Permutation (r :: l) (union_insert r l).
Proof.
  induction l as [|x l IH]; simpl; [apply Permutation_refl|].
  destruct (row_leb r x); [apply Permutation_refl|].
  eapply Permutation_trans; [apply perm_swap|]. now apply perm_skip.
Qed.

Lemma union_sort_perm (l : list row) : Permutation l (union_sort l).
Proof.
  induction l as [|r l IH]; simpl; [constructor|].
  eapply Permutation_trans; [|apply union_insert_perm]. now apply perm_skip.
Qed.

(** The rows of a UNION are the distinct rows, in another order. *)
Lemma sql_union_perm (rs : list row) : Permutation (distinct rs) (sql_union rs).
Proof. apply union_sort_perm. Qed.

Lemma sql_union_In (r : row) (rs : list row) : In r (sql_union rs) <-> In r rs.
Proof.
  split; intros H.
  - apply distinct_In.
    eapply Permutation_in; [apply Permutation_sym, sql_union_perm | exact H].
  - eapply Permutation_in; [apply sql_union_perm|]. now apply distinct_In.
Qed.

Lemma sql_union_NoDup (rs : list row) : NoDup (sql_union rs).
Proof.
  eapply Permutation_NoDup; [apply sql_union_perm | apply distinct_NoDup].
Qed.

Lemma firstn_skipn_exact {A} (l1 l2 : list A) :
  firstn (length l1) (l1 ++ l2) = l1 /\ skipn (length l1) (l1 ++ l2) = l2.
Proof.
  induction l1 as [|a l1 [IH1 IH2]]; simpl; [tauto|].
  now rewrite IH1, IH2.
Qed.

Lemma sub_query_row_unified (common_columns : list string) (c : Inventory)
    (tbl : Table) (r : ItemRow) :
  sub_query_row (sub_query_of common_columns c) tbl r
  = unified_row common_columns c tbl r.
Proof.
  unfold sub_query_row, sub_query_of, unified_row. simpl.
  do 2 f_equal. rewrite map_map. apply map_ext. intros col.
  now destruct (mem col (fields c)).
Qed.

Lemma sub_query_columns_ok (common_columns : list string) (c : Inventory) (tbl : Table) :
  columns tbl = layout c ->
  forallb (projection_ok tbl) (sq_columns (sub_query_of common_columns c)) = true.
Proof.
  intros Hl. unfold sub_query_of. simpl.
  apply forallb_forall. intros p Hp.
  apply in_map_iff in Hp as [col [<- _]].
  destruct (mem col (fields c)) eqn:Hm; [|reflexivity]. simpl.
  apply mem_In in Hm.
  pose proof (layout_has_column c tbl Hl) as Hall.
  rewrite forallb_forall in Hall. now apply Hall.
Qed.

(** The SELECTs written for the classes of a registry whose tables are
    ready compile, take their bindings class by class, and give the rows of
    the classes one after the other. *)
Lemma compound_rows_ready (common_columns : list string) (pattern : value)
    (s : Store) (cs : list Inventory) :
  (forall c, In c cs ->
     fields c <> []
     /\ exists tbl, lookup (cls_item_type c) (tables s) = Some tbl
                    /\ columns tbl = layout c) ->
  compound_rows (tables s) (map (sub_query_of common_columns) cs)
    (flat_map (fun c => map (fun _ => pattern) (fields c)) cs)
  = inr (flat_map (category_rows common_columns pattern s) cs).
Proof.
  induction cs as [|c cs IH]; intros Hready; [reflexivity|].
  destruct (Hready c (or_introl eq_refl)) as [Hne [tbl [Hlook Hlayout]]].
  simpl map. simpl flat_map. unfold compound_rows; fold compound_rows.
  change (sq_like (sub_query_of common_columns c)) with (fields c).
  change (sq_table (sub_query_of common_columns c)) with (cls_item_type c).
  destruct (fields c) as [|f fs] eqn:Hfs; [congruence|].
  rewrite Hlook, <- Hfs.
  rewrite (layout_has_column c tbl Hlayout),
          (sub_query_columns_ok common_columns c tbl Hlayout). simpl andb. cbv iota.
  replace (length (fields c))
    with (length (map (fun _ : string => pattern) (fields c))) by apply length_map.
  destruct (firstn_skipn_exact (map (fun _ : string => pattern) (fields c))
              (flat_map (fun c => map (fun _ => pattern) (fields c)) cs)) as [Hf Hs].
  rewrite Hf, Hs, IH by (intros c' Hc'; apply Hready; now right).
  f_equal. f_equal. unfold category_rows. rewrite Hlook.
  erewrite map_ext by apply sub_query_row_unified.
  f_equal. apply filter_ext. intros r. apply like_any_same_pattern.
Qed.

Lemma same_width_sub_queries (common_columns : list string) (cs : list Inventory) :
  same_width (map (sub_query_of common_columns) cs) = true.
Proof.
  destruct cs as [|c cs]; [reflexivity|]. simpl.
  apply forallb_forall. intros sq Hsq.
  apply in_map_iff in Hsq as [c' [<- _]]. simpl.
  rewrite !length_map. apply Nat.eqb_refl.
Qed.

Lemma bindings_count (common_columns : list string) (pattern : value)
    (cs : list Inventory) :
  length (flat_map (fun c => map (fun _ : string => pattern) (fields c)) cs)
  = length (flat_map sq_like (map (sub_query_of common_columns) cs)).
Proof.
  induction cs as [|c cs IH]; [reflexivity|].
  simpl. rewrite !length_app, length_map, IH. reflexivity.
Qed.

Lemma In_category_rows (common_columns : list string) (pattern : value)
    (s : Store) (c : Inventory) (row : row) :
  In row (category_rows common_columns pattern s c)
  <-> exists tbl r,
        lookup (cls_item_type c) (tables s) = Some tbl
        /\ In r (rows tbl)
        /\ (exists f, In f (fields c)
                      /\ like_value pattern (column_value tbl r f) = true)
        /\ row = unified_row common_columns c tbl r.
Proof.
  unfold category_rows. destruct (lookup _ _) as [tbl|].
  - rewrite in_map_iff. split.
    + intros [r [<- Hr]]. apply filter_In in Hr as [Hin Hm].
      apply existsb_exists in Hm. now exists tbl, r.
    + intros [tbl' [r [Heq [Hin [Hm ->]]]]]. inversion Heq; subst tbl'.
      exists r. split; [reflexivity|]. apply filter_In. split; [assumption|].
      now apply existsb_exists.
  - simpl. split; [tauto|]. intros [tbl [r [H _]]]. discriminate.
Qed.

Lemma compound_rows_error (tbls : list (string * Table)) (sub_queries : list SubQuery)
    (params : list value) (e : exn) :
  compound_rows tbls sub_queries params = inl e -> is_sqlite3_Error e = true.
Proof.
  revert params. induction sub_queries as [|sq rest IH]; intros params; simpl.
  - discriminate.
  - destruct (sq_like sq); [intros H; now inversion H|].
    destruct (lookup _ _); [|intros H; now inversion H].
    destruct (_ && _); [|intros H; now inversion H].
    destruct (compound_rows tbls rest _) eqn:Hrest; [|discriminate].
    intros H. inversion H; subst. eapply IH. exact Hrest.
Qed.

(** Whenever the SELECTs written for some classes compile, their rows are
    the rows of the classes one after the other. *)
Lemma compound_rows_sound (common_columns : list string) (pattern : value)
    (s : Store) (cs : list Inventory) (rs : list row) :
  compound_rows (tables s) (map (sub_query_of common_columns) cs)
    (flat_map (fun c => map (fun _ => pattern) (fields c)) cs)
  = inr rs ->
  rs = flat_map (category_rows common_columns pattern s) cs.
Proof.
  revert rs. induction cs as [|c cs IH]; intros rs.
  - simpl. intros H. now inversion H.
  - simpl map. simpl flat_map. unfold compound_rows; fold compound_rows.
    change (sq_like (sub_query_of common_columns c)) with (fields c).
    change (sq_table (sub_query_of common_columns c)) with (cls_item_type c).
    destruct (fields c) as [|f fs] eqn:Hfs; [discriminate|]. rewrite <- Hfs.
    destruct (lookup (cls_item_type c) (tables s)) as [tbl|] eqn:Hlook; [|discriminate].
    destruct (_ && _); [|discriminate].
    replace (length (fields c))
      with (length (map (fun _ : string => pattern) (fields c))) by apply length_map.
    destruct (firstn_skipn_exact (map (fun _ : string => pattern) (fields c))
                (flat_map (fun c => map (fun _ => pattern) (fields c)) cs)) as [Hf Hs].
    rewrite Hf, Hs.
    destruct (compound_rows _ _ _) as [e|more] eqn:Hrest; [discriminate|].
    intros H. inversion H; subst rs. rewrite (IH more eq_refl).
    f_equal. unfold category_rows. rewrite Hlook.
    erewrite map_ext by apply sub_query_row_unified.
    f_equal. apply filter_ext. intros r. apply like_any_same_pattern.
Qed.

Lemma bindable_like_params (search_word : string) (cs : list Inventory) :
  forallb bindable
    (flat_map (fun c => map (fun _ => like_param search_word) (fields c)) cs) = true.
Proof.
  induction cs as [|c cs IH]; simpl; [reflexivity|].
  rewrite forallb_app, IH, (bindable_same_pattern (like_param search_word)); reflexivity.
Qed.

(** What the cursor answers to the statement of the cross-category search:
    the rows of the UNION, or an [sqlite3.Error]. *)
Lemma compound_result_map {A B : Type} (f : A -> B) (l : list A) (rs : list row) :
  compound_result (map f l) rs = compound_result l rs.
Proof. now destruct l as [|a [|b l]]. Qed.

Lemma distinct_of_NoDup (rs : list row) : NoDup rs -> distinct rs = rs.
Proof.
  induction rs as [|a rs IH]; intros Hnd; [reflexivity|].
  inversion Hnd as [|? ? Hnotin Hnd']; subst. simpl. rewrite (IH Hnd'). f_equal.
  apply forallb_filter_id. apply forallb_forall. intros r Hr.
  apply negb_true_iff. destruct (row_eqb a r) eqn:Heq; [|reflexivity].
  apply row_eqb_eq in Heq. congruence.
Qed.

(** The rows a compound statement returns are the distinct rows of its
    SELECTs, in some order; one SELECT alone returns its rows as they are,
    distinct when the ids of the table are. *)
Lemma compound_result_perm {A : Type} (l : list A) (rs : list row) :
  (forall a, l = [a] -> NoDup rs) ->
  Permutation (compound_result l rs) (distinct rs)
  /\ NoDup (compound_result l rs).
Proof.
  intros Hone. destruct l as [|a [|b l]]; cbn [compound_result].
  - split; [apply Permutation_sym, sql_union_perm | apply sql_union_NoDup].
  - pose proof (Hone a eq_refl) as Hnd.
    rewrite (distinct_of_NoDup rs Hnd). split; [apply Permutation_refl | exact Hnd].
  - split; [apply Permutation_sym, sql_union_perm | apply sql_union_NoDup].
Qed.

(** The rows selected from a table have distinct ids as the table has. *)
Lemma selected_rows_keyed (selected : ItemRow -> bool) (rs : list ItemRow) :
  NoDup (map row_id rs) -> NoDup (map row_id (filter selected rs)).
Proof.
  induction rs as [|r rs IH]; intros Hkey; [constructor|].
  inversion Hkey as [|? ? Hfresh Hkey']; subst. cbn [filter].
  destruct (selected r); [|now apply IH].
  cbn [map]. constructor; [|now apply IH].
  intros Hin. apply Hfresh. apply in_map_iff in Hin as [x [Hx Hin]].
  apply filter_In in Hin as [Hin _]. apply in_map_iff. now exists x.
Qed.

(** In a store whose ids are keys, the rows of a class are distinct. *)
Lemma category_rows_NoDup (common_columns : list string) (pattern : value)
    (s : Store) (c : Inventory) :
  keyed s -> NoDup (category_rows common_columns pattern s c).
Proof.
  intros Hkey. unfold category_rows.
  destruct (lookup (cls_item_type c) (tables s)) as [tbl|] eqn:Hlook; [|constructor].
  apply (NoDup_map_inv
           (fun row : row => match row with
                             | _ :: VInt id :: _ => id
                             | _ => 0%Z
                             end)).
  rewrite map_map. cbn [unified_row].
  apply selected_rows_keyed. exact (Hkey _ _ Hlook).
Qed.

Lemma sqlite_search_union (item_types : list (string * Inventory))
    (search_word : string) (s : Store) :
  let cc := search_for_every_item_type_columns item_types in
  let pat := like_param search_word in
  sqlite (SearchUnion (map (sub_query_of cc) (values item_types)))
         (flat_map (fun c => map (fun _ => pat) (fields c)) (values item_types)) s
  = inr (s, compound_result (values item_types)
              (flat_map (category_rows cc pat s) (values item_types)))
  \/ exists e,
       is_sqlite3_Error e = true
       /\ sqlite (SearchUnion (map (sub_query_of cc) (values item_types)))
                 (flat_map (fun c => map (fun _ => pat) (fields c)) (values item_types)) s
          = inl e.
Proof.
  cbv zeta. unfold sqlite.
  destruct (compound_rows _ _ _) as [e|rs] eqn:Hrows.
  - right. exists e. split; [|reflexivity]. eapply compound_rows_error. exact Hrows.
  - left. apply compound_rows_sound in Hrows. subst rs.
    rewrite same_width_sub_queries.
    rewrite (bindings_count (search_for_every_item_type_columns item_types)
               (like_param search_word)), Nat.eqb_refl, bindable_like_params.
    now rewrite compound_result_map.
Qed.

(** C4, as the code has it.  For every registry and every term, in a
    store where the id is the key of every item table,
    [search_for_every_item_type] writes one SELECT per class, in registry
    order, joined by UNION; the SELECT of a class names [f AS f] for the
    unified columns that are fields of the class and [NULL AS f] for the
    others, and its WHERE clause has one [LIKE ?] per field of that class
    and no other.  The call raises nothing and returns the header
    [Category, id, unified columns] with the matching rows, each once, in
    the order SQLite gives them, or with no row when the statement cannot
    run; it returns the matching rows whenever every class has a field and
    its table, laid out as [create_table] lays it out.  The matching rows
    hold no row twice, and a row is among them exactly when it is the row
    of some class of the registry, set in the unified columns with NULL
    under the columns the class lacks, in which some field of that class
    is LIKE [%term%]; each of them thus has a tag of the registry, an id
    and one value per unified column.  For a term without [%] and [_],
    LIKE [%term%] means that the field's text contains the term, the case
    of ASCII letters apart. *)
Theorem search_all_is_union_of_like_matches
    (item_types : list (string * Inventory)) (search_word : string) (w : World Store) :
  keyed (db w) ->
  let common_columns := search_for_every_item_type_columns item_types in
  let pattern := like_param search_word in
  let sub_queries := map (sub_query_of common_columns) (values item_types) in
  let matching :=
    distinct (flat_map (category_rows common_columns pattern (db w))
                       (values item_types)) in
  sql_text (SearchUnion sub_queries)
  = join (nl ++ " UNION " ++ nl)%string (map sub_query_text sub_queries)
  /\ length sub_queries = length (values item_types)
  /\ (forall c,
        sq_table (sub_query_of common_columns c) = cls_item_type c
        /\ sq_like (sub_query_of common_columns c) = fields c
        /\ sq_columns (sub_query_of common_columns c)
           = map (fun f => if mem f (fields c) then PCol f else PNull f) common_columns)
  /\ (exists results,
        fst (search_for_every_item_type item_types search_word w)
        = Return (Some (["Category"; "id"] ++ common_columns, results))
        /\ (Permutation results matching \/ results = []))
  /\ (tables_ready item_types (db w) ->
      exists results,
        search_for_every_item_type item_types search_word w
        = (Return (Some (["Category"; "id"] ++ common_columns, results)),
           say (Utils.markup "Search results retrieved successfully!" "success") w)
        /\ Permutation results matching
        /\ NoDup results)
  /\ NoDup matching
  /\ (forall row,
        In row matching
        <-> exists c tbl r,
              In c (values item_types)
              /\ lookup (cls_item_type c) (tables (db w)) = Some tbl
              /\ In r (rows tbl)
              /\ (exists f, In f (fields c)
                            /\ like_value pattern (column_value tbl r f) = true)
              /\ row = unified_row common_columns c tbl r)
  /\ (forall row,
        In row matching ->
        length row = (2 + length common_columns)%nat
        /\ exists c id rest,
             In c (values item_types)
             /\ row = VText (cls_item_type c) :: VInt id :: rest)
  /\ (no_wildcard search_word = true ->
      forall v, like_value pattern v
                = match text_of v with
                  | Some s => contains_nocase s search_word
                  | None => false
                  end).
Proof.
  intros Hkey. cbv zeta.
  set (cc := search_for_every_item_type_columns item_types).
  set (pat := like_param search_word).
  assert (Hres : Permutation
                   (compound_result (values item_types)
                      (flat_map (category_rows cc pat (db w)) (values item_types)))
                   (distinct (flat_map (category_rows cc pat (db w))
                                (values item_types)))
                 /\ NoDup (compound_result (values item_types)
                             (flat_map (category_rows cc pat (db w))
                                (values item_types)))).
  { apply compound_result_perm. intros c ->. cbn [flat_map].
    rewrite app_nil_r. now apply category_rows_NoDup. }
  assert (Hrows : forall row,
            In row (distinct (flat_map (category_rows cc pat (db w)) (values item_types)))
            <-> exists c tbl r,
                  In c (values item_types)
                  /\ lookup (cls_item_type c) (tables (db w)) = Some tbl
                  /\ In r (rows tbl)
                  /\ (exists f, In f (fields c)
                                /\ like_value pat (column_value tbl r f) = true)
                  /\ row = unified_row cc c tbl r).
  { intros row. rewrite distinct_In, in_flat_map. split.
    - intros [c [Hc Hin]]. apply In_category_rows in Hin as [tbl [r H]].
      now exists c, tbl, r.
    - intros [c [tbl [r [Hc H]]]]. exists c. split; [assumption|].
      apply In_category_rows. now exists tbl, r. }
  split; [|split; [|split; [|split; [|split; [|split; [|split; [|split]]]]]]].
  - reflexivity.
  - apply length_map.
  - intros c. repeat split.
  - destruct (sqlite_search_union item_types search_word (db w)) as [Hok|[e [He Herr]]];
      fold cc pat in Hok || fold cc pat in Herr.
    + eexists. split; [|left; exact (proj1 Hres)].
      run_method search_for_every_item_type. fold cc pat. now rewrite Hok.
    + exists []. split; [|right; reflexivity].
      run_method search_for_every_item_type. fold cc pat. now rewrite Herr, He.
  - intros Hready.
    exists (compound_result (values item_types)
              (flat_map (category_rows cc pat (db w)) (values item_types))).
    split; [|exact Hres].
    run_method search_for_every_item_type. fold cc pat. unfold sqlite.
    rewrite (compound_rows_ready cc pat (db w) (values item_types) Hready).
    rewrite same_width_sub_queries.
    rewrite (bindings_count cc pat), Nat.eqb_refl.
    unfold pat. rewrite bindable_like_params.
    now rewrite compound_result_map, with_db_same.
  - apply distinct_NoDup.
  - exact Hrows.
  - intros row Hin. apply Hrows in Hin as [c [tbl [r [Hc [_ [_ [_ ->]]]]]]].
    split.
    + unfold unified_row. simpl. now rewrite length_map.
    + exists c, (row_id r). eexists. split; [assumption|]. reflexivity.
  - intros Hw v. now apply like_value_contains_nocase.
Qed.

Lemma library_ready : tables_ready books_and_magazines library.
Proof.
  intros c [<-|[<-|[]]]; (split; [discriminate|]); eexists; split; reflexivity.
Qed.

Lemma library_keyed : keyed library.
Proof.
  intros name tbl Hlook. unfold library in Hlook. cbn [tables set_tables] in Hlook.
  unfold library_tables in Hlook. cbn [lookup] in Hlook.
  repeat match type of Hlook with
         | (if ?b then _ else _) = _ =>
             destruct b;
             [inversion Hlook; subst; cbn; repeat constructor; cbn; intuition discriminate|]
         end.
  discriminate.
Qed.

Lemma search_all_is_union_of_like_matches_witness :
  exists results,
    search_for_every_item_type books_and_magazines "Tolkien" (world_of library)
    = (Return
         (Some (["Category"; "id"; "name"; "author"; "genre"; "date"; "publisher"],
                results)),
       say "[green]Search results retrieved successfully![/green]" (world_of library))
    /\ Permutation results
         [[VText "book"; VInt 1; VText "The Hobbit"; VText "J. R. R. Tolkien";
           VText "fantasy"; VText "1937-09-21"; VNull];
          [VText "magazine"; VInt 1; VText "Amon Hen"; VNull;
           VText "fandom"; VNull; VText "TOLKIEN Society"]]
    /\ NoDup results.
Proof.
  exact (proj1 (proj2 (proj2 (proj2 (proj2
           (search_all_is_union_of_like_matches books_and_magazines "Tolkien"
              (world_of library) library_keyed))))) library_ready).
Defined.

(** The rows of a UNION come sorted, not in the order of the registry:
    with the magazines before the books in the registry, the book is
    still the first row. *)
Example union_rows_come_sorted :
  fst (search_for_every_item_type [("1", Magazine); ("2", Book)] "Tolkien"
         (world_of library))
  = Return
      (Some (["Category"; "id"; "name"; "publisher"; "genre"; "date"; "author"],
             [[VText "book"; VInt 1; VText "The Hobbit"; VNull;
               VText "fantasy"; VText "1937-09-21"; VText "J. R. R. Tolkien"];
              [VText "magazine"; VInt 1; VText "Amon Hen"; VText "TOLKIEN Society";
               VText "fandom"; VNull; VNull]])).
Proof. vm_compute. reflexivity. Qed.

(** C4 does not hold as worded.  In the sample library, the search for [_]
    over books and magazines returns every row, although no field of any of
    them holds an underscore. *)
Lemma search_all_wildcard :
  fst (search_for_every_item_type books_and_magazines "_" (world_of library))
  = Return
      (Some (["Category"; "id"; "name"; "author"; "genre"; "date"; "publisher"],
             [[VText "book"; VInt 1; VText "The Hobbit"; VText "J. R. R. Tolkien";
               VText "fantasy"; VText "1937-09-21"; VNull];
              [VText "book"; VInt 2; VText "Dune"; VText "Frank Herbert";
               VText "science fiction"; VNull; VNull];
              [VText "magazine"; VInt 1; VText "Amon Hen"; VNull;
               VText "fandom"; VNull; VText "TOLKIEN Society"]]))
  /\ map (fun s => contains_nocase s "_")
         ["The Hobbit"; "J. R. R. Tolkien"; "fantasy"; "1937-09-21";
          "Dune"; "Frank Herbert"; "science fiction";
          "Amon Hen"; "TOLKIEN Society"; "fandom"]
     = [false; false; false; false; false; false; false; false; false; false].
Proof. vm_compute. split; reflexivity. Qed.

(** ** The layout of the item tables *)

Lemma lookup_app_new {V : Type} (k : string) (v : V) (d : list (string * V)) :
  lookup k d = None -> lookup k (d ++ [(k, v)]) = Some v.
Proof.
  induction d as [|[k' v'] d IH]; simpl.
  - now rewrite String.eqb_refl.
  - destruct (String.eqb k k'); [discriminate | exact IH].
Qed.

(** [create_table] gives a new table the columns [layout] names. *)
Lemma create_table_layout (item_type : Inventory) (w : World Store) :
  lookup (cls_item_type item_type) (tables (db w)) = None ->
  filter (fun col => negb (String.eqb col "id")) (fields item_type) <> [] ->
  has_duplicate ("id" :: layout item_type) = false ->
  lookup (cls_item_type item_type)
         (tables (db (snd (create_inventory_layout_sqlite item_type w))))
  = Some {| columns := layout item_type; rows := [] |}.
Proof.
  intros Hnone Hne Hdup.
  unfold create_inventory_layout_sqlite, create_table, try_except, bind, on_cursor.
  unfold sqlite.
  destruct (filter _ (fields item_type)) as [|f fs] eqn:Hf; [congruence|].
  rewrite Hnone. unfold layout in Hdup. rewrite Hf in Hdup. rewrite Hdup.
  simpl. unfold layout. rewrite Hf. now apply lookup_app_new.
Qed.

(** The tables main.py creates at start-up for its registry. *)
Example initialize_all_tables_layout :
  tables (db (snd (initialize_all_tables item_types (world_of empty_store))))
  = map (fun c => (cls_item_type c, {| columns := layout c; rows := [] |}))
        (values item_types)
  /\ console (snd (initialize_all_tables item_types (world_of empty_store))) = [].
Proof. split; vm_compute; reflexivity. Qed.

(** * Further properties *)

(** ** The ledger over time *)

(** What every step keeps, a session keeps: it is so of the store the
    session leaves, whether the session ran to its end or a step raised. *)
Lemma run_ops_keeps (P : World Store -> Prop) :
  (forall op w, P w -> P (snd (run_op op w))) ->
  forall ops w, P w -> P (snd (run_ops ops w)).
Proof.
  intros Hstep ops. induction ops as [|op ops IH]; intros w Hw; [assumption|].
  rewrite run_ops_step. specialize (Hstep op w Hw).
  destruct (run_op op w) as [[[]|e] w1]; simpl in *; [now apply IH | assumption].
Qed.

Lemma after_ops_keeps (P : World Store -> Prop) :
  (forall op w, P w -> P (snd (run_op op w))) ->
  forall ops w, P w -> P (after_ops ops w).
Proof.
  intros Hstep ops. induction ops as [|op ops IH]; intros w Hw; [assumption|].
  simpl. apply IH, Hstep, Hw.
Qed.

(** A step with an id beyond 64 bits raises and leaves the world as it
    was. *)
Lemma run_op_too_large (op : LedgerOp) (w : World Store) :
  op_fits op = false -> run_op op w = (Raise int_too_large, w).
Proof.
  destruct op as [u ty id days | u tid]; simpl; intros Hfit.
  - now apply borrow_item_too_large.
  - now apply return_item_too_large.
Qed.

Lemma max_id_exact (m : Z) (ids : list Z) :
  (forall x, In x ids -> (x <= m)%Z) ->
  (m = 0%Z \/ In m ids) -> (0 <= m)%Z ->
  fold_right Z.max 0%Z ids = m.
Proof.
  intros Hle Hin Hpos.
  assert (Hub : (fold_right Z.max 0 ids <= m)%Z).
  { clear Hin. induction ids as [|a ids IH]; simpl; [assumption|].
    assert (a <= m)%Z by (apply Hle; now left).
    assert (fold_right Z.max 0 ids <= m)%Z by (apply IH; intros x Hx; apply Hle; now right).
    lia. }
  assert (Hlb : (m <= fold_right Z.max 0 ids)%Z).
  { destruct Hin as [->|Hin].
    - clear. induction ids as [|a ids IH]; simpl; lia.
    - now apply max_id_bound. }
  lia.
Qed.

Lemma next_rowid_ids_from_one (n : nat) :
  next_rowid (ids_from_one n) = Z.of_nat (S n).
Proof.
  unfold next_rowid, ids_from_one.
  rewrite (max_id_exact (Z.of_nat n)); [lia | | | lia].
  - intros x Hx. apply in_map_iff in Hx as [k [<- Hk]].
    apply in_seq in Hk. lia.
  - destruct n as [|n]; [now left|]. right.
    apply in_map, in_seq. lia.
Qed.

Lemma ids_from_one_S (n : nat) :
  ids_from_one (S n) = ids_from_one n ++ [Z.of_nat (S n)].
Proof. unfold ids_from_one. now rewrite seq_S, map_app. Qed.

Lemma run_op_ids_from_one (op : LedgerOp) (w : World Store) :
  map Transaction.id (transactions (db w))
  = ids_from_one (length (transactions (db w))) ->
  map Transaction.id (transactions (db (snd (run_op op w))))
  = ids_from_one (length (transactions (db (snd (run_op op w))))).
Proof.
  intros Hids.
  destruct (op_fits op) eqn:Hfit; [|now rewrite run_op_too_large].
  destruct op as [u ty id days | u tid]; simpl in *.
  - rewrite borrow_item_cases by assumption.
    destruct (existsb _ _); [assumption|].
    destruct (add_timedelta_days _ _); [assumption|]. simpl.
    rewrite map_app, length_app, Nat.add_1_r, ids_from_one_S. simpl.
    rewrite Hids at 1. f_equal. f_equal. rewrite Hids.
    apply next_rowid_ids_from_one.
  - rewrite return_item_cases by assumption.
    destruct (existsb _ _); [|assumption]. simpl.
    rewrite map_map, length_map.
    erewrite map_ext; [exact Hids|].
    intros t. now destruct (Z.eqb _ _).
Qed.

(** X1. Starting from a ledger without rows, whatever the users borrow and
    return, the ids of the ledger are 1, 2, ..., n in the order of the
    rows: the key counts up from 1, no id is skipped and none is used
    twice. *)
Theorem ledger_ids_count_from_one (ops : list LedgerOp) (w : World Store) :
  transactions (db w) = [] ->
  map Transaction.id (transactions (db (snd (run_ops ops w))))
  = ids_from_one (length (transactions (db (snd (run_ops ops w)))))
  /\ NoDup (map Transaction.id (transactions (db (snd (run_ops ops w))))).
Proof.
  intros Hempty. split.
  - apply (run_ops_keeps
             (fun w => map Transaction.id (transactions (db w))
                       = ids_from_one (length (transactions (db w))))).
    + apply run_op_ids_from_one.
    + now rewrite Hempty.
  - apply run_ops_distinct_ids. rewrite Hempty. constructor.
Qed.

Lemma ledger_ids_count_from_one_witness :
  map Transaction.id
      (transactions (db (snd (run_ops sample_session (world_of empty_store)))))
  = ids_from_one
      (length (transactions (db (snd (run_ops sample_session (world_of empty_store))))))
  /\ NoDup (map Transaction.id
              (transactions (db (snd (run_ops sample_session (world_of empty_store)))))).
Proof.
  exact (ledger_ids_count_from_one sample_session (world_of empty_store) eq_refl).
Defined.

Lemma same_id_same_row (l : list Transaction.t) (t t' : Transaction.t) :
  NoDup (map Transaction.id l) -> In t l -> In t' l ->
  Transaction.id t = Transaction.id t' -> t = t'.
Proof.
  induction l as [|a l IH]; simpl; [tauto|].
  intros Hnd Ht Ht' Hid. inversion Hnd as [|? ? Hnotin Hnd']; subst.
  destruct Ht as [->|Ht], Ht' as [->|Ht']; try reflexivity.
  - exfalso. apply Hnotin. rewrite Hid. now apply in_map.
  - exfalso. apply Hnotin. rewrite <- Hid. now apply in_map.
  - now apply IH.
Qed.

Lemma same_borrow_refl (t : Transaction.t) : same_borrow t t.
Proof. repeat split. Qed.

Lemma same_borrow_trans (t1 t2 t3 : Transaction.t) :
  same_borrow t1 t2 -> same_borrow t2 t3 -> same_borrow t1 t3.
Proof.
  unfold same_borrow. intros [? [? [? [? [? ?]]]]] [? [? [? [? [? ?]]]]].
  repeat split; congruence.
Qed.

Lemma run_op_history (op : LedgerOp) (w : World Store) (t : Transaction.t) :
  NoDup (map Transaction.id (transactions (db w))) ->
  In t (transactions (db w)) ->
  exists t', In t' (transactions (db (snd (run_op op w))))
             /\ same_borrow t t'
             /\ (Transaction.status t = returned -> t' = t).
Proof.
  intros Hnd Hin.
  destruct (op_fits op) eqn:Hfit.
  2:{ rewrite run_op_too_large by assumption. exists t.
      split; [assumption|]. split; [apply same_borrow_refl | reflexivity]. }
  destruct op as [u ty id days | u tid]; simpl in *.
  - exists t. split; [|split; [apply same_borrow_refl | reflexivity]].
    rewrite borrow_item_cases by assumption.
    destruct (existsb _ _); [assumption|].
    destruct (add_timedelta_days _ _); [assumption|]. simpl.
    apply in_or_app. now left.
  - rewrite return_item_cases by assumption.
    destruct (existsb _ _) eqn:Hex.
    + simpl.
      exists (if Z.eqb (Transaction.id t) tid
              then close (strftime_Ymd (clock w (ticks w))) t else t).
      split; [|split].
      * apply in_map_iff. now exists t.
      * destruct (Z.eqb _ _); [repeat split | apply same_borrow_refl].
      * intros Hret. destruct (Z.eqb_spec (Transaction.id t) tid) as [Hid|_];
          [|reflexivity].
        exfalso. apply existsb_own_borrow in Hex as [t2 [Hin2 [Hid2 [_ Hs2]]]].
        assert (t = t2) by (apply (same_id_same_row _ _ _ Hnd Hin Hin2); congruence).
        subst t2. congruence.
    + exists t. split; [assumption|]. split; [apply same_borrow_refl | reflexivity].
Qed.

Lemma run_op_length (op : LedgerOp) (w : World Store) :
  (length (transactions (db w))
   <= length (transactions (db (snd (run_op op w)))))%nat.
Proof.
  destruct (op_fits op) eqn:Hfit;
    [|rewrite run_op_too_large by assumption; apply Nat.le_refl].
  destruct op as [u ty id days | u tid]; simpl in *.
  - rewrite borrow_item_cases by assumption.
    destruct (existsb _ _); [apply Nat.le_refl|].
    destruct (add_timedelta_days _ _); [apply Nat.le_refl|]. simpl.
    rewrite length_app. apply Nat.le_add_r.
  - rewrite return_item_cases by assumption.
    destruct (existsb _ _); simpl; [rewrite length_map|]; apply Nat.le_refl.
Qed.

(** X2. In a ledger with distinct ids, whatever the users then borrow and
    return: no row is ever removed; every row keeps its id, borrower, item,
    borrow date and due date; and a row that is returned is never changed
    again, so its return date stays the day it was handed back. *)
Theorem ledger_history_is_kept (ops : list LedgerOp) (w : World Store)
    (t : Transaction.t) :
  NoDup (map Transaction.id (transactions (db w))) ->
  In t (transactions (db w)) ->
  (length (transactions (db w))
   <= length (transactions (db (snd (run_ops ops w)))))%nat
  /\ exists t', In t' (transactions (db (snd (run_ops ops w))))
                /\ same_borrow t t'
                /\ (Transaction.status t = returned -> t' = t).
Proof.
  revert w t. induction ops as [|op ops IH]; intros w t Hnd Hin.
  - split; [apply Nat.le_refl|]. exists t.
    split; [assumption|]. split; [apply same_borrow_refl | reflexivity].
  - rewrite run_ops_step.
    destruct (run_op_history op w t Hnd Hin) as [t1 [Hin1 [Hsame1 Hkeep1]]].
    pose proof (run_op_length op w) as Hlen1.
    pose proof (run_op_distinct_ids op w Hnd) as Hnd1.
    destruct (run_op op w) as [[[]|e] w1]; simpl in *.
    + destruct (IH w1 t1 Hnd1 Hin1) as [Hlen [t2 [Hin2 [Hsame2 Hkeep2]]]].
      split.
      * eapply Nat.le_trans; [exact Hlen1 | exact Hlen].
      * exists t2. split; [assumption|]. split.
        -- eapply same_borrow_trans; eassumption.
        -- intros Hret. specialize (Hkeep1 Hret). subst t1. now apply Hkeep2.
    + split; [assumption|]. exists t1.
      split; [assumption|]. split; assumption.
Qed.

Lemma ledger_history_is_kept_witness :
  let w := world_of store_after_alice_borrowed in
  (length (transactions (db w))
   <= length (transactions (db (snd (run_ops hand_over w)))))%nat
  /\ exists t', In t' (transactions (db (snd (run_ops hand_over w))))
                /\ same_borrow alice_borrow t'
                /\ (Transaction.status alice_borrow = returned -> t' = alice_borrow).
Proof.
  apply (ledger_history_is_kept hand_over (world_of store_after_alice_borrowed)
           alice_borrow).
  - vm_compute. repeat constructor. simpl. tauto.
  - vm_compute. now left.
Defined.

Lemma run_op_frame (op : LedgerOp) (w : World Store) :
  users (db (snd (run_op op w))) = users (db w)
  /\ tables (db (snd (run_op op w))) = tables (db w).
Proof.
  destruct (op_fits op) eqn:Hfit;
    [|rewrite run_op_too_large by assumption; now split].
  destruct op as [u ty id days | u tid]; simpl in *.
  - rewrite borrow_item_cases by assumption.
    destruct (existsb _ _);
      [|destruct (add_timedelta_days _ _)]; simpl; now split.
  - rewrite return_item_cases by assumption.
    destruct (existsb _ _); simpl; now split.
Qed.

Lemma run_op_one_line (op : LedgerOp) (w : World Store) :
  op_fits op = true ->
  length (console (snd (run_op op w))) = S (length (console w)).
Proof.
  destruct op as [u ty id days | u tid]; simpl; intros Hfit.
  - rewrite borrow_item_cases by assumption.
    destruct (existsb _ _);
      [|destruct (add_timedelta_days _ _)]; simpl;
      now rewrite length_app, Nat.add_1_r.
  - rewrite return_item_cases by assumption.
    destruct (existsb _ _); simpl; now rewrite length_app, Nat.add_1_r.
Qed.

Lemma after_ops_lines (ops : list LedgerOp) (w : World Store) :
  forallb op_fits ops = true ->
  length (console (after_ops ops w)) = (length (console w) + length ops)%nat.
Proof.
  revert w. induction ops as [|op ops IH]; simpl; intros w Hfit.
  - now rewrite Nat.add_0_r.
  - apply andb_prop in Hfit as [Hop Hrest].
    rewrite (IH _ Hrest), (run_op_one_line op w Hop). lia.
Qed.

(** X3. Borrowing and returning, in any number and order and in any world,
    never touch the accounts or the item tables, neither in the store a
    session leaves when it ends nor in the store after its steps taken one
    by one.  When every id given fits a 64-bit signed integer, no call
    raises and every call is answered with exactly one line on the
    console.  A call with an id beyond 64 bits raises OverflowError and
    leaves store and console as they were. *)
Theorem ledger_ops_leave_the_rest_alone (ops : list LedgerOp) (w : World Store) :
  (users (db (snd (run_ops ops w))) = users (db w)
   /\ tables (db (snd (run_ops ops w))) = tables (db w))
  /\ (users (db (after_ops ops w)) = users (db w)
      /\ tables (db (after_ops ops w)) = tables (db w))
  /\ (forallb op_fits ops = true ->
        fst (run_ops ops w) = Return tt
        /\ length (console (snd (run_ops ops w)))
           = (length (console w) + length ops)%nat)
  /\ (forall op, op_fits op = false -> run_op op w = (Raise int_too_large, w)).
Proof.
  assert (Hstep : forall op w0,
            users (db w0) = users (db w) /\ tables (db w0) = tables (db w) ->
            users (db (snd (run_op op w0))) = users (db w)
            /\ tables (db (snd (run_op op w0))) = tables (db w)).
  { intros op w0 [Hu Ht]. destruct (run_op_frame op w0) as [Hu1 Ht1].
    now rewrite Hu1, Ht1. }
  split; [|split; [|split]].
  - apply (run_ops_keeps
             (fun w0 => users (db w0) = users (db w)
                        /\ tables (db w0) = tables (db w)) Hstep).
    now split.
  - apply (after_ops_keeps
             (fun w0 => users (db w0) = users (db w)
                        /\ tables (db w0) = tables (db w)) Hstep).
    now split.
  - intros Hfit. rewrite (run_ops_fits ops w Hfit). simpl.
    split; [reflexivity | now apply after_ops_lines].
  - intros op. apply run_op_too_large.
Qed.

Lemma only_active_borrow (ledger : list Transaction.t) (t a : Transaction.t) :
  (count_borrowed (Transaction.item_type t) (Transaction.item_id t) ledger <= 1)%nat ->
  In t ledger -> Transaction.status t = borrowed ->
  In a ledger ->
  active_borrow (Transaction.item_id t) (Transaction.item_type t) a = true ->
  a = t.
Proof.
  unfold count_borrowed. intros Hcount Ht Hs Ha Hact.
  assert (Htact : active_borrow (Transaction.item_id t) (Transaction.item_type t) t = true).
  { unfold active_borrow. now rewrite Z.eqb_refl, String.eqb_refl, Hs. }
  assert (Hft : In t (filter (active_borrow (Transaction.item_id t)
                                (Transaction.item_type t)) ledger))
    by (apply filter_In; now split).
  assert (Hfa : In a (filter (active_borrow (Transaction.item_id t)
                                (Transaction.item_type t)) ledger))
    by (apply filter_In; now split).
  destruct (filter _ ledger) as [|x [|y l]]; simpl in *; [tauto | | lia].
  destruct Hft as [<-|[]], Hfa as [<-|[]]. reflexivity.
Qed.

(** X4. Let the ledger hold at most one open borrow per item, and let a
    user hand back a transaction of theirs that is open, the ids of the
    transaction and of its item within 64 bits, as the ids of every row
    SQLite stores are.  Then no open borrow of that item is left, and the
    next borrow of the item, by anyone, is accepted: it adds a row whenever
    the due date is a date Python can represent. *)
Theorem returned_item_can_be_borrowed_again
    (user_name : string) (transaction_id : Z) (t : Transaction.t) (w : World Store) :
  one_borrow_per_item (transactions (db w)) ->
  In t (transactions (db w)) ->
  fits_int64 (Transaction.id t) = true ->
  fits_int64 (Transaction.item_id t) = true ->
  Transaction.id t = transaction_id ->
  Transaction.user_name t = user_name ->
  Transaction.status t = borrowed ->
  let w1 := snd (return_item user_name transaction_id w) in
  count_borrowed (Transaction.item_type t) (Transaction.item_id t)
                 (transactions (db w1)) = 0%nat
  /\ (forall (next_user : string) (days : Z),
        (-999999999 <= days <= 999999999)%Z ->
        (MINORDINAL <= clock w1 (S (ticks w1)) + days <= MAXORDINAL)%Z ->
        exists row,
          transactions (db (snd (borrow_item next_user (Transaction.item_type t)
                                   (Transaction.item_id t) days w1)))
          = transactions (db w1) ++ [row]
          /\ Transaction.user_name row = next_user
          /\ Transaction.status row = borrowed).
Proof.
  intros Hinv Hin Hfit Hfit_item Hid Hu Hs. cbv zeta.
  rewrite Hid in Hfit.
  assert (Hfree : existsb (active_borrow (Transaction.item_id t) (Transaction.item_type t))
                    (transactions (db (snd (return_item user_name transaction_id w))))
                  = false).
  { rewrite return_item_cases by assumption.
    replace (existsb (own_borrow transaction_id user_name) (transactions (db w)))
      with true by (symmetry; apply existsb_own_borrow; now exists t).
    simpl. apply not_true_iff_false. intros Hex.
    apply existsb_exists in Hex as [a' [Hin' Hact]].
    apply in_map_iff in Hin' as [a [<- Ha]].
    destruct (Z.eqb_spec (Transaction.id a) transaction_id) as [Hida|Hida].
    - unfold active_borrow, close in Hact. simpl in Hact.
      now rewrite andb_false_r in Hact.
    - assert (a = t) by (eapply only_active_borrow; eauto).
      congruence. }
  split; [now apply count_borrowed_existsb|].
  intros next_user days Hdays Hrange.
  rewrite borrow_item_cases by assumption. rewrite Hfree.
  rewrite (add_timedelta_days_in_range _ _ Hdays Hrange). simpl.
  eexists. split; [reflexivity|]. split; reflexivity.
Qed.

Lemma returned_item_can_be_borrowed_again_witness :
  let w1 := snd (return_item "alice" 1 (world_of store_after_alice_borrowed)) in
  count_borrowed "book" 5 (transactions (db w1)) = 0%nat
  /\ (forall (next_user : string) (days : Z),
        (-999999999 <= days <= 999999999)%Z ->
        (MINORDINAL <= clock w1 (S (ticks w1)) + days <= MAXORDINAL)%Z ->
        exists row,
          transactions (db (snd (borrow_item next_user "book" 5 days w1)))
          = transactions (db w1) ++ [row]
          /\ Transaction.user_name row = next_user
          /\ Transaction.status row = borrowed).
Proof.
  apply (returned_item_can_be_borrowed_again "alice" 1 alice_borrow
           (world_of store_after_alice_borrowed)); try reflexivity.
  - intros ty id.
    change (transactions (db (world_of store_after_alice_borrowed)))
      with [alice_borrow].
    unfold count_borrowed. simpl.
    destruct (active_borrow id ty alice_borrow); simpl; lia.
  - vm_compute. now left.
Defined.

(** ** The account directory over time *)









(** The sample starts, run: alice and bob are registered once each, and
    the second registration of alice left her password as it was. *)
Example sample_accounts_run :
  users (db (snd (run_account_ops plain_hashpw plain_checkpw sample_accounts
                    (world_of empty_store))))
  = [("alice", "s3cret"); ("bob", "pw")].
Proof. vm_compute. reflexivity. Qed.

(** ** The item tables over time *)

Lemma lookup_app_old {V : Type} (k : string) (v : V) (d more : list (string * V)) :
  lookup k d = Some v -> lookup k (d ++ more) = Some v.
Proof.
  induction d as [|[k' v'] d IH]; simpl; [discriminate|].
  destruct (String.eqb k k'); [trivial | exact IH].
Qed.

Lemma lookup_app_other {V : Type} (k k' : string) (v : V) (d : list (string * V)) :
  k <> k' -> lookup k (d ++ [(k', v)]) = lookup k d.
Proof.
  intros Hne. induction d as [|[k2 v2] d IH]; simpl.
  - apply String.eqb_neq in Hne. now rewrite Hne.
  - destruct (String.eqb k k2); [reflexivity | exact IH].
Qed.

(** What [create_table] does, case by case. *)
Lemma create_table_cases (table_name : string) (cols : list string) (w : World Store) :
  let declared := filter (fun col => negb (String.eqb col "id")) cols in
  let all := declared ++ (if negb (mem "user_name" cols) then ["user_name"] else []) in
  create_table table_name cols w =
  match declared with
  | [] =>
      (Return tt,
       say (Utils.markup (fstr ["Error creating table "; table_name; ": ";
                                "syntax error"]) "error") w)
  | _ :: _ =>
      match lookup table_name (tables (db w)) with
      | Some _ => (Return tt, w)
      | None =>
          if has_duplicate ("id" :: all) then
            (Return tt,
             say (Utils.markup (fstr ["Error creating table "; table_name; ": ";
                                      "duplicate column name"]) "error") w)
          else
            (Return tt,
             with_db (set_tables (db w)
                        (tables (db w)
                         ++ [(table_name, {| columns := all; rows := [] |})]))
                     w)
      end
  end.
Proof.
  cbv zeta. run_method create_table. unfold sqlite.
  destruct (filter _ cols) as [|c0 rest]; [reflexivity|].
  destruct (lookup table_name (tables (db w))); [now rewrite with_db_same|].
  destruct (has_duplicate _); reflexivity.
Qed.

(** X7. [create_table] never raises and never takes anything away: the
    accounts and the ledger are as before, and every table that was there
    is still there with its columns and rows, also when the call asks for
    that very table again with other columns.  Calling it a second time
    with the same arguments changes the store no further. *)
Theorem create_table_only_adds
    (table_name : string) (cols : list string) (w : World Store) :
  let w1 := snd (create_table table_name cols w) in
  fst (create_table table_name cols w) = Return tt
  /\ users (db w1) = users (db w)
  /\ transactions (db w1) = transactions (db w)
  /\ (forall name tbl,
        lookup name (tables (db w)) = Some tbl ->
        lookup name (tables (db w1)) = Some tbl)
  /\ db (snd (create_table table_name cols w1)) = db w1.
Proof.
  cbv zeta.
  pose proof (create_table_cases table_name cols w) as Hw. cbv zeta in Hw.
  destruct (filter (fun col => negb (String.eqb col "id")) cols) as [|c0 rest] eqn:Hf.
  - rewrite Hw. simpl. rewrite create_table_cases. cbv zeta. rewrite Hf.
    now repeat split.
  - destruct (lookup table_name (tables (db w))) as [tbl|] eqn:Hlook.
    + rewrite Hw. simpl. rewrite Hw. now repeat split.
    + destruct (has_duplicate _) eqn:Hdup.
      * rewrite Hw. cbn [fst snd]. rewrite create_table_cases. cbv zeta.
        cbn [db say]. rewrite Hf, Hlook, Hdup. now repeat split.
      * rewrite Hw. simpl. split; [reflexivity|]. split; [reflexivity|].
        split; [reflexivity|]. split.
        -- intros name tbl H. now apply lookup_app_old.
        -- rewrite create_table_cases. cbv zeta. simpl db. simpl tables.
           rewrite Hf, (lookup_app_new table_name _ _ Hlook). reflexivity.
Qed.

Lemma create_layout_step (c : Inventory) (w : World Store) :
  distinct_columns c ->
  (forall tbl, lookup (cls_item_type c) (tables (db w)) = Some tbl ->
               columns tbl = layout c) ->
  let w1 := snd (create_inventory_layout_sqlite c w) in
  fst (create_inventory_layout_sqlite c w) = Return tt
  /\ console w1 = console w
  /\ (exists tbl, lookup (cls_item_type c) (tables (db w1)) = Some tbl
                  /\ columns tbl = layout c)
  /\ (forall name, name <> cls_item_type c ->
        lookup name (tables (db w1)) = lookup name (tables (db w)))
  /\ (forall name tbl, lookup name (tables (db w)) = Some tbl ->
        lookup name (tables (db w1)) = Some tbl).
Proof.
  intros [Hne Hdup] Hold. cbv zeta.
  unfold create_inventory_layout_sqlite. rewrite create_table_cases. cbv zeta.
  fold (layout c). rewrite Hdup.
  destruct (filter _ (fields c)) as [|c0 rest]; [congruence|].
  destruct (lookup (cls_item_type c) (tables (db w))) as [tbl|] eqn:Hlook.
  - simpl. split; [reflexivity|]. split; [reflexivity|].
    split; [exists tbl; split; [assumption | now apply Hold]|].
    split; [reflexivity | trivial].
  - simpl. split; [reflexivity|]. split; [reflexivity|]. split.
    + eexists. split; [now apply lookup_app_new | reflexivity].
    + split.
      * intros name Hname. now apply lookup_app_other.
      * intros name tbl H. now apply lookup_app_old.
Qed.

Lemma initialize_ready (cs : list Inventory) (w : World Store) :
  (forall c, In c cs -> distinct_columns c) ->
  NoDup (map cls_item_type cs) ->
  (forall c tbl, In c cs ->
     lookup (cls_item_type c) (tables (db w)) = Some tbl -> columns tbl = layout c) ->
  let w1 := snd (for_each cs create_inventory_layout_sqlite w) in
  fst (for_each cs create_inventory_layout_sqlite w) = Return tt
  /\ console w1 = console w
  /\ (forall c, In c cs ->
        exists tbl, lookup (cls_item_type c) (tables (db w1)) = Some tbl
                    /\ columns tbl = layout c)
  /\ (forall name tbl, lookup name (tables (db w)) = Some tbl ->
        lookup name (tables (db w1)) = Some tbl).
Proof.
  cbv zeta. revert w. induction cs as [|c cs IH]; intros w Hok Hnd Hold.
  - simpl. repeat split; trivial. intros c [].
  - inversion Hnd as [|? ? Hnotin Hnd']; subst.
    destruct (create_layout_step c w (Hok c (or_introl eq_refl))
                (fun tbl => Hold c tbl (or_introl eq_refl)))
      as [Hret [Hcon [[tbl [Hlook Hlay]] [Hother Hkeep]]]].
    simpl. unfold bind.
    destruct (create_inventory_layout_sqlite c w) as [[[]|e] w1];
      simpl in *; [|discriminate].
    destruct (IH w1) as [Hret2 [Hcon2 [Hready2 Hkeep2]]].
    + intros c' Hc'. apply Hok. now right.
    + assumption.
    + intros c' tbl' Hc' Hl'. apply (Hold c' tbl'); [now right|].
      rewrite <- Hl'. symmetry. apply Hother.
      intros Heq. apply Hnotin. rewrite <- Heq. now apply in_map.
    + split; [assumption|]. split; [congruence|]. split.
      * intros c' [<-|Hc']; [|now apply Hready2].
        exists tbl. split; [now apply Hkeep2 | assumption].
      * intros name tbl' H. apply Hkeep2, Hkeep, H.
Qed.

Lemma distinct_columns_has_field (c : Inventory) :
  distinct_columns c -> fields c <> [].
Proof.
  intros [Hne _] Hnil. apply Hne. now rewrite Hnil.
Qed.

Lemma creatable_distinct_columns (c : Inventory) :
  creatable c -> distinct_columns c.
Proof. intros H. apply H. Qed.

(** X8. Let the classes of a registry have pairwise distinct names, and
    let each be one a table can be made for: its name and its fields are
    plain identifiers (lower case letters, digits and underscores, no
    digit first, at most 64 characters, no keyword of SQLite), the name is
    neither that of a table of the program nor one SQLite keeps for
    itself, the fields are at most 1000, there is a field other than id
    and the columns are pairwise distinct.  Let the tables of the store be
    named in plain identifiers, and let those that already exist under the
    names of the classes have the columns [create_table] gives them (as in
    a new store, or in one this program has started on before).  Then the
    start-up loop of [main] raises nothing, prints nothing, keeps every
    table that was there with its rows, and leaves every class with its
    table, laid out for it: the cross-category search can run. *)
Theorem start_up_makes_tables_ready
    (item_types : list (string * Inventory)) (w : World Store) :
  (forall c, In c (values item_types) -> creatable c) ->
  NoDup (map cls_item_type (values item_types)) ->
  plainly_named (db w) ->
  (forall c tbl, In c (values item_types) ->
     lookup (cls_item_type c) (tables (db w)) = Some tbl -> columns tbl = layout c) ->
  let w1 := snd (initialize_all_tables item_types w) in
  fst (initialize_all_tables item_types w) = Return tt
  /\ console w1 = console w
  /\ tables_ready item_types (db w1)
  /\ (forall name tbl, lookup name (tables (db w)) = Some tbl ->
        lookup name (tables (db w1)) = Some tbl).
Proof.
  intros Hok Hnd _ Hold. cbv zeta. unfold initialize_all_tables.
  assert (Hcols : forall c, In c (values item_types) -> distinct_columns c)
    by (intros c Hc; apply creatable_distinct_columns, Hok, Hc).
  destruct (initialize_ready (values item_types) w Hcols Hnd Hold)
    as [Hret [Hcon [Hready Hkeep]]].
  split; [assumption|]. split; [assumption|]. split; [|assumption].
  intros c Hc.
  split; [apply distinct_columns_has_field, Hcols, Hc | apply Hready, Hc].
Qed.

Lemma main_registry_creatable : forall c, In c (values item_types) -> creatable c.
Proof.
  intros c Hc. simpl in Hc.
  repeat (destruct Hc as [<-|Hc];
            [repeat split; try reflexivity; try discriminate; simpl; lia|]).
  contradiction.
Qed.

Lemma start_up_makes_tables_ready_witness :
  let w1 := snd (initialize_all_tables item_types (world_of library)) in
  fst (initialize_all_tables item_types (world_of library)) = Return tt
  /\ console w1 = console (world_of library)
  /\ tables_ready item_types (db w1)
  /\ (forall name tbl, lookup name (tables (db (world_of library))) = Some tbl ->
        lookup name (tables (db w1)) = Some tbl).
Proof.
  apply (start_up_makes_tables_ready item_types (world_of library)
           main_registry_creatable).
  - vm_compute. repeat constructor; simpl; intuition discriminate.
  - intros name Hname. simpl in Hname.
    repeat (destruct Hname as [<-|Hname]; [reflexivity|]).
    contradiction.
  - intros c tbl Hc. simpl in Hc.
    repeat (destruct Hc as [<-|Hc]; [intros H; inversion H; reflexivity|]).
    contradiction.
Defined.

(** ** The borrowed items of a class *)

Lemma resolve_in_items (c : Inventory) (tbl : Table) (f : string) :
  columns tbl = layout c -> In f (fields c) ->
  mem f transaction_columns = false ->
  resolve tbl f = InItems.
Proof.
  intros Hl Hf Hm. unfold resolve. rewrite Hm.
  pose proof (layout_has_column c tbl Hl) as Hall.
  rewrite forallb_forall in Hall. now rewrite (Hall f Hf).
Qed.

Lemma unresolved_none (c : Inventory) (tbl : Table) (fs : list string) :
  columns tbl = layout c ->
  (forall f, In f fs -> In f (fields c)) ->
  (forall f, In f fs -> mem f transaction_columns = false) ->
  unresolved tbl fs = None.
Proof.
  intros Hl Hin Hm. induction fs as [|f fs IH]; [reflexivity|]. simpl.
  rewrite (resolve_in_items c tbl f Hl (Hin f (or_introl eq_refl))
             (Hm f (or_introl eq_refl))).
  apply IH; intros g Hg; [apply Hin | apply Hm]; now right.
Qed.

Lemma borrowed_like_same_pattern (c : Inventory) (tbl : Table)
    (user_name : string) (pattern : value) (f1 : string) (more : list string)
    (t : Transaction.t) (r : ItemRow) :
  columns tbl = layout c ->
  fields c = f1 :: more ->
  (forall f, In f (fields c) -> mem f transaction_columns = false) ->
  borrowed_like (cls_item_type c) user_name tbl (f1 :: more)
    (map (fun _ => pattern) (f1 :: more)) t r
  = (String.eqb (Transaction.user_name t) user_name
     && String.eqb (Transaction.item_type t) (cls_item_type c)
     && is_borrowed (Transaction.status t)
     && like_value pattern (column_value tbl r f1))
    || existsb (fun f => like_value pattern (column_value tbl r f)) more.
Proof.
  intros Hl Hfs Hm. unfold borrowed_like. simpl.
  assert (Hval : forall f, In f (fields c) ->
            joined_value tbl t r f = column_value tbl r f).
  { intros f Hf. unfold joined_value.
    now rewrite (resolve_in_items c tbl f Hl Hf (Hm f Hf)). }
  rewrite (Hval f1) by (rewrite Hfs; now left). f_equal.
  assert (Hmore : forall f, In f more -> In f (fields c))
    by (intros f Hf; rewrite Hfs; now right).
  clear Hfs. induction more as [|g more IH]; [reflexivity|]. simpl.
  rewrite (Hval g) by (apply Hmore; now left).
  f_equal. apply IH. intros f Hf. apply Hmore. now right.
Qed.

(** X9. Let the table of an item class be laid out as [create_table] lays
    it out, let the class have the fields [f1, f2, ...], let none of them
    bear the name of a column of the ledger, and let the user's name hold
    no square bracket.  Then
    [get_borrowed_given_item] returns a row for a ledger row and an item
    exactly when the ledger row's item_id is the item's id and either the
    ledger row is an open borrow of the current user in this class and
    [f1] is LIKE [%term%], or one of the later fields [f2, ...] is LIKE
    [%term%]; each such row holds the transaction id, the item id and the
    item's columns.  So the conditions on the user, the class and the
    status guard the first field only: a match in a later field brings in
    the transactions of other users, returned ones, and those of other
    classes whose item_id happens to be an id of this table. *)
Theorem borrowed_listing_guards_first_field_only
    (user_name : string) (c : Inventory) (search_word : string)
    (tbl : Table) (f1 : string) (more : list string) (w : World Store) :
  rich_plain user_name = true ->
  lookup (cls_item_type c) (tables (db w)) = Some tbl ->
  columns tbl = layout c ->
  fields c = f1 :: more ->
  (forall f, In f (fields c) -> mem f transaction_columns = false) ->
  let hit := fun f r => like_value (like_param search_word) (column_value tbl r f) in
  exists results,
    fst (get_borrowed_given_item user_name c search_word w)
    = Return (Some (["TransactionId"; "id"] ++ fields c, results))
    /\ (forall row,
          In row results
          <-> exists t r,
                In t (transactions (db w))
                /\ In r (rows tbl)
                /\ Transaction.item_id t = row_id r
                /\ ((Transaction.user_name t = user_name
                     /\ Transaction.item_type t = cls_item_type c
                     /\ Transaction.status t = borrowed
                     /\ hit f1 r = true)
                    \/ exists f, In f more /\ hit f r = true)
                /\ row = VInt (Transaction.id t) :: VInt (row_id r) :: cells r)
    /\ (forall t r f,
          In t (transactions (db w)) -> In r (rows tbl) ->
          Transaction.item_id t = row_id r ->
          In f more -> hit f r = true ->
          In (VInt (Transaction.id t) :: VInt (row_id r) :: cells r) results).
Proof.
  intros _ Hlook Hl Hfs Hm. cbv zeta.
  assert (Hiff : forall row,
     In row (flat_map
               (fun t =>
                  map (fun r => VInt (Transaction.id t) :: VInt (row_id r) :: cells r)
                      (filter
                         (fun r =>
                            Z.eqb (Transaction.item_id t) (row_id r)
                            && borrowed_like (cls_item_type c) user_name tbl (f1 :: more)
                                 (map (fun _ => like_param search_word) (f1 :: more)) t r)
                         (rows tbl)))
               (transactions (db w)))
     <-> exists t r,
           In t (transactions (db w))
           /\ In r (rows tbl)
           /\ Transaction.item_id t = row_id r
           /\ ((Transaction.user_name t = user_name
                /\ Transaction.item_type t = cls_item_type c
                /\ Transaction.status t = borrowed
                /\ like_value (like_param search_word) (column_value tbl r f1) = true)
               \/ exists f, In f more
                            /\ like_value (like_param search_word)
                                 (column_value tbl r f) = true)
           /\ row = VInt (Transaction.id t) :: VInt (row_id r) :: cells r).
  { intros row. rewrite in_flat_map. split.
    - intros [t [Ht Hrow]]. apply in_map_iff in Hrow as [r [<- Hr]].
      apply filter_In in Hr as [Hr Hcond].
      apply andb_true_iff in Hcond as [Hid Hcond]. apply Z.eqb_eq in Hid.
      rewrite (borrowed_like_same_pattern c tbl _ _ f1 more t r Hl Hfs Hm) in Hcond.
      exists t, r. repeat (split; [assumption|]). split; [|reflexivity].
      apply orb_true_iff in Hcond as [H1|H2].
      + left. rewrite !andb_true_iff, !String.eqb_eq in H1.
        destruct H1 as [[[Hu Hty] Hs] Hlike]. repeat split; try assumption.
        destruct (Transaction.status t); [reflexivity | discriminate].
      + right. apply existsb_exists in H2. exact H2.
    - intros [t [r [Ht [Hr [Hid [Hcond ->]]]]]]. exists t. split; [assumption|].
      apply in_map_iff. exists r. split; [reflexivity|].
      apply filter_In. split; [assumption|].
      apply andb_true_iff. split; [now apply Z.eqb_eq|].
      rewrite (borrowed_like_same_pattern c tbl _ _ f1 more t r Hl Hfs Hm).
      apply orb_true_iff. destruct Hcond as [[Hu [Hty [Hs Hlike]]]|Hex].
      + left. rewrite !andb_true_iff, !String.eqb_eq, Hs. now repeat split.
      + right. now apply existsb_exists. }
  eexists. split; [|split].
  - run_method get_borrowed_given_item. unfold sqlite_join. rewrite Hfs, Hlook.
    assert (Hun : unresolved tbl (f1 :: more) = None).
    { apply (unresolved_none c tbl (f1 :: more) Hl); intros f Hf;
        [|apply Hm]; rewrite Hfs; exact Hf. }
    rewrite Hun. cbn [app]. rewrite length_map, Nat.eqb_refl.
    rewrite (bindable_same_pattern (like_param search_word) (f1 :: more) eq_refl).
    reflexivity.
  - exact Hiff.
  - intros t r f Ht Hr Hid Hf Hhit. apply Hiff.
    exists t, r. repeat (split; [assumption|]). split; [|reflexivity].
    right. now exists f.
Qed.

Lemma borrowed_listing_guards_first_field_only_witness :
  let hit := fun f r => like_value (like_param "fiction") (column_value library_books r f) in
  exists results,
    fst (get_borrowed_given_item "zed" Book "fiction" (world_of lending_library))
    = Return (Some (["TransactionId"; "id"] ++ fields Book, results))
    /\ (forall row,
          In row results
          <-> exists t r,
                In t (transactions (db (world_of lending_library)))
                /\ In r (rows library_books)
                /\ Transaction.item_id t = row_id r
                /\ ((Transaction.user_name t = "zed"
                     /\ Transaction.item_type t = cls_item_type Book
                     /\ Transaction.status t = borrowed
                     /\ hit "name" r = true)
                    \/ exists f, In f ["author"; "genre"; "date"] /\ hit f r = true)
                /\ row = VInt (Transaction.id t) :: VInt (row_id r) :: cells r)
    /\ (forall t r f,
          In t (transactions (db (world_of lending_library))) ->
          In r (rows library_books) ->
          Transaction.item_id t = row_id r ->
          In f ["author"; "genre"; "date"] -> hit f r = true ->
          In (VInt (Transaction.id t) :: VInt (row_id r) :: cells r) results).
Proof.
  apply (borrowed_listing_guards_first_field_only "zed" Book "fiction"
           library_books "name" ["author"; "genre"; "date"]
           (world_of lending_library)); try reflexivity.
  intros f Hf. simpl in Hf.
  repeat (destruct Hf as [<-|Hf]; [reflexivity|]). contradiction.
Defined.

(** In the sample library, zed, who has borrowed nothing, looks for his
    borrowed books with the word "fiction" and is shown bob's returned
    transaction and carol's transaction on a magazine. *)
Example zed_is_shown_the_transactions_of_others :
  fst (get_borrowed_given_item "zed" Book "fiction" (world_of lending_library))
  = Return
      (Some (["TransactionId"; "id"; "name"; "author"; "genre"; "date"],
             [[VInt 2; VInt 2; VText "Dune"; VText "Frank Herbert";
               VText "science fiction"; VNull; VText "bob"];
              [VInt 3; VInt 2; VText "Dune"; VText "Frank Herbert";
               VText "science fiction"; VNull; VText "bob"]])).
Proof. vm_compute. reflexivity. Qed.

(** ** Searching: edge cases *)

Lemma compound_rows_fails (tbls : list (string * Table)) (common_columns : list string)
    (cs : list Inventory) (params : list value) (c : Inventory) :
  In c cs ->
  fields c = [] \/ lookup (cls_item_type c) tbls = None ->
  exists e, compound_rows tbls (map (sub_query_of common_columns) cs) params = inl e.
Proof.
  revert params. induction cs as [|a cs IH]; intros params Hin Hbad; [contradiction|].
  simpl map. unfold compound_rows; fold compound_rows.
  change (sq_like (sub_query_of common_columns a)) with (fields a).
  change (sq_table (sub_query_of common_columns a)) with (cls_item_type a).
  destruct (fields a) as [|f fs] eqn:Hfa; [eexists; reflexivity|].
  destruct (lookup (cls_item_type a) tbls) as [tbl|] eqn:Hla; [|eexists; reflexivity].
  destruct (_ && _); [|eexists; reflexivity].
  destruct Hin as [->|Hin].
  - destruct Hbad as [Hb|Hb]; congruence.
  - destruct (IH (skipn (length (f :: fs)) params) Hin Hbad) as [e He].
    rewrite He. now exists e.
Qed.

(** X10. When some class of the registry has no field or no table, the
    cross-category search finds nothing at all, not even in the tables of
    the other classes: it returns the header with no rows, leaves the store
    as it was, and prints the error of the store followed by the line
    "Search results retrieved successfully!". *)
Theorem search_all_fails_as_a_whole
    (item_types : list (string * Inventory)) (search_word : string)
    (c : Inventory) (w : World Store) :
  In c (values item_types) ->
  fields c = [] \/ lookup (cls_item_type c) (tables (db w)) = None ->
  exists e,
    is_sqlite3_Error e = true
    /\ search_for_every_item_type item_types search_word w
       = (Return (Some (["Category"; "id"]
                        ++ search_for_every_item_type_columns item_types, [])),
          say search_success_message (say (fetch_error_message e) w)).
Proof.
  intros Hin Hbad.
  destruct (compound_rows_fails (tables (db w))
              (search_for_every_item_type_columns item_types)
              (values item_types)
              (flat_map (fun item_obj => map (fun _ => like_param search_word)
                                             (fields item_obj))
                        (values item_types))
              c Hin Hbad) as [e He].
  exists e. assert (Hcls : is_sqlite3_Error e = true)
    by (eapply compound_rows_error; exact He).
  split; [assumption|].
  run_method search_for_every_item_type. unfold sqlite.
  rewrite He, Hcls. reflexivity.
Qed.

Lemma search_all_fails_as_a_whole_witness :
  exists e,
    is_sqlite3_Error e = true
    /\ search_for_every_item_type item_types "Tolkien"
         (world_of (set_tables empty_store [("book", library_books)]))
       = (Return (Some (["Category"; "id"]
                        ++ search_for_every_item_type_columns item_types, [])),
          say search_success_message
              (say (fetch_error_message e)
                   (world_of (set_tables empty_store [("book", library_books)])))).
Proof.
  apply (search_all_fails_as_a_whole item_types "Tolkien" Magazine
           (world_of (set_tables empty_store [("book", library_books)]))).
  - simpl. tauto.
  - right. reflexivity.
Defined.

Lemma like_empty_term (s : string) : like (fstr ["%"; ""; "%"]) s = true.
Proof.
  change (fstr ["%"; ""; "%"]) with (String "%" "%").
  rewrite like_percent, like_percent_alone. reflexivity.
Qed.

Lemma like_value_empty_term (v : value) :
  like_value (like_param "") v = negb (is_null v).
Proof.
  unfold like_value, like_param. simpl text_of at 1.
  destruct v; simpl; try reflexivity; apply like_empty_term.
Qed.

(** X11. An empty search term selects every row that has a value in at
    least one field of the class: with the table of the class laid out by
    [create_table] and at least one field, [search_with_auto_complete]
    called with the empty term returns exactly the rows in which not all
    fields of the class are NULL. *)
Theorem empty_term_finds_every_item
    (item_type : Inventory) (tbl : Table) (w : World Store) :
  fields item_type <> [] ->
  lookup (cls_item_type item_type) (tables (db w)) = Some tbl ->
  columns tbl = layout item_type ->
  search_with_auto_complete item_type "" w
  = (Return
       (Some (["Category"; "id"] ++ fields item_type,
              map (fun r => VText (cls_item_type item_type) :: VInt (row_id r) :: cells r)
                  (filter (fun r =>
                             existsb (fun f => negb (is_null (column_value tbl r f)))
                                     (fields item_type))
                          (rows tbl)))),
     w).
Proof.
  intros Hne Hlook Hl. run_method search_with_auto_complete.
  rewrite (sqlite_search_one _ _ (like_param "") (db w) tbl Hne Hlook
             (layout_has_column item_type tbl Hl) eq_refl).
  rewrite with_db_same. do 4 f_equal. f_equal.
  apply filter_ext. intros r. generalize (fields item_type) as fs.
  induction fs as [|f fs IH]; [reflexivity|].
  simpl. now rewrite like_value_empty_term, IH.
Qed.

Lemma empty_term_finds_every_item_witness :
  search_with_auto_complete Book "" (world_of library)
  = (Return
       (Some (["Category"; "id"; "name"; "author"; "genre"; "date"],
              [[VText "book"; VInt 1; VText "The Hobbit"; VText "J. R. R. Tolkien";
                VText "fantasy"; VText "1937-09-21"; VText "alice"];
               [VText "book"; VInt 2; VText "Dune"; VText "Frank Herbert";
                VText "science fiction"; VNull; VText "bob"]])),
     world_of library).
Proof.
  assert (Hne : fields Book <> []) by discriminate.
  exact (empty_term_finds_every_item Book library_books (world_of library)
           Hne eq_refl eq_refl).
Defined.

(** ** Filling in an item at the terminal *)

Lemma lookup_set_attr_same (k : string) (v : attr) (l : list (string * attr)) :
  lookup k (set_attr k v l) = Some v.
Proof.
  induction l as [|[k' v'] l IH]; simpl.
  - now rewrite String.eqb_refl.
  - destruct (String.eqb k k') eqn:E; simpl.
    + now rewrite String.eqb_refl.
    + now rewrite E.
Qed.

Lemma lookup_set_attr_other (k k' : string) (v : attr) (l : list (string * attr)) :
  k <> k' -> lookup k' (set_attr k v l) = lookup k' l.
Proof.
  intros Hne. induction l as [|[k0 v0] l IH]; simpl.
  - destruct (String.eqb k' k) eqn:E; [|reflexivity].
    apply String.eqb_eq in E. congruence.
  - destruct (String.eqb k k0) eqn:E; simpl.
    + apply String.eqb_eq in E. subst k0.
      destruct (String.eqb k' k) eqn:E'; [|reflexivity].
      apply String.eqb_eq in E'. congruence.
    + now rewrite IH.
Qed.

Lemma attribute_setattr_same (self : Item) (field : string) (v : attr) :
  attribute (setattr self field v) field = Some v.
Proof.
  unfold attribute, setattr.
  destruct (String.eqb field "name") eqn:E; simpl; [reflexivity|].
  apply lookup_set_attr_same.
Qed.

Lemma attribute_setattr_other (self : Item) (field field' : string) (v : attr) :
  field <> field' ->
  attribute (setattr self field v) field' = attribute self field'.
Proof.
  intros Hne. unfold attribute, setattr.
  destruct (String.eqb field "name") eqn:E; destruct (String.eqb field' "name") eqn:E';
    simpl; try reflexivity.
  - apply String.eqb_eq in E, E'. congruence.
  - now apply lookup_set_attr_other.
Qed.

Lemma item_class_setattr (self : Item) (field : string) (v : attr) :
  item_class (setattr self field v) = item_class self.
Proof. unfold setattr. now destruct (String.eqb field "name"). Qed.

(** The line a prompt returns is the next line to be typed. *)
Lemma rich_prompting_reads (prompt_message tag : string) (t : Terminal) :
  match rich_prompting prompt_message tag t with
  | (Done line, t') =>
      keyboard t = line :: keyboard t' /\ db (world t') = db (world t)
  | (Failed EOFError, t') =>
      keyboard t = [] /\ keyboard t' = [] /\ db (world t') = db (world t)
  | (Failed _, _) => False
  end.
Proof.
  unfold rich_prompting. destruct (keyboard t) as [|line rest] eqn:Hk; simpl.
  - repeat split.
  - split; reflexivity.
Qed.

Lemma io_print_keeps (message tag : string) (t : Terminal) :
  io_print message tag t
  = (Done tt, {| world := say (Utils.markup message tag) (world t);
                 keyboard := keyboard t |}).
Proof. reflexivity. Qed.

(** *** What the questions take from the lines typed *)

Lemma asks_as_run {A : Type} (ask : IO A)
    (answer : list string -> option (A * list string)) :
  (forall t, exists t',
     ask t = (match answer (keyboard t) with
              | Some (v, _) => Done v
              | None => Failed EOFError
              end, t')
     /\ keyboard t' = match answer (keyboard t) with
                      | Some (_, rest) => rest
                      | None => []
                      end
     /\ db (world t') = db (world t)) ->
  asks_as ask answer.
Proof.
  intros H t. specialize (H t).
  destruct (answer (keyboard t)) as [[v rest]|]; exact H.
Qed.

(** The question for a name takes the first line that is not blank. *)
Lemma ask_name_asks (cls_item_type field : string) :
  asks_as (ask_name cls_item_type field) first_filled.
Proof.
  apply asks_as_run. intros t. unfold ask_name, while_true.
  assert (Hlen : (length (keyboard t) < S (length (keyboard t)))%nat)
    by apply Nat.lt_succ_diag_r.
  revert Hlen. generalize (S (length (keyboard t))) as rounds.
  intros rounds. revert t.
  induction rounds as [|k IH]; intros [w lines] Hlen; [inversion Hlen|].
  cbn [keyboard world] in *. destruct lines as [|line rest].
  - eexists. cbn [first_filled loop]. unfold io_bind, rich_prompting.
    cbn [keyboard world]. repeat split.
  - cbn [first_filled loop]. unfold io_bind at 1. unfold io_bind at 1.
    unfold rich_prompting at 1. cbn [keyboard world].
    destruct (not_blank line) eqn:Hb.
    + eexists. unfold io_ret. repeat split.
    + unfold io_bind at 1. rewrite io_print_keeps. cbn [keyboard world].
      unfold io_ret at 1. cbv beta iota.
      match goal with
      | |- context [loop k ?body ?t1] => specialize (IH t1)
      end.
      cbn [keyboard world length] in IH, Hlen.
      exact (IH (proj2 (Nat.succ_lt_mono _ _) Hlen)).
Qed.

(** The question for any other field takes the next line. *)
Lemma ask_plain_asks (cls_item_type field : string) :
  asks_as (ask_plain cls_item_type field) next_line.
Proof.
  intros [w lines]. unfold ask_plain, io_bind, rich_prompting, io_ret.
  cbn [keyboard world]. destruct lines as [|line rest]; cbn [next_line];
    eexists; repeat split.
Qed.

(** The question for a date takes the first line that is blank or that the
    parser reads. *)
Lemma ask_date_asks (strptime : string -> option Z) (field : string) :
  asks_as (ask_date strptime field) (first_date strptime).
Proof.
  apply asks_as_run. intros t. unfold ask_date, while_true.
  assert (Hlen : (length (keyboard t) < S (length (keyboard t)))%nat)
    by apply Nat.lt_succ_diag_r.
  revert Hlen. generalize (S (length (keyboard t))) as rounds.
  intros rounds. revert t.
  induction rounds as [|k IH]; intros [w lines] Hlen; [inversion Hlen|].
  cbn [keyboard world] in *. destruct lines as [|line rest].
  - eexists. cbn [first_date loop]. unfold io_bind, rich_prompting.
    cbn [keyboard world]. repeat split.
  - cbn [first_date loop]. unfold io_bind at 1. unfold io_bind at 1.
    unfold rich_prompting at 1. cbn [keyboard world].
    destruct (not_blank line) eqn:Hb.
    + destruct (strptime line) as [d|] eqn:Hd.
      * eexists. unfold io_ret. repeat split.
      * unfold io_bind at 1. rewrite io_print_keeps. cbn [keyboard world].
        unfold io_ret at 1. cbv beta iota.
        match goal with
        | |- context [loop k ?body ?t1] => specialize (IH t1)
        end.
        cbn [keyboard world length] in IH, Hlen.
        exact (IH (proj2 (Nat.succ_lt_mono _ _) Hlen)).
    + eexists. unfold io_ret. repeat split.
Qed.

Lemma answer_of_asks (cls_item_type field : string) :
  asks_as (if contains field "name" then ask_name cls_item_type field
           else ask_plain cls_item_type field)
          (answer_of field).
Proof.
  unfold answer_of. destruct (contains field "name").
  - apply ask_name_asks.
  - apply ask_plain_asks.
Qed.

Lemma dated_answer_of_asks (strptime : string -> option Z)
    (cls_item_type field : string) :
  asks_as (if contains field "name" then ask_name cls_item_type field
           else if contains field "date" then ask_date strptime field
                else ask_plain cls_item_type field)
          (dated_answer_of strptime field).
Proof.
  unfold dated_answer_of. destruct (contains field "name").
  - apply ask_name_asks.
  - destruct (contains field "date").
    + apply ask_date_asks.
    + apply ask_plain_asks.
Qed.

(** The loop over the fields asks the questions one after the other and
    sets each field to its answer. *)
Lemma fill_run (ask : string -> IO attr)
    (answer : string -> list string -> option (attr * list string)) :
  (forall f, asks_as (ask f) (answer f)) ->
  forall (fs : list string) (self : Item) (t : Terminal),
    match answers_of answer fs (keyboard t) with
    | Some (values, rest) =>
        exists t',
          for_fold fs self
            (fun self field => value <-- ask field ;;; io_ret (setattr self field value)) t
          = (Done (set_all values self), t')
          /\ keyboard t' = rest /\ db (world t') = db (world t)
    | None =>
        exists t',
          for_fold fs self
            (fun self field => value <-- ask field ;;; io_ret (setattr self field value)) t
          = (Failed EOFError, t')
          /\ keyboard t' = [] /\ db (world t') = db (world t)
    end.
Proof.
  intros Hask fs. induction fs as [|f0 fs IH]; intros self t.
  - cbn [answers_of for_fold]. exists t. repeat split.
  - cbn [answers_of].
    pose proof (Hask f0 t) as H0.
    destruct (answer f0 (keyboard t)) as [[v rest0]|].
    + destruct H0 as [t1 [Hrun [Hk Hdb]]].
      assert (Hstep :
                for_fold (f0 :: fs) self
                  (fun self field =>
                     value <-- ask field ;;; io_ret (setattr self field value)) t
                = for_fold fs (setattr self f0 v)
                    (fun self field =>
                       value <-- ask field ;;; io_ret (setattr self field value)) t1).
      { cbn [for_fold]. unfold io_bind at 1. unfold io_bind at 1.
        now rewrite Hrun. }
      rewrite Hstep.
      specialize (IH (setattr self f0 v) t1). rewrite Hk in IH.
      destruct (answers_of answer fs rest0) as [[values rest]|].
      * destruct IH as [t2 [Hrun2 [Hk2 Hdb2]]]. exists t2.
        split; [exact Hrun2|]. split; [assumption | congruence].
      * destruct IH as [t2 [Hrun2 [Hk2 Hdb2]]]. exists t2.
        split; [exact Hrun2|]. split; [assumption | congruence].
    + destruct H0 as [t1 [Hrun [Hk Hdb]]]. exists t1.
      split; [|split; assumption].
      cbn [for_fold]. unfold io_bind at 1. unfold io_bind at 1.
      now rewrite Hrun.
Qed.

(** *** The answers, read off the lines *)

Lemma first_filled_typed (lines rest : list string) (v : attr) :
  first_filled lines = Some (v, rest) ->
  (exists s, v = AStr s /\ In s lines /\ not_blank s = true)
  /\ exists typed, typed <> [] /\ lines = typed ++ rest.
Proof.
  induction lines as [|line more IH]; cbn [first_filled]; [discriminate|].
  destruct (not_blank line) eqn:Hb.
  - intros H. inversion H; subst. split.
    + exists line. split; [reflexivity|]. split; [now left | assumption].
    + exists [line]. split; [discriminate | reflexivity].
  - intros H. destruct (IH H) as [[s [Hv [Hin Hs]]] [typed [Hne Hk]]]. split.
    + exists s. split; [assumption|]. split; [now right | assumption].
    + exists (line :: typed). split; [discriminate | now rewrite Hk].
Qed.

Lemma next_line_typed (lines rest : list string) (v : attr) :
  next_line lines = Some (v, rest) ->
  (exists s, v = AStr s /\ In s lines)
  /\ exists typed, typed <> [] /\ lines = typed ++ rest.
Proof.
  destruct lines as [|line more]; cbn [next_line]; [discriminate|].
  intros H. inversion H; subst. split.
  - exists line. split; [reflexivity | now left].
  - exists [line]. split; [discriminate | reflexivity].
Qed.

Lemma first_date_typed (strptime : string -> option Z) (lines rest : list string)
    (v : attr) :
  first_date strptime lines = Some (v, rest) ->
  ((v = ANone /\ exists s, In s lines /\ not_blank s = false)
   \/ exists s d, In s lines /\ not_blank s = true /\ strptime s = Some d
                  /\ v = ADate d)
  /\ exists typed, typed <> [] /\ lines = typed ++ rest.
Proof.
  induction lines as [|line more IH]; cbn [first_date]; [discriminate|].
  destruct (not_blank line) eqn:Hb.
  - destruct (strptime line) as [d|] eqn:Hd.
    + intros H. inversion H; subst. split.
      * right. exists line, d. split; [now left|]. now repeat split.
      * exists [line]. split; [discriminate | reflexivity].
    + intros H. destruct (IH H) as [Hv [typed [Hne Hk]]]. split.
      * destruct Hv as [[Hv [s [Hin Hs]]]|[s [d [Hin Hrest]]]].
        -- left. split; [assumption|]. exists s. split; [now right | assumption].
        -- right. exists s, d. split; [now right | assumption].
      * exists (line :: typed). split; [discriminate | now rewrite Hk].
  - intros H. inversion H; subst. split.
    + left. split; [reflexivity|]. exists line. split; [now left | assumption].
    + exists [line]. split; [discriminate | reflexivity].
Qed.

Lemma answer_of_typed (field : string) (lines : list string) (v : attr)
    (rest : list string) :
  answer_of field lines = Some (v, rest) ->
  filled_in lines field v /\ exists typed, typed <> [] /\ lines = typed ++ rest.
Proof.
  unfold answer_of, filled_in. destruct (contains field "name") eqn:E; intros H.
  - destruct (first_filled_typed _ _ _ H) as [[s [Hv [Hin Hs]]] Htyped].
    split; [|assumption]. exists s. now repeat split.
  - destruct (next_line_typed _ _ _ H) as [[s [Hv Hin]] Htyped].
    split; [|assumption]. exists s. split; [assumption|].
    split; [assumption | discriminate].
Qed.

Lemma dated_answer_of_typed (strptime : string -> option Z) (field : string)
    (lines : list string) (v : attr) (rest : list string) :
  dated_answer_of strptime field lines = Some (v, rest) ->
  filled_in_with_dates strptime lines field v
  /\ exists typed, typed <> [] /\ lines = typed ++ rest.
Proof.
  unfold dated_answer_of, filled_in_with_dates.
  destruct (contains field "name") eqn:E; intros H.
  - destruct (first_filled_typed _ _ _ H) as [[s [Hv [Hin Hs]]] Htyped].
    split; [|assumption]. exists s. now repeat split.
  - destruct (contains field "date") eqn:E'.
    + apply (first_date_typed strptime _ _ _ H).
    + destruct (next_line_typed _ _ _ H) as [[s [Hv Hin]] Htyped].
      split; [|assumption]. exists s. now split.
Qed.

Lemma filled_in_more (typed lines : list string) (field : string) (v : attr) :
  filled_in lines field v -> filled_in (typed ++ lines) field v.
Proof.
  intros [s [Hv [Hin Hs]]]. exists s. split; [assumption|].
  split; [apply in_or_app; now right | assumption].
Qed.

Lemma filled_in_with_dates_more (strptime : string -> option Z)
    (typed lines : list string) (field : string) (v : attr) :
  filled_in_with_dates strptime lines field v ->
  filled_in_with_dates strptime (typed ++ lines) field v.
Proof.
  unfold filled_in_with_dates.
  destruct (contains field "name"); [|destruct (contains field "date")].
  - intros [s [Hv [Hin Hs]]]. exists s. split; [assumption|].
    split; [apply in_or_app; now right | assumption].
  - intros [[Hv [s [Hin Hs]]]|[s [d [Hin Hrest]]]].
    + left. split; [assumption|]. exists s.
      split; [apply in_or_app; now right | assumption].
    + right. exists s, d. split; [apply in_or_app; now right | assumption].
  - intros [s [Hv Hin]]. exists s. split; [assumption|].
    apply in_or_app; now right.
Qed.

(** The answers are as many as the fields and in their order, each is
    what its question takes from the lines, and every question uses up at
    least one line. *)
Lemma answers_of_typed
    (answer : string -> list string -> option (attr * list string))
    (Q : list string -> string -> attr -> Prop) :
  (forall f lines v rest, answer f lines = Some (v, rest) ->
     Q lines f v /\ exists typed, typed <> [] /\ lines = typed ++ rest) ->
  (forall typed lines f v, Q lines f v -> Q (typed ++ lines) f v) ->
  forall fs lines values rest,
    answers_of answer fs lines = Some (values, rest) ->
    map fst values = fs
    /\ (forall f v, In (f, v) values -> Q lines f v)
    /\ exists typed, lines = typed ++ rest /\ (length fs <= length typed)%nat.
Proof.
  intros Hanswer Hmore fs.
  induction fs as [|f0 fs IH]; intros lines values rest; cbn [answers_of].
  - intros H. inversion H; subst. split; [reflexivity|].
    split; [intros f v []|]. exists []. split; [reflexivity | apply Nat.le_refl].
  - destruct (answer f0 lines) as [[v0 rest0]|] eqn:H0; [|discriminate].
    destruct (answers_of answer fs rest0) as [[values' rest']|] eqn:H1;
      [|discriminate].
    intros H. inversion H; subst.
    destruct (Hanswer _ _ _ _ H0) as [HQ [typed [Hne Hk]]].
    destruct (IH _ _ _ H1) as [Hfs [HQs [typed' [Hk' Hlen]]]].
    split; [cbn [map fst]; now rewrite Hfs|]. split.
    + intros f v [Heq|Hin].
      * inversion Heq; subst. exact HQ.
      * rewrite Hk. apply Hmore. now apply HQs.
    + exists (typed ++ typed'). split; [now rewrite Hk, Hk', app_assoc|].
      rewrite length_app. destruct typed; [congruence|]. cbn [length].
      apply le_n_S. eapply Nat.le_trans; [exact Hlen|].
      rewrite Nat.add_comm. apply Nat.le_add_r.
Qed.

Lemma item_class_set_all (values : list (string * attr)) (self : Item) :
  item_class (set_all values self) = item_class self.
Proof.
  unfold set_all. revert self.
  induction values as [|[f v] values IH]; intros self; [reflexivity|].
  cbn [fold_left fst snd]. now rewrite IH, item_class_setattr.
Qed.

Lemma attribute_set_all_other (values : list (string * attr)) (self : Item)
    (f : string) :
  ~ In f (map fst values) ->
  attribute (set_all values self) f = attribute self f.
Proof.
  unfold set_all. revert self.
  induction values as [|[f0 v0] values IH]; intros self Hf; [reflexivity|].
  cbn [fold_left fst snd map] in *.
  rewrite IH by (intros H; apply Hf; now right).
  apply attribute_setattr_other. intros ->. apply Hf. now left.
Qed.

(** A field that was set holds one of the values it was set to. *)
Lemma attribute_set_all (values : list (string * attr)) (self : Item) (f : string) :
  In f (map fst values) ->
  exists v, In (f, v) values /\ attribute (set_all values self) f = Some v.
Proof.
  revert self.
  induction values as [|[f0 v0] values IH]; intros self Hf; [destruct Hf|].
  destruct (in_dec string_dec f (map fst values)) as [Hin|Hout].
  - destruct (IH (setattr self f0 v0) Hin) as [v [Hv Hattr]].
    exists v. split; [now right | exact Hattr].
  - destruct Hf as [Heq|Hin]; [|contradiction]. cbn [fst] in Heq. subst f0.
    exists v0. split; [now left|].
    change (set_all ((f, v0) :: values) self)
      with (set_all values (setattr self f v0)).
    rewrite (attribute_set_all_other values _ f Hout).
    apply attribute_setattr_same.
Qed.

(** X12. Whatever is typed, [get_fields] on a new item takes for each field
    of the class, in their order, a line of those typed: for a field whose
    name contains "name" the first line from there on that is not blank,
    the blank lines before it passed over, and for any other field the
    next line.  When the lines are enough it returns the item with every
    field set to the line taken for it - so a field whose name contains
    "name" is never left blank - and leaves the lines after the last one
    taken, at least one line per field being used up; when they are not
    enough it ends with EOFError, no line left.  It ends in no other way,
    and the store is as before. *)
Theorem get_fields_never_leaves_a_name_blank (c : Inventory) (t : Terminal) :
  ordinary_fields c = true ->
  match answers_of answer_of (fields c) (keyboard t) with
  | Some (values, rest) =>
      (exists t', get_fields (new_item c) t = (Done (set_all values (new_item c)), t')
                  /\ keyboard t' = rest /\ db (world t') = db (world t))
      /\ item_class (set_all values (new_item c)) = c
      /\ map fst values = fields c
      /\ (forall f v, In (f, v) values -> filled_in (keyboard t) f v)
      /\ (forall f, In f (fields c) ->
            exists v, In (f, v) values
                      /\ attribute (set_all values (new_item c)) f = Some v)
      /\ exists typed, keyboard t = typed ++ rest
                       /\ (length (fields c) <= length typed)%nat
  | None =>
      exists t', get_fields (new_item c) t = (Failed EOFError, t')
                 /\ keyboard t' = [] /\ db (world t') = db (world t)
  end.
Proof.
  intros _.
  pose proof (fill_run _ _ (answer_of_asks (cls_item_type c)) (fields c)
                (new_item c) t) as Hrun.
  destruct (answers_of answer_of (fields c) (keyboard t)) as [[values rest]|] eqn:Ha;
    [|exact Hrun].
  destruct (answers_of_typed answer_of filled_in answer_of_typed filled_in_more
              _ _ _ _ Ha) as [Hfs [HQ Htyped]].
  split; [exact Hrun|]. split; [apply item_class_set_all|].
  split; [assumption|]. split; [assumption|]. split; [|assumption].
  intros f Hf. apply attribute_set_all. now rewrite Hfs.
Qed.

Lemma get_fields_never_leaves_a_name_blank_witness :
  let lines := ["  "; "Tides"; "A. Moon"; ""; "Sea Letters"; "4"; "2"; "pdf"; "next"] in
  match answers_of answer_of (fields Journal) (keyboard (typing lines library)) with
  | Some (values, rest) =>
      (exists t', get_fields (new_item Journal) (typing lines library)
                  = (Done (set_all values (new_item Journal)), t')
                  /\ keyboard t' = rest
                  /\ db (world t') = db (world (typing lines library)))
      /\ item_class (set_all values (new_item Journal)) = Journal
      /\ map fst values = fields Journal
      /\ (forall f v, In (f, v) values ->
            filled_in (keyboard (typing lines library)) f v)
      /\ (forall f, In f (fields Journal) ->
            exists v, In (f, v) values
                      /\ attribute (set_all values (new_item Journal)) f = Some v)
      /\ exists typed, keyboard (typing lines library) = typed ++ rest
                       /\ (length (fields Journal) <= length typed)%nat
  | None =>
      exists t', get_fields (new_item Journal) (typing lines library)
                 = (Failed EOFError, t')
                 /\ keyboard t' = []
                 /\ db (world t') = db (world (typing lines library))
  end.
Proof.
  exact (get_fields_never_leaves_a_name_blank Journal
           (typing ["  "; "Tides"; "A. Moon"; ""; "Sea Letters"; "4"; "2"; "pdf"; "next"]
                   library)
           eq_refl).
Defined.

(** The dialogue of the witness: the blank name is refused once, the
    empty journal name as well, and the line after the last answer is
    left to be read. *)
Example journal_dialogue :
  let lines := ["  "; "Tides"; "A. Moon"; ""; "Sea Letters"; "4"; "2"; "pdf"; "next"] in
  let r := get_fields (new_item Journal) (typing lines library) in
  answers_of answer_of (fields Journal) lines
  = Some ([("name", AStr "Tides"); ("author", AStr "A. Moon");
           ("journal_name", AStr "Sea Letters"); ("volume", AStr "4");
           ("issue", AStr "2"); ("format", AStr "pdf")],
          ["next"])
  /\ fst r = Done {| item_class := Journal; name := AStr "Tides";
                     attributes := [("author", AStr "A. Moon");
                                    ("journal_name", AStr "Sea Letters");
                                    ("volume", AStr "4"); ("issue", AStr "2");
                                    ("format", AStr "pdf")] |}
  /\ keyboard (snd r) = ["next"]
  /\ console (world (snd r))
     = ["[cyan]Enter name of journal(cannot be empty): [/cyan]";
        "[red]Name is compulsory. Please enter the name of journal[/red]";
        "[cyan]Enter name of journal(cannot be empty): [/cyan]";
        "[cyan]Enter author of journal: [/cyan]";
        "[cyan]Enter journal_name of journal(cannot be empty): [/cyan]";
        "[red]Name is compulsory. Please enter the name of journal[/red]";
        "[cyan]Enter journal_name of journal(cannot be empty): [/cyan]";
        "[cyan]Enter volume of journal: [/cyan]";
        "[cyan]Enter issue of journal: [/cyan]";
        "[cyan]Enter format of journal: [/cyan]"].
Proof. vm_compute. repeat split. Qed.

(** X13. Whatever is typed, [get_date_with_fields] on a new item takes for
    each field of the class, in their order, a line of those typed: for a
    field whose name contains "name" the first line from there on that is
    not blank; for any other field whose name contains "date" the first
    line from there on that is blank or that the parser reads, the lines
    the parser refuses passed over; for any further field the next line.
    When the lines are enough it returns the item with every field set to
    its answer - the line taken, or for a date field None after a blank
    line and else the date the parser read from the line - and leaves the
    lines after the last one taken; when they are not enough it ends with
    EOFError, no line left.  It ends in no other way, and the store is as
    before.  So a date field never keeps a text the parser refused. *)
Theorem get_date_with_fields_keeps_dates_only
    (strptime : string -> option Z) (c : Inventory) (t : Terminal) :
  ordinary_fields c = true ->
  match answers_of (dated_answer_of strptime) (fields c) (keyboard t) with
  | Some (values, rest) =>
      (exists t', get_date_with_fields strptime (new_item c) t
                  = (Done (set_all values (new_item c)), t')
                  /\ keyboard t' = rest /\ db (world t') = db (world t))
      /\ item_class (set_all values (new_item c)) = c
      /\ map fst values = fields c
      /\ (forall f v, In (f, v) values ->
            filled_in_with_dates strptime (keyboard t) f v)
      /\ (forall f, In f (fields c) ->
            exists v, In (f, v) values
                      /\ attribute (set_all values (new_item c)) f = Some v)
      /\ exists typed, keyboard t = typed ++ rest
                       /\ (length (fields c) <= length typed)%nat
  | None =>
      exists t', get_date_with_fields strptime (new_item c) t = (Failed EOFError, t')
                 /\ keyboard t' = [] /\ db (world t') = db (world t)
  end.
Proof.
  intros _.
  pose proof (fill_run _ _ (dated_answer_of_asks strptime (cls_item_type c))
                (fields c) (new_item c) t) as Hrun.
  destruct (answers_of (dated_answer_of strptime) (fields c) (keyboard t))
    as [[values rest]|] eqn:Ha; [|exact Hrun].
  destruct (answers_of_typed (dated_answer_of strptime)
              (filled_in_with_dates strptime)
              (dated_answer_of_typed strptime)
              (filled_in_with_dates_more strptime)
              _ _ _ _ Ha) as [Hfs [HQ Htyped]].
  split; [exact Hrun|]. split; [apply item_class_set_all|].
  split; [assumption|]. split; [assumption|]. split; [|assumption].
  intros f Hf. apply attribute_set_all. now rewrite Hfs.
Qed.

Lemma get_date_with_fields_keeps_dates_only_witness :
  let lines := ["Dune"; "Frank Herbert"; ""; "14.12.2014"; "2014-12-14"] in
  match answers_of (dated_answer_of sample_strptime) (fields Book)
          (keyboard (typing lines library)) with
  | Some (values, rest) =>
      (exists t', get_date_with_fields sample_strptime (new_item Book)
                    (typing lines library)
                  = (Done (set_all values (new_item Book)), t')
                  /\ keyboard t' = rest
                  /\ db (world t') = db (world (typing lines library)))
      /\ item_class (set_all values (new_item Book)) = Book
      /\ map fst values = fields Book
      /\ (forall f v, In (f, v) values ->
            filled_in_with_dates sample_strptime (keyboard (typing lines library)) f v)
      /\ (forall f, In f (fields Book) ->
            exists v, In (f, v) values
                      /\ attribute (set_all values (new_item Book)) f = Some v)
      /\ exists typed, keyboard (typing lines library) = typed ++ rest
                       /\ (length (fields Book) <= length typed)%nat
  | None =>
      exists t', get_date_with_fields sample_strptime (new_item Book)
                   (typing lines library)
                 = (Failed EOFError, t')
                 /\ keyboard t' = []
                 /\ db (world t') = db (world (typing lines library))
  end.
Proof.
  exact (get_date_with_fields_keeps_dates_only sample_strptime Book
           (typing ["Dune"; "Frank Herbert"; ""; "14.12.2014"; "2014-12-14"] library)
           eq_refl).
Defined.

(** The dialogue of the witness: the genre is left empty, and the date is
    asked for again after a text the parser refused. *)
Example book_dialogue :
  let lines := ["Dune"; "Frank Herbert"; ""; "14.12.2014"; "2014-12-14"] in
  let r := get_date_with_fields sample_strptime (new_item Book) (typing lines library) in
  answers_of (dated_answer_of sample_strptime) (fields Book) lines
  = Some ([("name", AStr "Dune"); ("author", AStr "Frank Herbert");
           ("genre", AStr ""); ("date", ADate 735581)], [])
  /\ fst r = Done {| item_class := Book; name := AStr "Dune";
                     attributes := [("author", AStr "Frank Herbert"); ("genre", AStr "");
                                    ("date", ADate 735581)] |}
  /\ keyboard (snd r) = []
  /\ console (world (snd r))
     = ["[cyan]Enter name of book(cannot be empty): [/cyan]";
        "[cyan]Enter author of book: [/cyan]";
        "[cyan]Enter genre of book: [/cyan]";
        "[cyan]Enter date in YYYY-mm-dd format. Eg: 2014-12-14: [/cyan]";
        "[red]Invalid Date format. Please follow the example given.[/red]";
        "[cyan]Enter date in YYYY-mm-dd format. Eg: 2014-12-14: [/cyan]"].
Proof. vm_compute. repeat split. Qed.

(** A lost input apart, the questions leave every field of the item set. *)
Lemma fill_sets (ask : string -> IO attr)
    (answer : string -> list string -> option (attr * list string))
    (Q : list string -> string -> attr -> Prop) :
  (forall f, asks_as (ask f) (answer f)) ->
  (forall f lines v rest, answer f lines = Some (v, rest) ->
     Q lines f v /\ exists typed, typed <> [] /\ lines = typed ++ rest) ->
  (forall typed lines f v, Q lines f v -> Q (typed ++ lines) f v) ->
  forall (c : Inventory) (t : Terminal),
    match for_fold (fields c) (new_item c)
            (fun self field => value <-- ask field ;;; io_ret (setattr self field value)) t
    with
    | (Done item, t') =>
        (forall f, In f (fields (item_class item)) -> attribute item f <> None)
        /\ db (world t') = db (world t)
        /\ (length (keyboard t') <= length (keyboard t))%nat
    | (Failed EOFError, t') => db (world t') = db (world t)
    | (Failed _, _) => False
    end.
Proof.
  intros Hask Hanswer Hmore c t.
  pose proof (fill_run ask answer Hask (fields c) (new_item c) t) as Hrun.
  destruct (answers_of answer (fields c) (keyboard t)) as [[values rest]|] eqn:Ha.
  - destruct Hrun as [t' [Hrun [Hk Hdb]]]. rewrite Hrun.
    destruct (answers_of_typed answer Q Hanswer Hmore _ _ _ _ Ha)
      as [Hfs [_ [typed [Htyped _]]]].
    split; [|split; [assumption|]].
    + rewrite item_class_set_all. cbn [item_class new_item]. intros f Hf.
      destruct (attribute_set_all values (new_item c) f) as [v [_ Hv]];
        [now rewrite Hfs | congruence].
    + rewrite Hk, Htyped, length_app, Nat.add_comm. apply Nat.le_add_r.
  - destruct Hrun as [t' [Hrun [_ Hdb]]]. rewrite Hrun. exact Hdb.
Qed.

(** ** Adding an item *)

Lemma getattrs_set (self : Item) (fs : list string) (t : Terminal) :
  (forall f, In f fs -> attribute self f <> None) ->
  getattrs self fs t
  = (Done (map (fun f => match attribute self f with
                         | Some v => v
                         | None => ANone
                         end) fs), t).
Proof.
  induction fs as [|f fs IH]; intros Hset; [reflexivity|].
  simpl. unfold io_bind, getattr.
  destruct (attribute self f) as [v|] eqn:Hv.
  - simpl. rewrite IH by (intros f' Hf'; apply Hset; now right). reflexivity.
  - exfalso. apply (Hset f); [now left | assumption].
Qed.

Lemma getattrs_unset (self : Item) (fs : list string) (t : Terminal) :
  (exists f, In f fs /\ attribute self f = None) ->
  exists f, In f fs /\ attribute self f = None
            /\ getattrs self fs t = (Failed (AttributeError f), t).
Proof.
  induction fs as [|f0 fs IH]; intros [f [Hin Hf]]; [contradiction|].
  simpl. unfold io_bind, getattr.
  destruct (attribute self f0) as [v|] eqn:Hv.
  - destruct Hin as [<-|Hin]; [congruence|].
    destruct IH as [f' [Hin' [Hf' Hg]]]; [now exists f|].
    exists f'. split; [now right|]. split; [assumption|].
    simpl. now rewrite Hg.
  - exists f0. split; [now left|]. split; [assumption | reflexivity].
Qed.

Lemma has_duplicate_NoDup (l : list string) : has_duplicate l = false -> NoDup l.
Proof.
  induction l as [|x l IH]; simpl; intros H; [constructor|].
  apply orb_false_iff in H as [Hx Hl]. constructor; [|now apply IH].
  intros Hin. apply mem_In in Hin. congruence.
Qed.

Lemma insertable_fields (c : Inventory) :
  insertable c ->
  ~ In "id" (fields c) /\ ~ In "user_name" (fields c)
  /\ NoDup (fields c ++ ["user_name"])
  /\ layout c = fields c ++ ["user_name"].
Proof.
  unfold insertable. simpl. intros H.
  apply orb_false_iff in H as [Hid Hdup].
  apply has_duplicate_NoDup in Hdup.
  assert (Hid' : ~ In "id" (fields c)).
  { intros Hin. rewrite mem_app in Hid. apply orb_false_iff in Hid as [Hid _].
    apply mem_In in Hin. congruence. }
  assert (Hun : ~ In "user_name" (fields c)).
  { intros Hin. apply NoDup_remove_2 with (l := fields c) (l' := []) in Hdup.
    apply Hdup. now rewrite app_nil_r. }
  repeat split; try assumption.
  unfold layout. rewrite forallb_filter_id.
  - destruct (mem "user_name" (fields c)) eqn:E; [|reflexivity].
    apply mem_In in E. contradiction.
  - apply forallb_forall. intros f Hf. apply negb_true_iff, String.eqb_neq. congruence.
Qed.

Lemma lookup_not_key {V : Type} (k : string) (l : list (string * V)) :
  ~ In k (map fst l) -> lookup k l = None.
Proof.
  induction l as [|[k' v] l IH]; simpl; intros Hn; [reflexivity|].
  destruct (String.eqb_spec k k') as [->|_]; [exfalso; apply Hn; now left|].
  apply IH. intros Hin. apply Hn. now right.
Qed.

Lemma keys_of_combine {V : Type} (k : string) (cols : list string) (vals : list V) :
  In k (map fst (combine cols vals)) -> In k cols.
Proof.
  revert vals. induction cols as [|c cols IH]; intros [|v vals]; simpl; try tauto.
  intros [->|Hin]; [now left | right; now apply (IH vals)].
Qed.

Lemma lookup_combine_map {V W : Type} (g : V -> W) (d : W)
    (cols : list string) (vals : list V) :
  NoDup cols -> length vals = length cols ->
  map (fun col => match lookup col (combine cols vals) with
                  | Some v => g v
                  | None => d
                  end) cols
  = map g vals.
Proof.
  revert vals. induction cols as [|c cols IH]; intros [|v vals] Hnd Hlen;
    try discriminate; [reflexivity|].
  simpl. rewrite String.eqb_refl. f_equal.
  inversion Hnd as [|? ? Hc Hnd']; subst.
  rewrite <- (IH vals Hnd') by (simpl in Hlen; congruence).
  apply map_ext_in. intros col Hcol.
  destruct (String.eqb_spec col c) as [->|_]; [contradiction | reflexivity].
Qed.

Lemma find_none_all {A : Type} (p : A -> bool) (l : list A) :
  (forall x, In x l -> p x = false) -> find p l = None.
Proof.
  induction l as [|a l IH]; simpl; intros H; [reflexivity|].
  rewrite (H a) by now left. apply IH. intros x Hx. apply H. now right.
Qed.

Lemma insert_row_last (r : ItemRow) (rs : list ItemRow) :
  (forall x, In x rs -> (row_id x < row_id r)%Z) -> insert_row r rs = rs ++ [r].
Proof.
  induction rs as [|x rs IH]; simpl; intros H; [reflexivity|].
  assert (Hx : (row_id x < row_id r)%Z) by (apply H; now left).
  destruct (Z.ltb_spec (row_id r) (row_id x)) as [Hlt|_]; [lia|].
  f_equal. apply IH. intros y Hy. apply H. now right.
Qed.

Lemma lookup_store_table_same (k : string) (tbl tbl0 : Table)
    (tbls : list (string * Table)) :
  lookup k tbls = Some tbl0 -> lookup k (store_table k tbl tbls) = Some tbl.
Proof.
  induction tbls as [|[k' v] tbls IH]; simpl; [discriminate|].
  destruct (String.eqb k k') eqn:E; simpl.
  - intros _. now rewrite E.
  - intros H. rewrite E. now apply IH.
Qed.

Lemma lookup_store_table_other (k k' : string) (tbl : Table)
    (tbls : list (string * Table)) :
  k' <> k -> lookup k' (store_table k tbl tbls) = lookup k' tbls.
Proof.
  intros Hne. induction tbls as [|[k0 v] tbls IH]; simpl; [reflexivity|].
  destruct (String.eqb_spec k k0) as [<-|Hk]; simpl.
  - destruct (String.eqb_spec k' k) as [|_]; [contradiction | reflexivity].
  - now rewrite IH.
Qed.

Lemma store_table_names (k : string) (tbl : Table) (tbls : list (string * Table)) :
  map fst (store_table k tbl tbls) = map fst tbls.
Proof.
  induction tbls as [|[k0 v] tbls IH]; simpl; [reflexivity|].
  destruct (String.eqb k k0); simpl; [reflexivity | now rewrite IH].
Qed.

Lemma as_text_cell_of (self : Item) (f : string) : as_text (cell_of self f) = cell_of self f.
Proof.
  unfold cell_of. destruct (attribute self f) as [[s| |d]|]; reflexivity.
Qed.

(** The INSERT that [add_to_inventory] sends, run on a table laid out for
    the class of the item. *)
(** The values of an item are texts and NULLs: the driver binds them all. *)
Lemma bindable_cells (self : Item) (fs : list string) (user_name : string) :
  forallb bindable (map (cell_of self) fs ++ [VText user_name]) = true.
Proof.
  rewrite forallb_app. cbn [forallb bindable andb].
  rewrite andb_true_r. apply forallb_forall. intros v Hv.
  apply in_map_iff in Hv as [f [<- _]]. unfold cell_of.
  destruct (attribute self f) as [[s| |d]|]; reflexivity.
Qed.

Lemma sqlite_insert_item (integer_of_text : string -> option Z)
    (self : Item) (user_name : string) (s : Store) (tbl : Table) :
  let c := item_class self in
  insertable c ->
  lookup (cls_item_type c) (tables s) = Some tbl ->
  columns tbl = layout c ->
  (next_rowid (map row_id (rows tbl)) <= MAX_ROWID)%Z ->
  sqlite_insert integer_of_text
    (InsertItem (cls_item_type c) (fields c ++ ["user_name"]))
    (map (cell_of self) (fields c) ++ [VText user_name]) s
  = inr (set_tables s
           (store_table (cls_item_type c)
              {| columns := columns tbl;
                 rows := rows tbl ++ [item_row self user_name tbl] |}
              (tables s)),
         []).
Proof.
  intros c Hins Hlook Hcols Hmax.
  destruct (insertable_fields c Hins) as [Hid [Hun [Hnd Hlay]]].
  unfold sqlite_insert.
  remember (fields c ++ ["user_name"]) as cols eqn:Hfs in |- *.
  destruct cols as [|c0 cs]; [now destruct (fields c)|].
  rewrite Hfs, Hlook.
  rewrite find_none_all.
  2:{ intros f Hf. apply negb_false_iff. unfold has_column.
      apply orb_true_iff. right. apply mem_In. now rewrite Hcols, Hlay. }
  rewrite !length_app, length_map, Nat.eqb_refl, bindable_cells.
  unfold new_row_id.
  rewrite lookup_not_key.
  2:{ rewrite map_rev. intros Hin. apply in_rev in Hin.
      apply keys_of_combine in Hin. apply in_app_or in Hin as [Hin|[Hin|[]]];
        [contradiction | discriminate]. }
  destruct (Z.leb_spec MAX_ROWID (fold_right Z.max 0%Z (map row_id (rows tbl)))) as [Hfull|_];
    [unfold next_rowid in Hmax; lia|].
  do 4 f_equal.
  rewrite insert_row_last.
  - do 2 f_equal. unfold item_row. f_equal. fold c.
    rewrite Hcols, Hlay.
    rewrite (lookup_combine_map as_text VNull) by
      (try assumption; now rewrite !length_app, length_map).
    rewrite map_app, map_map. simpl. f_equal.
    apply (f_equal (fun l => l ++ [VText user_name])).
    apply map_ext. intros f. apply as_text_cell_of.
  - intros x Hx. simpl.
    assert (Hle : (row_id x <= fold_right Z.max 0%Z (map row_id (rows tbl)))%Z)
      by (apply max_id_bound; now apply in_map).
    unfold next_rowid. lia.
Qed.

Lemma bound_values (self : Item) (fs : list string) :
  map bind_attr (map (fun f => match attribute self f with
                               | Some v => v
                               | None => ANone
                               end) fs)
  = map (cell_of self) fs.
Proof.
  rewrite map_map. apply map_ext. intros f. unfold cell_of.
  now destruct (attribute self f).
Qed.

(** The run of [add_to_inventory] on a table laid out for the class. *)
Lemma add_to_inventory_run (integer_of_text : string -> option Z)
    (self : Item) (user_name : string) (tbl : Table) (t : Terminal) :
  let c := item_class self in
  insertable c ->
  lookup (cls_item_type c) (tables (db (world t))) = Some tbl ->
  columns tbl = layout c ->
  (forall f, In f (fields c) -> attribute self f <> None) ->
  (next_rowid (map row_id (rows tbl)) <= MAX_ROWID)%Z ->
  add_to_inventory integer_of_text self user_name t
  = (Done tt,
     {| world :=
          say (added_message self)
            (with_db
               (set_tables (db (world t))
                  (store_table (cls_item_type c)
                     {| columns := columns tbl;
                        rows := rows tbl ++ [item_row self user_name tbl] |}
                     (tables (db (world t)))))
               (world t));
        keyboard := keyboard t |}).
Proof.
  intros c Hins Hlook Hcols Hset Hmax.
  unfold add_to_inventory, io_bind. fold c.
  rewrite (getattrs_set self (fields c) t Hset). cbv beta iota zeta.
  rewrite bound_values.
  unfold lift, execute, try_except, bind, on_cursor, Utils.rich_print, print,
         commit, ret.
  unfold c in *.
  rewrite (sqlite_insert_item integer_of_text self user_name (db (world t)) tbl
             Hins Hlook Hcols Hmax).
  reflexivity.
Qed.

(** X14. Let the class of an item have pairwise distinct fields other than
    [id] and [user_name], let its table be laid out as [create_table] lays
    it out and not be full, and let every field of the item be set.  Then
    [add_to_inventory] returns, and the table has exactly one row more,
    after the others: its id is the next id, its cells are the values of
    the fields in the order of the fields ([None] as NULL, a date as
    YYYY-MM-DD) followed by the name of the user.  Every other table, the
    users and the ledger are as before, and one line is printed, which
    names the item and its class. *)
Theorem add_to_inventory_adds_one_row (integer_of_text : string -> option Z)
    (self : Item) (user_name : string) (tbl : Table) (t : Terminal) :
  let c := item_class self in
  ordinary_fields c = true ->
  insertable c ->
  lookup (cls_item_type c) (tables (db (world t))) = Some tbl ->
  columns tbl = layout c ->
  (forall f, In f (fields c) -> attribute self f <> None) ->
  (next_rowid (map row_id (rows tbl)) <= MAX_ROWID)%Z ->
  rich_plain (str_attr (name self)) = true ->
  let r := add_to_inventory integer_of_text self user_name t in
  fst r = Done tt
  /\ lookup (cls_item_type c) (tables (db (world (snd r))))
     = Some {| columns := columns tbl;
               rows := rows tbl ++ [item_row self user_name tbl] |}
  /\ (forall k, k <> cls_item_type c ->
        lookup k (tables (db (world (snd r)))) = lookup k (tables (db (world t))))
  /\ users (db (world (snd r))) = users (db (world t))
  /\ transactions (db (world (snd r))) = transactions (db (world t))
  /\ console (world (snd r)) = console (world t) ++ [added_message self]
  /\ keyboard (snd r) = keyboard t.
Proof.
  intros c _ Hins Hlook Hcols Hset Hmax _. cbv zeta.
  rewrite (add_to_inventory_run integer_of_text self user_name tbl t
             Hins Hlook Hcols Hset Hmax).
  simpl. split; [reflexivity|]. split; [now apply lookup_store_table_same with tbl|].
  split; [intros k Hk; now apply lookup_store_table_other|].
  repeat split.
Qed.

Lemma add_to_inventory_adds_one_row_witness :
  let r := add_to_inventory sample_integer_of_text dune "carol" (typing ["next"] library) in
  fst r = Done tt
  /\ lookup "book" (tables (db (world (snd r))))
     = Some {| columns := columns library_books;
               rows := rows library_books ++ [item_row dune "carol" library_books] |}
  /\ (forall k, k <> "book" ->
        lookup k (tables (db (world (snd r)))) = lookup k (tables library))
  /\ users (db (world (snd r))) = users library
  /\ transactions (db (world (snd r))) = transactions library
  /\ console (world (snd r)) = [] ++ [added_message dune]
  /\ keyboard (snd r) = ["next"].
Proof.
  apply (add_to_inventory_adds_one_row sample_integer_of_text dune "carol"
           library_books (typing ["next"] library)); try reflexivity.
  - intros f Hf. simpl in Hf.
    repeat (destruct Hf as [<-|Hf]; [discriminate|]). contradiction.
  - vm_compute. discriminate.
Defined.

(** The row of the witness, and the line printed for it. *)
Example dune_row :
  item_row dune "carol" library_books
  = {| row_id := 3;
       cells := [VText "Dune"; VText "Frank Herbert"; VText ""; VText "2014-12-14";
                 VText "carol"] |}
  /\ added_message dune = "[green]Dune (book) successfully added to inventory.[/green]".
Proof. vm_compute. split; reflexivity. Qed.

(** An INSERT of an item either fails with an error of the store, or puts
    one row into the table it names. *)
Lemma sqlite_insert_cases (integer_of_text : string -> option Z)
    (table_name : string) (cols : list string) (params : list value) (s : Store) :
  forallb bindable params = true ->
  (exists e, is_sqlite3_Error e = true
             /\ sqlite_insert integer_of_text (InsertItem table_name cols) params s = inl e)
  \/ (exists tbl r,
        lookup table_name (tables s) = Some tbl
        /\ sqlite_insert integer_of_text (InsertItem table_name cols) params s
           = inr (set_tables s
                    (store_table table_name
                       {| columns := columns tbl; rows := insert_row r (rows tbl) |}
                       (tables s)),
                  [])).
Proof.
  intros Hbind. unfold sqlite_insert. rewrite Hbind.
  destruct cols as [|c0 cs]; [left; eexists; split; [|reflexivity]; reflexivity|].
  destruct (lookup table_name (tables s)) as [tbl|] eqn:Hlook;
    [|left; eexists; split; [|reflexivity]; reflexivity].
  destruct (find _ (c0 :: cs)) as [c|];
    [left; eexists; split; [|reflexivity]; reflexivity|].
  destruct (length params =? length (c0 :: cs))%nat;
    [|left; eexists; split; [|reflexivity]; reflexivity].
  destruct (new_row_id _ _ _ _) as [e|id] eqn:Hid.
  - left. exists e. split; [|reflexivity].
    unfold new_row_id in Hid.
    destruct (lookup "id" _) as [[|n|tx|b]|];
      repeat match type of Hid with
             | (if ?b then _ else _) = _ => destruct b
             | match ?x with Some _ => _ | None => _ end = _ => destruct x
             end;
      inversion Hid; reflexivity.
  - right. eexists tbl, _. split; reflexivity.
Qed.

(** X15. Whatever the store holds, [add_to_inventory] on an item whose
    fields are set raises nothing and prints either the two lines of an
    error of the store, leaving the store as it was, or the line of the
    success, the table of the class having one row more.  It never touches
    the users, the ledger or the table of another class, and it reads no
    line. *)
Theorem add_to_inventory_touches_one_table (integer_of_text : string -> option Z)
    (self : Item) (user_name : string) (t : Terminal) :
  let c := item_class self in
  ordinary_fields c = true ->
  (forall f, In f (fields c) -> attribute self f <> None) ->
  rich_plain (str_attr (name self)) = true ->
  let r := add_to_inventory integer_of_text self user_name t in
  fst r = Done tt
  /\ users (db (world (snd r))) = users (db (world t))
  /\ transactions (db (world (snd r))) = transactions (db (world t))
  /\ map fst (tables (db (world (snd r)))) = map fst (tables (db (world t)))
  /\ (forall k, k <> cls_item_type c ->
        lookup k (tables (db (world (snd r)))) = lookup k (tables (db (world t))))
  /\ keyboard (snd r) = keyboard t
  /\ ((db (world (snd r)) = db (world t)
       /\ exists e,
            is_sqlite3_Error e = true
            /\ console (world (snd r))
               = console (world t)
                 ++ [Utils.markup (fstr ["Error executing query: "; str_exn e]) "error";
                     Utils.markup (fstr ["Error adding to inventory: "; str_exn e])
                                  "error"])
      \/ (console (world (snd r)) = console (world t) ++ [added_message self]
          /\ exists tbl row,
               lookup (cls_item_type c) (tables (db (world t))) = Some tbl
               /\ lookup (cls_item_type c) (tables (db (world (snd r))))
                  = Some {| columns := columns tbl;
                            rows := insert_row row (rows tbl) |})).
Proof.
  intros c _ Hset _. cbv zeta.
  unfold add_to_inventory, io_bind. fold c.
  rewrite (getattrs_set self (fields c) t Hset). cbv beta iota zeta.
  rewrite bound_values.
  unfold lift, execute, try_except, bind, on_cursor, Utils.rich_print, print,
         commit, ret, raise.
  destruct (sqlite_insert_cases integer_of_text (cls_item_type c)
              (fields c ++ ["user_name"])
              (map (cell_of self) (fields c) ++ [VText user_name]) (db (world t))
              (bindable_cells self (fields c) user_name))
    as [[e [He Hq]] | [tbl [row [Hlook Hq]]]]; rewrite Hq.
  - rewrite He. simpl. repeat (split; [reflexivity|]).
    left. split; [reflexivity|].
    exists e. split; [assumption|]. now rewrite <- app_assoc.
  - simpl. do 3 (split; [reflexivity|]).
    split; [apply store_table_names|].
    split; [intros k Hk; now apply lookup_store_table_other|].
    split; [reflexivity|]. right. split; [reflexivity|].
    exists tbl, row. split; [assumption|].
    now apply lookup_store_table_same with tbl.
Qed.

Lemma add_to_inventory_touches_one_table_witness :
  let t := typing ["next"] empty_store in
  let r := add_to_inventory sample_integer_of_text dune "carol" t in
  fst r = Done tt
  /\ users (db (world (snd r))) = users (db (world t))
  /\ transactions (db (world (snd r))) = transactions (db (world t))
  /\ map fst (tables (db (world (snd r)))) = map fst (tables (db (world t)))
  /\ (forall k, k <> "book" ->
        lookup k (tables (db (world (snd r)))) = lookup k (tables (db (world t))))
  /\ keyboard (snd r) = keyboard t
  /\ ((db (world (snd r)) = db (world t)
       /\ exists e,
            is_sqlite3_Error e = true
            /\ console (world (snd r))
               = console (world t)
                 ++ [Utils.markup (fstr ["Error executing query: "; str_exn e]) "error";
                     Utils.markup (fstr ["Error adding to inventory: "; str_exn e])
                                  "error"])
      \/ (console (world (snd r)) = console (world t) ++ [added_message dune]
          /\ exists tbl row,
               lookup "book" (tables (db (world t))) = Some tbl
               /\ lookup "book" (tables (db (world (snd r))))
                  = Some {| columns := columns tbl;
                            rows := insert_row row (rows tbl) |})).
Proof.
  apply (add_to_inventory_touches_one_table sample_integer_of_text dune "carol"
           (typing ["next"] empty_store)); try reflexivity.
  intros f Hf. simpl in Hf.
  repeat (destruct Hf as [<-|Hf]; [discriminate|]). contradiction.
Defined.

(** Without a table of books the book is lost, and two lines say why. *)
Example dune_without_table :
  let r := add_to_inventory sample_integer_of_text dune "carol"
             (typing ["next"] empty_store) in
  fst r = Done tt
  /\ db (world (snd r)) = empty_store
  /\ console (world (snd r))
     = ["[red]Error executing query: no such table: book[/red]";
        "[red]Error adding to inventory: no such table: book[/red]"].
Proof. vm_compute. repeat split. Qed.

(** ** Adding, then searching *)

Lemma search_one_rows (c : Inventory) (search_word : string) (w : World Store)
    (tbl : Table) :
  fields c <> [] ->
  lookup (cls_item_type c) (tables (db w)) = Some tbl ->
  columns tbl = layout c ->
  search_with_auto_complete c search_word w
  = (Return
       (Some (["Category"; "id"] ++ fields c,
              map (fun r => VText (cls_item_type c) :: VInt (row_id r) :: cells r)
                  (filter (fun r =>
                             existsb (fun f => like_value (like_param search_word)
                                                          (column_value tbl r f))
                                     (fields c))
                          (rows tbl)))),
     w).
Proof.
  intros Hne Hlook Hcols. run_method search_with_auto_complete.
  rewrite (sqlite_search_one (cls_item_type c) (fields c) (like_param search_word)
             (db w) tbl Hne Hlook (layout_has_column c tbl Hcols) eq_refl).
  simpl. now destruct w.
Qed.

Lemma nth_index_map (g : string -> value) (fs : list string) (rest : list value)
    (f : string) :
  In f fs -> nth (index f fs) (map g fs ++ rest) VNull = g f.
Proof.
  induction fs as [|a fs IH]; simpl; [tauto|].
  destruct (String.eqb_spec f a) as [->|Hne]; [reflexivity|].
  intros [Heq|Hin]; [congruence | now apply IH].
Qed.

Lemma column_value_item_row (self : Item) (user_name : string) (tbl tbl' : Table)
    (f : string) :
  insertable (item_class self) ->
  columns tbl' = layout (item_class self) ->
  In f (fields (item_class self)) ->
  column_value tbl' (item_row self user_name tbl) f = cell_of self f.
Proof.
  intros Hins Hcols Hf.
  destruct (insertable_fields _ Hins) as [Hid [_ [_ Hlay]]].
  unfold column_value.
  destruct (String.eqb_spec f "id") as [->|_]; [contradiction|].
  rewrite Hcols, Hlay, (index_app_l f _ _ Hf). simpl.
  now apply nth_index_map.
Qed.

Lemma existsb_ext_in {A : Type} (p q : A -> bool) (l : list A) :
  (forall x, In x l -> p x = q x) -> existsb p l = existsb q l.
Proof.
  induction l as [|a l IH]; simpl; intros H; [reflexivity|].
  rewrite (H a) by now left. f_equal. apply IH. intros x Hx. apply H. now right.
Qed.

(** X16. Under the conditions of X14, a search in the class of the item
    after [add_to_inventory] returns what it returned before, followed by
    the new row when the value of one of the item's fields is LIKE the
    term between two [%], and by nothing otherwise.  In particular a term
    without wildcards that occurs in a text typed for a field, letter case
    apart, finds the item. *)
Theorem added_item_is_found (integer_of_text : string -> option Z)
    (self : Item) (user_name : string) (tbl : Table) (t : Terminal)
    (search_word : string) :
  let c := item_class self in
  ordinary_fields c = true ->
  insertable c ->
  fields c <> [] ->
  lookup (cls_item_type c) (tables (db (world t))) = Some tbl ->
  columns tbl = layout c ->
  (forall f, In f (fields c) -> attribute self f <> None) ->
  (next_rowid (map row_id (rows tbl)) <= MAX_ROWID)%Z ->
  rich_plain (str_attr (name self)) = true ->
  let after := world (snd (add_to_inventory integer_of_text self user_name t)) in
  let found :=
    existsb (fun f => like_value (like_param search_word) (cell_of self f)) (fields c) in
  let shown :=
    VText (cls_item_type c) :: VInt (next_rowid (map row_id (rows tbl)))
      :: map (cell_of self) (fields c) ++ [VText user_name] in
  (exists before,
     fst (search_with_auto_complete c search_word (world t))
     = Return (Some (["Category"; "id"] ++ fields c, before))
     /\ fst (search_with_auto_complete c search_word after)
        = Return (Some (["Category"; "id"] ++ fields c,
                        before ++ (if found then [shown] else []))))
  /\ (forall f s,
        In f (fields c) -> attribute self f = Some (AStr s) ->
        no_wildcard search_word = true -> contains_nocase s search_word = true ->
        found = true).
Proof.
  intros c _ Hins Hne Hlook Hcols Hset Hmax _. cbv zeta. split.
  - rewrite (add_to_inventory_run integer_of_text self user_name tbl t
               Hins Hlook Hcols Hset Hmax).
    cbn [snd world]. fold c.
    set (tbl' := {| columns := columns tbl;
                    rows := rows tbl ++ [item_row self user_name tbl] |}).
    rewrite (search_one_rows c search_word (world t) tbl Hne Hlook Hcols).
    rewrite (search_one_rows c search_word _ tbl' Hne).
    + eexists. split; [reflexivity|]. cbn [fst]. do 3 f_equal.
      unfold tbl' at 2. cbn [rows]. rewrite filter_app, map_app. f_equal.
      cbn [filter].
      rewrite (existsb_ext_in _
                 (fun f => like_value (like_param search_word) (cell_of self f))).
      * now destruct (existsb _ (fields c)).
      * intros f Hf. f_equal.
        now apply column_value_item_row.
    + cbn [db say with_db tables set_tables].
      now apply lookup_store_table_same with tbl.
    + exact Hcols.
  - intros f s Hf Hs Hw Hc. apply existsb_exists. exists f. split; [assumption|].
    rewrite like_value_contains_nocase by assumption.
    unfold cell_of. rewrite Hs. simpl. exact Hc.
Qed.

Lemma added_item_is_found_witness :
  let after := world (snd (add_to_inventory sample_integer_of_text dune "carol"
                             (typing ["next"] library))) in
  let found :=
    existsb (fun f => like_value (like_param "HERBERT") (cell_of dune f)) (fields Book) in
  let shown :=
    VText "book" :: VInt (next_rowid (map row_id (rows library_books)))
      :: map (cell_of dune) (fields Book) ++ [VText "carol"] in
  (exists before,
     fst (search_with_auto_complete Book "HERBERT" (world (typing ["next"] library)))
     = Return (Some (["Category"; "id"] ++ fields Book, before))
     /\ fst (search_with_auto_complete Book "HERBERT" after)
        = Return (Some (["Category"; "id"] ++ fields Book,
                        before ++ (if found then [shown] else []))))
  /\ (forall f s,
        In f (fields Book) -> attribute dune f = Some (AStr s) ->
        no_wildcard "HERBERT" = true -> contains_nocase s "HERBERT" = true ->
        found = true).
Proof.
  apply (added_item_is_found sample_integer_of_text dune "carol"
           library_books (typing ["next"] library) "HERBERT"); try reflexivity.
  - discriminate.
  - intros f Hf. simpl in Hf.
    repeat (destruct Hf as [<-|Hf]; [discriminate|]). contradiction.
  - vm_compute. discriminate.
Defined.

(** In the sample library the search for HERBERT showed one book; after
    carol has added hers it shows two. *)
Example herbert_after_adding :
  fst (search_with_auto_complete Book "HERBERT"
         (world (snd (add_to_inventory sample_integer_of_text dune "carol"
                        (typing ["next"] library)))))
  = Return
      (Some (["Category"; "id"; "name"; "author"; "genre"; "date"],
             [[VText "book"; VInt 2; VText "Dune"; VText "Frank Herbert";
               VText "science fiction"; VNull; VText "bob"];
              [VText "book"; VInt 3; VText "Dune"; VText "Frank Herbert";
               VText ""; VText "2014-12-14"; VText "carol"]])).
Proof. vm_compute. reflexivity. Qed.

(** ** The menus *)

Lemma io_print_said (message tag : string) (t : Terminal) :
  io_print message tag t = (Done tt, said [Utils.markup message tag] t).
Proof. reflexivity. Qed.

Lemma said_said (l1 l2 : list string) (t : Terminal) :
  said l2 (said l1 t) = said (l1 ++ l2) t.
Proof. unfold said. simpl. now rewrite app_assoc. Qed.

Lemma io_for_each_prints {A : Type} (line : A -> string) (tag : string)
    (xs : list A) (t : Terminal) :
  io_for_each xs (fun x => io_print (line x) tag) t
  = (Done tt, said (map (fun x => Utils.markup (line x) tag) xs) t).
Proof.
  revert t. induction xs as [|x xs IH]; intros t; simpl.
  - unfold io_ret, said. simpl. rewrite app_nil_r. now destruct t as [[? ? ? ?] ?].
  - unfold io_bind. rewrite io_print_said, IH, said_said. reflexivity.
Qed.

Lemma print_items_said (item_types : list (string * Inventory)) (t : Terminal) :
  print_items item_types t = (Done tt, said (item_lines item_types) t).
Proof.
  unfold print_items, io_bind. rewrite io_print_said.
  rewrite (io_for_each_prints
             (fun kv => fstr [fst kv; ". "; capitalize (cls_item_type (snd kv))]) "info").
  now rewrite said_said.
Qed.

Lemma only_items_added_refl (s : Store) : only_items_added s s.
Proof.
  repeat split. intros k tbl Hk. exists tbl. repeat split; [assumption|].
  apply incl_refl.
Qed.

Lemma only_items_added_trans (s1 s2 s3 : Store) :
  only_items_added s1 s2 -> only_items_added s2 s3 -> only_items_added s1 s3.
Proof.
  intros [Hu1 [Ht1 [Hn1 Hr1]]] [Hu2 [Ht2 [Hn2 Hr2]]].
  split; [congruence|]. split; [congruence|]. split; [congruence|].
  intros k tbl Hk. destruct (Hr1 k tbl Hk) as [tbl2 [Hk2 [Hc2 Hi2]]].
  destruct (Hr2 k tbl2 Hk2) as [tbl3 [Hk3 [Hc3 Hi3]]].
  exists tbl3. split; [assumption|]. split; [congruence|].
  eapply incl_tran; eassumption.
Qed.

Lemma In_insert_row (r x : ItemRow) (rs : list ItemRow) :
  In x rs -> In x (insert_row r rs).
Proof.
  induction rs as [|y rs IH]; simpl; [tauto|].
  destruct (row_id r <? row_id y)%Z; simpl; intros [->|Hin]; auto.
Qed.

(** Whatever the store holds, [add_to_inventory] on an item whose fields
    are set returns and at most adds a row. *)
Lemma add_to_inventory_frame (integer_of_text : string -> option Z)
    (self : Item) (user_name : string) (t : Terminal) :
  (forall f, In f (fields (item_class self)) -> attribute self f <> None) ->
  exists t',
    add_to_inventory integer_of_text self user_name t = (Done tt, t')
    /\ only_items_added (db (world t)) (db (world t'))
    /\ keyboard t' = keyboard t.
Proof.
  intros Hset. unfold add_to_inventory, io_bind.
  rewrite (getattrs_set self _ t Hset). cbv beta iota zeta.
  rewrite bound_values.
  unfold lift, execute, try_except, bind, on_cursor, Utils.rich_print, print,
         commit, ret, raise.
  destruct (sqlite_insert_cases integer_of_text (cls_item_type (item_class self))
              (fields (item_class self) ++ ["user_name"])
              (map (cell_of self) (fields (item_class self)) ++ [VText user_name])
              (db (world t))
              (bindable_cells self (fields (item_class self)) user_name))
    as [[e [He Hq]] | [tbl [row [Hlook Hq]]]]; rewrite Hq.
  - rewrite He. simpl. eexists. split; [reflexivity|].
    split; [apply only_items_added_refl | reflexivity].
  - simpl. eexists. split; [reflexivity|]. split; [|reflexivity].
    simpl. split; [reflexivity|]. split; [reflexivity|].
    split; [apply store_table_names|].
    intros k tbl0 Hk.
    destruct (String.eqb_spec k (cls_item_type (item_class self))) as [->|Hne].
    + rewrite Hlook in Hk. inversion Hk; subst tbl0.
      eexists. split; [now apply lookup_store_table_same with tbl|].
      split; [reflexivity|]. intros x Hx. now apply In_insert_row.
    + exists tbl0. split.
      * cbn [db with_db say tables set_tables world].
        now rewrite lookup_store_table_other.
      * split; [reflexivity | apply incl_refl].
Qed.

Lemma filled_item_run (strptime : string -> option Z) (asks_dates : Inventory -> bool)
    (c : Inventory) (t : Terminal) :
  match filled_item strptime asks_dates c t with
  | (Done item, t') =>
      (forall f, In f (fields (item_class item)) -> attribute item f <> None)
      /\ db (world t') = db (world t)
      /\ (length (keyboard t') <= length (keyboard t))%nat
  | (Failed EOFError, t') => db (world t') = db (world t)
  | (Failed _, _) => False
  end.
Proof.
  unfold filled_item. destruct (asks_dates c).
  - apply (fill_sets _ _ _ (dated_answer_of_asks strptime (cls_item_type c))
             (dated_answer_of_typed strptime) (filled_in_with_dates_more strptime)).
  - apply (fill_sets _ _ _ (answer_of_asks (cls_item_type c))
             answer_of_typed filled_in_more).
Qed.

(** A loop each round of which reads a line and keeps a relation between
    the stores comes to an end and keeps the relation. *)
Lemma loop_keeps {A : Type} (body : IO (option A)) (R : Store -> Store -> Prop)
    (F : failure -> Prop) :
  (forall s, R s s) ->
  (forall s1 s2 s3, R s1 s2 -> R s2 s3 -> R s1 s3) ->
  (forall t,
     io_spec body t
       (fun r t' => R (db (world t)) (db (world t'))
                    /\ (r = None -> (length (keyboard t') < length (keyboard t))%nat))
       (fun f t' => F f /\ R (db (world t)) (db (world t')))) ->
  forall rounds t, (length (keyboard t) < rounds)%nat ->
    io_spec (loop rounds body) t
      (fun _ t' => R (db (world t)) (db (world t')))
      (fun f t' => F f /\ R (db (world t)) (db (world t'))).
Proof.
  intros Hrefl Htrans Hbody rounds.
  induction rounds as [|k IH]; intros t Hlen; [inversion Hlen|].
  unfold io_spec. simpl. unfold io_bind.
  specialize (Hbody t). unfold io_spec in Hbody.
  destruct (body t) as [[[a|]|f] t1].
  - apply Hbody.
  - destruct Hbody as [HR Hshort]. specialize (Hshort eq_refl).
    assert (Hlt : (length (keyboard t1) < k)%nat).
    { exact (Nat.lt_le_trans _ _ _ Hshort (proj1 (Nat.lt_succ_r _ _) Hlen)). }
    specialize (IH t1 Hlt). unfold io_spec in IH.
    destruct (loop k body t1) as [[a|f] t2].
    + eapply Htrans; eassumption.
    + destruct IH as [HF HR2]. split; [assumption|]. eapply Htrans; eassumption.
  - exact Hbody.
Qed.

Lemma while_true_keeps {A : Type} (body : IO (option A)) (R : Store -> Store -> Prop)
    (F : failure -> Prop) :
  (forall s, R s s) ->
  (forall s1 s2 s3, R s1 s2 -> R s2 s3 -> R s1 s3) ->
  (forall t,
     io_spec body t
       (fun r t' => R (db (world t)) (db (world t'))
                    /\ (r = None -> (length (keyboard t') < length (keyboard t))%nat))
       (fun f t' => F f /\ R (db (world t)) (db (world t')))) ->
  forall t,
    io_spec (while_true body) t
      (fun _ t' => R (db (world t)) (db (world t')))
      (fun f t' => F f /\ R (db (world t)) (db (world t'))).
Proof.
  intros Hrefl Htrans Hbody t. unfold while_true.
  change (io_spec (loop (S (length (keyboard t))) body) t
            (fun _ t' => R (db (world t)) (db (world t')))
            (fun f t' => F f /\ R (db (world t)) (db (world t')))).
  apply loop_keeps; try assumption. apply Nat.lt_succ_diag_r.
Qed.

(** X17. Whatever is typed at the menu of the additions (no typed line
    holding a square bracket), [complete_add_action] comes to an end: it
    returns after the choice of Exit, or the input ends (EOFError), or
    [int] refuses a line that [isdigit] accepted (ValueError; the
    superscript digits are such lines).  However it ends, between the
    store before and the store after only items were added: the accounts
    and the ledger are the same, the same tables are there with the same
    columns, and every row of a table is still in it. *)
Theorem complete_add_action_only_adds_items
    (int strptime integer_of_text : string -> option Z)
    (asks_dates : Inventory -> bool) (user_name : string)
    (item_types : list (string * Inventory)) (t : Terminal) :
  (forall c, In c (values item_types) -> ordinary_fields c = true) ->
  Forall (fun line => rich_plain line = true) (keyboard t) ->
  match complete_add_action int strptime integer_of_text asks_dates user_name
          item_types t with
  | (Done _, t') => only_items_added (db (world t)) (db (world t'))
  | (Failed f, t') =>
      menu_failure int f /\ only_items_added (db (world t)) (db (world t'))
  end.
Proof.
  intros _ _.
  apply (while_true_keeps _ only_items_added (menu_failure int)
           only_items_added_refl only_items_added_trans).
  clear t. intros t. unfold io_spec, io_bind, int_of, io_ret, io_fail. cbv zeta.
  rewrite io_print_said. cbv beta iota.
  rewrite print_items_said. cbv beta iota.
  rewrite io_print_said. cbv beta iota.
  match goal with
  | |- context [rich_prompting ?m ?tag ?t0] =>
      pose proof (rich_prompting_reads m tag t0) as Hp;
      destruct (rich_prompting m tag t0) as [[line|f] t1]
  end.
  - destruct Hp as [Hk Hdb]. cbn [said keyboard world db] in Hk, Hdb.
    assert (Hshort : (length (keyboard t1) < length (keyboard t))%nat)
      by (rewrite Hk; apply Nat.lt_succ_diag_r).
    assert (HR : only_items_added (db (world t)) (db (world t1)))
      by (rewrite Hdb; apply only_items_added_refl).
    destruct (isdigit line) eqn:Hd.
    + destruct (int line) as [n|] eqn:Hn; cbv beta iota.
      * destruct (n =? Z.of_nat (length item_types) + 1)%Z.
        -- rewrite io_print_said. cbv beta iota. split; [exact HR | discriminate].
        -- destruct (lookup (str_int n) item_types) as [c|].
           ++ pose proof (filled_item_run strptime asks_dates c t1) as Hf.
              destruct (filled_item strptime asks_dates c t1) as [[item|f] t2].
              ** destruct Hf as [Hset [Hdb2 Hlen2]].
                 destruct (add_to_inventory_frame integer_of_text item user_name t2 Hset)
                   as [t3 [Hadd [HR3 Hk3]]].
                 rewrite Hadd. cbv beta iota. split.
                 --- eapply only_items_added_trans; [exact HR|]. now rewrite <- Hdb2.
                 --- intros _. rewrite Hk3.
                     eapply Nat.le_lt_trans; eassumption.
              ** destruct f; try contradiction. split; [now left|]. now rewrite Hf.
           ++ rewrite io_print_said. cbv beta iota. split; [exact HR | now intros _].
      * split; [right; now exists line | exact HR].
    + rewrite io_print_said. cbv beta iota. split; [exact HR | now intros _].
  - destruct f; try contradiction. destruct Hp as [_ [_ Hdb]].
    cbn [said keyboard world db] in Hdb.
    split; [now left|]. rewrite Hdb. apply only_items_added_refl.
Qed.

Lemma registry_ordinary : forall c, In c (values item_types) -> ordinary_fields c = true.
Proof.
  intros c Hc. simpl in Hc.
  repeat (destruct Hc as [<-|Hc]; [reflexivity|]). contradiction.
Qed.

Lemma complete_add_action_only_adds_items_witness :
  match complete_add_action sample_int sample_strptime sample_integer_of_text
          sample_asks_dates "carol" item_types (typing carol_adds library) with
  | (Done _, t') => only_items_added library (db (world t'))
  | (Failed f, t') =>
      menu_failure sample_int f /\ only_items_added library (db (world t'))
  end.
Proof.
  apply (complete_add_action_only_adds_items sample_int sample_strptime
           sample_integer_of_text sample_asks_dates "carol" item_types
           (typing carol_adds library)).
  - exact registry_ordinary.
  - repeat constructor.
Defined.

(** Carol's session: two refusals, the questions for a book, the line of
    the success, and the book in the table. *)
Example carol_adds_run :
  let r := complete_add_action sample_int sample_strptime sample_integer_of_text
             sample_asks_dates "carol" item_types (typing carol_adds library) in
  fst r = Done tt
  /\ keyboard (snd r) = []
  /\ lookup "book" (tables (db (world (snd r))))
     = Some {| columns := columns library_books;
               rows := rows library_books ++ [item_row dune "carol" library_books] |}
  /\ filter (fun line => String.prefix "[red]" line || String.prefix "[green]" line)
            (console (world (snd r)))
     = ["[red]Invalid input. Please enter a valid number![/red]";
        "[red]Invalid choice. Try again![/red]";
        "[green]Dune (book) successfully added to inventory.[/green]";
        "[green]Returning to the main menu...[/green]"].
Proof. vm_compute. repeat split. Qed.

Lemma rich_prompting_line (prompt_message tag line : string) (rest : list string)
    (t : Terminal) :
  keyboard t = line :: rest ->
  rich_prompting prompt_message tag t
  = (Done line,
     {| world := world (said [fstr ["["; Utils.colors_get tag; "]"; prompt_message;
                                    ": [/"; Utils.colors_get tag; "]"]] t);
        keyboard := rest |}).
Proof. intros Hk. unfold rich_prompting. now rewrite Hk. Qed.

Lemma loop_round {A : Type} (k : nat) (body : IO (option A)) (t : Terminal) :
  loop (S k) body t
  = match body t with
    | (Done (Some a), t') => (Done a, t')
    | (Done None, t') => loop k body t'
    | (Failed f, t') => (Failed f, t')
    end.
Proof.
  simpl. unfold io_bind. destruct (body t) as [[[a|]|f] t']; reflexivity.
Qed.

Lemma shown_app (c y a : list string) :
  (exists shown, y = c ++ shown) -> exists shown, y ++ a = c ++ shown.
Proof. intros [shown ->]. exists (shown ++ a). now rewrite app_assoc. Qed.

Lemma shown_after (c y : list string) (r : string) :
  (exists shown, y = c ++ shown) -> exists shown, y ++ [r] = c ++ shown ++ [r].
Proof. intros [shown ->]. exists shown. now rewrite app_assoc. Qed.

Lemma shown_nothing (c : list string) : exists shown, c = c ++ shown.
Proof. exists []. now rewrite app_nil_r. Qed.

(** The choice of Exit in the menu of the searches. *)
Lemma initiate_exit (int : string -> option Z)
    (get_transaction_history : bool -> M Store (list string * list row))
    (user_name : string) (item_types : list (string * Inventory))
    (is_borrow is_return : bool) (t : Terminal) (line : string) (rest : list string) :
  keyboard t = line :: rest ->
  isdigit line = true ->
  int line = Some (Z.of_nat (length item_types) + 2)%Z ->
  exists t',
    initiate_search_or_borrow_or_return_action int get_transaction_history
      user_name item_types is_borrow is_return t
    = (Done (Pair [] []), t')
    /\ db (world t') = db (world t)
    /\ keyboard t' = rest
    /\ exists shown, console (world t') = console (world t) ++ shown ++ [returning_message].
Proof.
  intros Hk Hd Hn.
  unfold initiate_search_or_borrow_or_return_action, while_true.
  rewrite loop_round. unfold io_bind, int_of, io_ret. cbv zeta.
  rewrite io_print_said. cbv beta iota.
  rewrite print_items_said. cbv beta iota.
  rewrite !io_print_said. cbv beta iota.
  erewrite rich_prompting_line by (cbn [said keyboard]; exact Hk).
  cbv beta iota. rewrite Hd, Hn. cbv beta iota.
  rewrite Z.eqb_refl. rewrite io_print_said. cbv beta iota.
  eexists. split; [reflexivity|]. split; [reflexivity|]. split; [reflexivity|].
  cbn [said world console keyboard].
  apply shown_after. repeat apply shown_app. apply shown_nothing.
Qed.

(** X18. In the menu of the searches, whether it was opened to search, to
    borrow or to return, the choice of Exit returns a tuple of two empty
    lists after the line "Returning to the main menu...", and the three
    places of [main] that open the menu unpack what it returns into three
    names: each of them ends in ValueError, which nothing catches, instead
    of going back to the main menu.  The store is as before. *)
Theorem exit_of_the_search_menu_raises (int : string -> option Z)
    (get_transaction_history : bool -> M Store (list string * list row))
    (format_output_display : list string -> list row -> IO unit)
    (user_name : string) (item_types : list (string * Inventory))
    (t : Terminal) (line : string) (rest : list string) :
  keyboard t = line :: rest ->
  isdigit line = true ->
  int line = Some (Z.of_nat (length item_types) + 2)%Z ->
  (forall is_borrow is_return,
     let r := initiate_search_or_borrow_or_return_action int get_transaction_history
                user_name item_types is_borrow is_return t in
     fst r = Done (Pair [] [])
     /\ db (world (snd r)) = db (world t)
     /\ keyboard (snd r) = rest
     /\ exists shown,
          console (world (snd r)) = console (world t) ++ shown ++ [returning_message])
  /\ (forall action,
        In action
           [search_items int get_transaction_history format_output_display
              user_name item_types;
            borrow_items int get_transaction_history format_output_display
              user_name item_types;
            return_items int get_transaction_history format_output_display
              user_name item_types] ->
        fst (action t) = Failed unpack_error
        /\ db (world (snd (action t))) = db (world t)
        /\ keyboard (snd (action t)) = rest).
Proof.
  intros Hk Hd Hn. split.
  - intros is_borrow is_return. cbv zeta.
    destruct (initiate_exit int get_transaction_history user_name item_types
                is_borrow is_return t line rest Hk Hd Hn) as [t' [Hrun Hrest]].
    rewrite Hrun. exact (conj eq_refl Hrest).
  - intros action [<-|[<-|[<-|[]]]].
    + destruct (initiate_exit int get_transaction_history user_name item_types
                  false false t line rest Hk Hd Hn) as [t' [Hrun [Hdb [Hkb _]]]].
      unfold search_items, io_bind. rewrite Hrun. simpl. now split.
    + destruct (initiate_exit int get_transaction_history user_name item_types
                  true false t line rest Hk Hd Hn) as [t' [Hrun [Hdb [Hkb _]]]].
      unfold borrow_items, io_bind. rewrite Hrun. simpl. now split.
    + destruct (initiate_exit int get_transaction_history user_name item_types
                  true true t line rest Hk Hd Hn) as [t' [Hrun [Hdb [Hkb _]]]].
      unfold return_items, io_bind. rewrite Hrun. simpl. now split.
Qed.

Lemma exit_of_the_search_menu_raises_witness :
  let t := typing ["8"; "next"] library in
  (forall is_borrow is_return,
     let r := initiate_search_or_borrow_or_return_action sample_int sample_history
                "carol" item_types is_borrow is_return t in
     fst r = Done (Pair [] [])
     /\ db (world (snd r)) = db (world t)
     /\ keyboard (snd r) = ["next"]
     /\ exists shown,
          console (world (snd r)) = console (world t) ++ shown ++ [returning_message])
  /\ (forall action,
        In action
           [search_items sample_int sample_history sample_display "carol" item_types;
            borrow_items sample_int sample_history sample_display "carol" item_types;
            return_items sample_int sample_history sample_display "carol" item_types] ->
        fst (action t) = Failed unpack_error
        /\ db (world (snd (action t))) = db (world t)
        /\ keyboard (snd (action t)) = ["next"]).
Proof.
  apply (exit_of_the_search_menu_raises sample_int sample_history sample_display
           "carol" item_types (typing ["8"; "next"] library) "8" ["next"]);
    reflexivity.
Defined.

(** X19. [complete_borrow_or_return_action] checks neither the category
    nor the id it is given.  When the choice is no key of the registry (the
    "unsure" option), the category is the typed line in lower case,
    whatever it is; otherwise it is the name of the chosen class.  If the
    next line is a number for [int], the ledger has no open borrow of that
    number in that category, and the due date is a date, then a borrow of
    the number in the category is recorded for the user and the line of
    the success is printed - whether or not the store has a table of that
    name or an item of that id: the item tables are not read and stay as
    they are. *)
Theorem borrow_is_recorded_unchecked (int : string -> option Z)
    (user_name : string) (item_types : list (string * Inventory))
    (item_type_choice : Z) (t : Terminal)
    (typed category id_line : string) (n due : Z) (rest : list string) :
  (lookup (str_int item_type_choice) item_types = None
   /\ keyboard t = typed :: id_line :: rest /\ category = lower typed
   /\ rich_plain typed = true)
  \/ (exists item_type_cls,
        lookup (str_int item_type_choice) item_types = Some item_type_cls
        /\ keyboard t = id_line :: rest /\ category = cls_item_type item_type_cls) ->
  int id_line = Some n ->
  sqlite_integer n ->
  existsb (active_borrow n category) (transactions (db (world t))) = false ->
  add_timedelta_days (clock (world t) (S (ticks (world t)))) default_borrow_duration_days
  = inr due ->
  let r := complete_borrow_or_return_action int user_name item_types
             item_type_choice false t in
  fst r = Done tt
  /\ transactions (db (world (snd r)))
     = transactions (db (world t))
       ++ [new_borrow (transactions (db (world t))) user_name category n
             (strftime_Ymd (clock (world t) (ticks (world t)))) (strftime_Ymd due)]
  /\ tables (db (world (snd r))) = tables (db (world t))
  /\ users (db (world (snd r))) = users (db (world t))
  /\ keyboard (snd r) = rest
  /\ exists shown,
       console (world (snd r))
       = console (world t) ++ shown ++ [borrowed_message (strftime_Ymd due)].
Proof.
  intros Hchoice Hn Hint Hfree Hdue. cbv zeta.
  assert (Hfit : fits_int64 n = true).
  { unfold sqlite_integer in Hint. unfold fits_int64.
    apply andb_true_iff. split; apply Z.leb_le; lia. }
  unfold complete_borrow_or_return_action, io_bind, io_ret, while_true.
  destruct Hchoice as [[Hlook [Hk [-> _]]] | [c [Hlook [Hk ->]]]]; rewrite Hlook.
  - erewrite rich_prompting_line by exact Hk. cbv beta iota.
    rewrite loop_round. unfold io_bind, io_ret.
    erewrite rich_prompting_line by reflexivity. cbv beta iota.
    rewrite Hn. cbv beta iota.
    unfold lift. rewrite borrow_item_cases by exact Hfit.
    cbn [world said db clock ticks console keyboard].
    rewrite Hfree, Hdue. cbn.
    repeat (split; [reflexivity|]).
    apply shown_after. repeat apply shown_app. apply shown_nothing.
  - cbv beta iota. rewrite loop_round. unfold io_bind, io_ret.
    erewrite rich_prompting_line by exact Hk. cbv beta iota.
    rewrite Hn. cbv beta iota.
    unfold lift. rewrite borrow_item_cases by exact Hfit.
    cbn [world said db clock ticks console keyboard].
    rewrite Hfree, Hdue. cbn.
    repeat (split; [reflexivity|]).
    apply shown_after. repeat apply shown_app. apply shown_nothing.
Qed.

Lemma borrow_is_recorded_unchecked_witness :
  let t := typing ["Fish"; "42"; "next"] library in
  let due := ordinal_of_ymd 2024 1 8 in
  let r := complete_borrow_or_return_action sample_int "carol" item_types 7 false t in
  fst r = Done tt
  /\ transactions (db (world (snd r)))
     = transactions (db (world t))
       ++ [new_borrow (transactions (db (world t))) "carol" "fish" 42
             (strftime_Ymd (clock (world t) (ticks (world t)))) (strftime_Ymd due)]
  /\ tables (db (world (snd r))) = tables (db (world t))
  /\ users (db (world (snd r))) = users (db (world t))
  /\ keyboard (snd r) = ["next"]
  /\ exists shown,
       console (world (snd r))
       = console (world t) ++ shown ++ [borrowed_message (strftime_Ymd due)].
Proof.
  apply (borrow_is_recorded_unchecked sample_int "carol" item_types 7
           (typing ["Fish"; "42"; "next"] library) "Fish" "fish" "42" 42
           (ordinal_of_ymd 2024 1 8) ["next"]).
  - left. repeat split.
  - reflexivity.
  - unfold sqlite_integer. lia.
  - reflexivity.
  - reflexivity.
Defined.

(** The library has no table of fish and no item 42, and the ledger now
    says that carol holds fish 42 until 2024-01-08. *)
Example carol_borrows_a_fish :
  let r := complete_borrow_or_return_action sample_int "carol" item_types 7 false
             (typing ["Fish"; "42"; "next"] library) in
  map transaction_row (transactions (db (world (snd r))))
  = [[VInt 1; VText "carol"; VText "fish"; VInt 42; VText "2024-01-01";
      VText "2024-01-08"; VNull; VText "borrowed"]]
  /\ lookup "fish" (tables library) = None.
Proof. vm_compute. split; reflexivity. Qed.
